(** * Experiment Notebook: a shallow embedding of [experiment_notebook.py]

    The script prompts for the details of a lab experiment, appends the
    record to a JSON log and renders it as a PDF and as a Word document.

    Python values are modelled as the script uses them:
    - a [str] is the list of its code points ([pystr]);
    - what [json.load] can return is a [json] value, a [dict] being an
      association list in insertion order;
    - the experiment dictionary, whose ten keys the script always sets, is the
      record [experiment];
    - the console, the clock, the file system and the two document libraries
      form the [world]; the script's functions are programs of a state and
      exception monad over it, and the [trace] of the world records what
      they did, in order.

    The standard library's [json] module is modelled by an encoder
    ([json_dumps], the text [json.dump(..., indent=4)] writes) and a decoder
    ([json_loads], the value [json.load] returns or [None] where it raises
    [JSONDecodeError]).

    What the model leaves out:
    - a file is text, or bytes that the platform's encoding does not decode,
      or a document, or a directory; the encoding itself is not modelled, and
      any text can be written;
    - a [float] is kept as the literal that was read, and printed by the
      platform's [float_repr]; arithmetic on numbers is not needed;
    - [fpdf] and [python-docx] are the lists of calls the script makes on
      them; whether they manage to write the file is a parameter of the
      platform ([fpdf_accepts], [docx_accepts]);
    - the [while True] loop and the recursion of the decoder run on fuel,
      which is shown to suffice.

    The file has two parts: the definitions, then the proofs.  The theorems
    about the claims of the specification carry the claim's number in their
    comment; further properties of the code, numbered X1, X2, ..., follow
    them. *)

From Stdlib Require Import NArith ZArith List Lia Bool String Ascii.
From stdpp Require Import base option list gmap.
Import ListNotations.

#[local] Set Warnings "-register-all".
#[local] Open Scope N_scope.

(** ** Strings *)

(** A Python string: its code points, each in [0, 0x10FFFF]. *)
Abbreviation pystr := (list N).

(** A string literal of the script (they are all ASCII). *)
Definition str (s : string) : pystr := map N_of_ascii (list_ascii_of_string s).

(** Truth value of a string: [if s:] / [if not s:]. *)
Definition nonempty {A} (l : list A) : bool :=
  match l with [] => false | _ :: _ => true end.

Definition pystr_eqb (a b : pystr) : bool := bool_decide (a = b).

(** [sep.join(parts)] *)
Fixpoint join (sep : pystr) (parts : list pystr) : pystr :=
  match parts with
  | [] => []
  | [p] => p
  | p :: ps => p ++ sep ++ join sep ps
  end.

(** Decimal digits of a [Decimal.uint], most significant first. *)
Fixpoint uint_chars (d : Decimal.uint) : pystr :=
  match d with
  | Decimal.Nil => []
  | Decimal.D0 d => 48 :: uint_chars d
  | Decimal.D1 d => 49 :: uint_chars d
  | Decimal.D2 d => 50 :: uint_chars d
  | Decimal.D3 d => 51 :: uint_chars d
  | Decimal.D4 d => 52 :: uint_chars d
  | Decimal.D5 d => 53 :: uint_chars d
  | Decimal.D6 d => 54 :: uint_chars d
  | Decimal.D7 d => 55 :: uint_chars d
  | Decimal.D8 d => 56 :: uint_chars d
  | Decimal.D9 d => 57 :: uint_chars d
  end.

(** [str(n)] for a non-negative integer. *)
Definition str_of_N (n : N) : pystr := uint_chars (N.to_uint n).

(** [str(i)] for the counter of [enumerate]. *)
Definition str_of_nat (n : nat) : pystr := str_of_N (N.of_nat n).

(** [str(z)] for an integer. *)
Definition str_of_Z (z : Z) : pystr :=
  match z with
  | Zneg p => 45 :: str_of_N (Npos p)
  | _ => str_of_N (Z.to_N z)
  end.

(** [s.zfill(width)] for a string of digits. *)
Definition zfill (width : nat) (s : pystr) : pystr :=
  repeat 48 (width - length s) ++ s.

(** The zero-padded decimal fields of [strftime] and [isoformat]:
    [%02d], [%04d] and [%06d]. *)
Definition pad2 (n : N) : pystr := zfill 2 (str_of_N n).
Definition pad4 (n : N) : pystr := zfill 4 (str_of_N n).
Definition pad6 (n : N) : pystr := zfill 6 (str_of_N n).

Definition is_digit (c : N) : bool := (48 <=? c) && (c <=? 57).

(** ** The clock *)

(** A naive [datetime.datetime], as [datetime.datetime.now()] returns it. *)
Record datetime := {
  year : N; month : N; day : N;
  hour : N; minute : N; second : N; microsecond : N
}.

(** A reading of the clock: the ranges the [datetime] type enforces
    ([MAXYEAR] = 9999), for a year of four digits.  (For the years before
    1000 the C libraries differ on whether [%Y] pads the year with zeros.) *)
Definition valid_datetime (d : datetime) : Prop :=
  1000 <= year d <= 9999 /\ 1 <= month d <= 12 /\ 1 <= day d <= 31 /\
  hour d < 24 /\ minute d < 60 /\ second d < 60 /\ microsecond d < 1000000.

(** [now.strftime('%Y%m%d%H%M%S')] *)
Definition strftime_YmdHMS (d : datetime) : pystr :=
  pad4 (year d) ++ pad2 (month d) ++ pad2 (day d) ++
  pad2 (hour d) ++ pad2 (minute d) ++ pad2 (second d).

(** [str(now)]: ISO format with a space separator; the fraction is printed
    only when the microsecond is not zero. *)
Definition datetime_str (d : datetime) : pystr :=
  pad4 (year d) ++ str "-" ++ pad2 (month d) ++ str "-" ++ pad2 (day d) ++
  str " " ++ pad2 (hour d) ++ str ":" ++ pad2 (minute d) ++ str ":" ++
  pad2 (second d) ++
  (if microsecond d =? 0 then [] else str "." ++ pad6 (microsecond d)).

(** ** JSON values *)

(** What [json.load] returns: [None], [bool], [int], [float], [str], [list]
    and [dict] (insertion ordered, with string keys).  The development does
    no floating-point arithmetic: a [float] is kept as the numeric literal
    that denotes it, and its [repr] is a parameter of the encoder. *)
Inductive json :=
| JNull
| JBool (b : bool)
| JInt (z : Z)
| JFloat (lit : pystr)
| JStr (s : pystr)
| JList (l : list json)
| JDict (d : list (pystr * json)).

(** [d[k] = v] on an insertion-ordered dictionary: an existing key keeps
    its position and takes the new value, a new key goes last. *)
Fixpoint dict_set (k : pystr) (v : json) (d : list (pystr * json)) :
    list (pystr * json) :=
  match d with
  | [] => [(k, v)]
  | (k', v') :: d' =>
    if pystr_eqb k k' then (k, v) :: d' else (k', v') :: dict_set k v d'
  end.

(** [dict(pairs)] *)
Definition dict_of_pairs (pairs : list (pystr * json)) : list (pystr * json) :=
  fold_left (fun d kv => dict_set (fst kv) (snd kv) d) pairs [].

(** ** The encoder: [json.dump(obj, fp, indent=4)] *)

Definition hex_digit (n : N) : N := if n <? 10 then 48 + n else 87 + n.

(** ['\\u{0:04x}'.format(n)] for [n < 0x10000]. *)
Definition u_escape (n : N) : pystr :=
  [92; 117; hex_digit (n / 4096 mod 16); hex_digit (n / 256 mod 16);
   hex_digit (n / 16 mod 16); hex_digit (n mod 16)].

(** The replacement [encode_basestring_ascii] makes for one character:
    [ESCAPE_DCT] for the quote, the backslash and the named control
    characters, the character itself from space to tilde, and a [\u] escape
    (a surrogate pair above the basic plane) for every other code point. *)
Definition escape_char (c : N) : pystr :=
  if c =? 34 then [92; 34]
  else if c =? 92 then [92; 92]
  else if c =? 10 then [92; 110]
  else if c =? 13 then [92; 114]
  else if c =? 9 then [92; 116]
  else if c =? 8 then [92; 98]
  else if c =? 12 then [92; 102]
  else if (32 <=? c) && (c <=? 126) then [c]
  else if c <? 0x10000 then u_escape c
  else
    let n := c - 0x10000 in
    u_escape (N.lor 0xd800 (N.land (N.shiftr n 10) 0x3ff)) ++
    u_escape (N.lor 0xdc00 (N.land n 0x3ff)).

Definition encode_basestring_ascii (s : pystr) : pystr :=
  [34] ++ flat_map escape_char s ++ [34].

(** ['\n' + ' ' * (4 * level)] *)
Definition newline_indent (level : nat) : pystr :=
  10 :: repeat 32 (4 * level)%nat.

(** [_iterencode(o, level)], the chunks concatenated.  [float_repr] is
    [float.__repr__] on the float a literal denotes. *)
Fixpoint iterencode (float_repr : pystr -> pystr) (level : nat) (o : json) :
    pystr :=
  match o with
  | JNull => str "null"
  | JBool true => str "true"
  | JBool false => str "false"
  | JInt z => str_of_Z z
  | JFloat lit => float_repr lit
  | JStr s => encode_basestring_ascii s
  | JList [] => str "[]"
  | JList l =>
    [91] ++ newline_indent (S level) ++
    join (44 :: newline_indent (S level))
         (map (iterencode float_repr (S level)) l) ++
    newline_indent level ++ [93]
  | JDict [] => str "{}"
  | JDict d =>
    [123] ++ newline_indent (S level) ++
    join (44 :: newline_indent (S level))
         (map (fun kv => encode_basestring_ascii (fst kv) ++ str ": " ++
                         iterencode float_repr (S level) (snd kv)) d) ++
    newline_indent level ++ [125]
  end.

Definition json_dumps (float_repr : pystr -> pystr) (o : json) : pystr :=
  iterencode float_repr 0 o.

(** ** The decoder: [json.load(fp)] *)

(** The outcome of scanning a prefix of the text: a value and the text
    after it, [JSONDecodeError], or recursion deeper than the fuel given. *)
Inductive scan (A : Type) :=
| Scanned (a : A) (rest : pystr)
| Invalid
| Starved.
Arguments Scanned {A} a rest.
Arguments Invalid {A}.
Arguments Starved {A}.

(** [WHITESPACE = re.compile(r'[ \t\n\r]*')] *)
Definition is_ws (c : N) : bool :=
  (c =? 32) || (c =? 9) || (c =? 10) || (c =? 13).

Fixpoint skip_ws (s : pystr) : pystr :=
  match s with
  | c :: s' => if is_ws c then skip_ws s' else s
  | [] => []
  end.

(** One hexadecimal digit, either case. *)
Definition unhex (c : N) : option N :=
  if (48 <=? c) && (c <=? 57) then Some (c - 48)
  else if (97 <=? c) && (c <=? 102) then Some (c - 87)
  else if (65 <=? c) && (c <=? 70) then Some (c - 55)
  else None.

(** [_decode_uXXXX]: the four characters after [\u]. *)
Definition decode_uXXXX (h1 h2 h3 h4 : N) : option N :=
  match unhex h1, unhex h2, unhex h3, unhex h4 with
  | Some a, Some b, Some c, Some d => Some (a * 4096 + b * 256 + c * 16 + d)
  | _, _, _, _ => None
  end.

(** The [BACKSLASH] table. *)
Definition backslash (esc : N) : option N :=
  if esc =? 34 then Some 34
  else if esc =? 92 then Some 92
  else if esc =? 47 then Some 47
  else if esc =? 98 then Some 8
  else if esc =? 102 then Some 12
  else if esc =? 110 then Some 10
  else if esc =? 114 then Some 13
  else if esc =? 116 then Some 9
  else None.

Definition is_high_surrogate (c : N) : bool := (0xd800 <=? c) && (c <=? 0xdbff).
Definition is_low_surrogate (c : N) : bool := (0xdc00 <=? c) && (c <=? 0xdfff).

Definition join_surrogates (hi lo : N) : N :=
  0x10000 + N.lor (N.shiftl (hi - 0xd800) 10) (lo - 0xdc00).

Definition cons_char (c : N) (r : option (pystr * pystr)) :
    option (pystr * pystr) :=
  match r with
  | Some (v, rest) => Some (c :: v, rest)
  | None => None
  end.

(** [scanstring(s, end, strict=True)], [s] being the text after the opening
    quote: the decoded string and the text after the closing quote.  A
    [\u] escape of a high surrogate directly followed by a [\u] escape of
    a low surrogate is one code point; any other surrogate escape is kept
    as it is. *)
Fixpoint scanstring (s : pystr) : option (pystr * pystr) :=
  match s with
  | [] => None
  | c :: s1 =>
    if c =? 34 then Some ([], s1)
    else if c <? 32 then None
    else if c =? 92 then
      match s1 with
      | [] => None
      | esc :: s2 =>
        if esc =? 117 then
          match s2 with
          | h1 :: h2 :: h3 :: h4 :: s3 =>
            match decode_uXXXX h1 h2 h3 h4 with
            | None => None
            | Some uni =>
              if is_high_surrogate uni then
                match s3 with
                | b :: u :: s4 =>
                  if (b =? 92) && (u =? 117) then
                    match s4 with
                    | g1 :: g2 :: g3 :: g4 :: s5 =>
                      match decode_uXXXX g1 g2 g3 g4 with
                      | None => None
                      | Some uni2 =>
                        if is_low_surrogate uni2
                        then cons_char (join_surrogates uni uni2) (scanstring s5)
                        else cons_char uni (scanstring s3)
                      end
                    | _ => None
                    end
                  else cons_char uni (scanstring s3)
                | _ => cons_char uni (scanstring s3)
                end
              else cons_char uni (scanstring s3)
            end
          | _ => None
          end
        else
          match backslash esc with
          | Some ch => cons_char ch (scanstring s2)
          | None => None
          end
      end
    else cons_char c (scanstring s1)
  end.

(** The longest prefix of decimal digits, and the text after it. *)
Fixpoint span_digits (s : pystr) : pystr * pystr :=
  match s with
  | c :: s' =>
    if is_digit c then let (ds, r) := span_digits s' in (c :: ds, r)
    else ([], s)
  | [] => ([], [])
  end.

(** [int(digits)] *)
Definition digits_value (ds : pystr) : N :=
  fold_left (fun acc c => 10 * acc + (c - 48)) ds 0.

(** [s] with the prefix [p] removed, when [s] starts with [p]. *)
Fixpoint strip_prefix (p s : pystr) : option pystr :=
  match p, s with
  | [], _ => Some s
  | a :: p', b :: s' => if a =? b then strip_prefix p' s' else None
  | _ :: _, [] => None
  end.

(** The three groups of [NUMBER_RE] matched at the start of [s]: the integer
    part (an optional minus sign, then a single zero or a digit from one to
    nine followed by any digits), the fraction (a dot and at least one
    digit) and the exponent (e or E, an optional sign and at least one
    digit).  A fraction or an exponent that lacks its digits is not part of
    the match. *)
Definition match_digits (s : pystr) : option (pystr * pystr) :=
  match s with
  | c :: r =>
    if c =? 48 then Some ([48], r)
    else if is_digit c then
      let (ds, r') := span_digits r in Some (c :: ds, r')
    else None
  | [] => None
  end.

Definition match_integer (s : pystr) : option (bool * pystr * pystr) :=
  let (neg, s1) :=
    match s with
    | c :: r => if c =? 45 then (true, r) else (false, s)
    | [] => (false, s)
    end in
  match match_digits s1 with
  | Some (ds, r) => Some (neg, ds, r)
  | None => None
  end.

Definition match_frac (s : pystr) : pystr * pystr :=
  match s with
  | c :: r =>
    if c =? 46 then
      match span_digits r with
      | ([], _) => ([], s)
      | (ds, r') => (c :: ds, r')
      end
    else ([], s)
  | [] => ([], s)
  end.

Definition match_exp (s : pystr) : pystr * pystr :=
  match s with
  | c :: r =>
    if (c =? 101) || (c =? 69) then
      let (sign, r1) :=
        match r with
        | g :: r0 => if (g =? 45) || (g =? 43) then ([g], r0) else ([], r)
        | [] => ([], r)
        end in
      match span_digits r1 with
      | ([], _) => ([], s)
      | (ds, r') => (c :: sign ++ ds, r')
      end
    else ([], s)
  | [] => ([], s)
  end.

(** A number: an [int] when the literal has neither fraction nor exponent,
    a [float] otherwise. *)
Definition match_number (s : pystr) : option (json * pystr) :=
  match match_integer s with
  | None => None
  | Some (neg, ds, r) =>
    let (frac, r1) := match_frac r in
    let (exp, r2) := match_exp r1 in
    match frac, exp with
    | [], [] =>
      let n := Z.of_N (digits_value ds) in
      Some (JInt (if neg then (- n)%Z else n), r2)
    | _, _ => Some (JFloat ((if neg then [45] else []) ++ ds ++ frac ++ exp), r2)
    end
  end.

(** The constants and numbers [scan_once] tries after strings, objects and
    arrays, in its order. *)
Definition scan_atom (s : pystr) : scan json :=
  match strip_prefix (str "null") s with
  | Some r => Scanned JNull r
  | None =>
  match strip_prefix (str "true") s with
  | Some r => Scanned (JBool true) r
  | None =>
  match strip_prefix (str "false") s with
  | Some r => Scanned (JBool false) r
  | None =>
  match match_number s with
  | Some (v, r) => Scanned v r
  | None =>
  match strip_prefix (str "NaN") s with
  | Some r => Scanned (JFloat (str "NaN")) r
  | None =>
  match strip_prefix (str "Infinity") s with
  | Some r => Scanned (JFloat (str "Infinity")) r
  | None =>
  match strip_prefix (str "-Infinity") s with
  | Some r => Scanned (JFloat (str "-Infinity")) r
  | None => Invalid
  end end end end end end end.

(** [scan_once], [JSONArray] and [JSONObject].  Each call spends one unit of
    [fuel]; [array_items] scans from the first element of a non-empty array
    to its closing bracket, [object_items] from the character after the
    opening quote of a key to the closing brace. *)
Fixpoint scan_once (fuel : nat) (s : pystr) : scan json :=
  match fuel with
  | O => Starved
  | S fuel =>
    match s with
    | [] => Invalid
    | c :: s1 =>
      if c =? 34 then
        match scanstring s1 with
        | Some (v, r) => Scanned (JStr v) r
        | None => Invalid
        end
      else if c =? 123 then
        match skip_ws s1 with
        | q :: r =>
          if q =? 125 then Scanned (JDict []) r
          else if q =? 34 then
            match object_items fuel r with
            | Scanned pairs r' => Scanned (JDict (dict_of_pairs pairs)) r'
            | Invalid => Invalid
            | Starved => Starved
            end
          else Invalid
        | [] => Invalid
        end
      else if c =? 91 then
        match skip_ws s1 with
        | q :: r =>
          if q =? 93 then Scanned (JList []) r
          else
            match array_items fuel (q :: r) with
            | Scanned values r' => Scanned (JList values) r'
            | Invalid => Invalid
            | Starved => Starved
            end
        | [] => Invalid
        end
      else scan_atom s
    end
  end
with array_items (fuel : nat) (s : pystr) : scan (list json) :=
  match fuel with
  | O => Starved
  | S fuel =>
    match scan_once fuel s with
    | Scanned value r =>
      match skip_ws r with
      | c :: r1 =>
        if c =? 93 then Scanned [value] r1
        else if c =? 44 then
          match array_items fuel (skip_ws r1) with
          | Scanned values r2 => Scanned (value :: values) r2
          | Invalid => Invalid
          | Starved => Starved
          end
        else Invalid
      | [] => Invalid
      end
    | Invalid => Invalid
    | Starved => Starved
    end
  end
with object_items (fuel : nat) (s : pystr) : scan (list (pystr * json)) :=
  match fuel with
  | O => Starved
  | S fuel =>
    match scanstring s with
    | None => Invalid
    | Some (key, r) =>
      match skip_ws r with
      | c :: r1 =>
        if c =? 58 then
          match scan_once fuel (skip_ws r1) with
          | Scanned value r2 =>
            match skip_ws r2 with
            | c2 :: r3 =>
              if c2 =? 125 then Scanned [(key, value)] r3
              else if c2 =? 44 then
                match skip_ws r3 with
                | q :: r4 =>
                  if q =? 34 then
                    match object_items fuel r4 with
                    | Scanned pairs r5 => Scanned ((key, value) :: pairs) r5
                    | Invalid => Invalid
                    | Starved => Starved
                    end
                  else Invalid
                | [] => Invalid
                end
              else Invalid
            | [] => Invalid
            end
          | Invalid => Invalid
          | Starved => Starved
          end
        else Invalid
      | [] => Invalid
      end
    end
  end.

(** [json.loads(s)]: leading white space, one value, trailing white space,
    then the end of the text; [None] is [JSONDecodeError].  Every call of the
    scanner consumes a character before it recurses twice, so twice the
    length of the text is fuel enough ([json_loads_total]). *)
Definition json_decode (fuel : nat) (s : pystr) : scan json :=
  match scan_once fuel (skip_ws s) with
  | Scanned v r =>
    match skip_ws r with
    | [] => Scanned v []
    | _ :: _ => Invalid
    end
  | Invalid => Invalid
  | Starved => Starved
  end.

Definition json_loads (s : pystr) : option json :=
  match json_decode (S (2 * length s)) s with
  | Scanned v _ => Some v
  | _ => None
  end.

(** ** The experiment *)

(** The dictionary [get_experiment_details] builds.  Its ten keys are always
    present, so [experiment["title"]] and [experiment.get("chemicals", [])]
    alike are field accesses. *)
Record experiment := {
  title : pystr;
  experiment_id : pystr;
  date : pystr;
  experimenter : pystr;
  project : pystr;
  chemicals : list pystr;
  equipment : list pystr;
  procedure : list pystr;
  observations : pystr;
  results : pystr
}.

(** The same dictionary as [json.dump] sees it, keys in the order of the
    dictionary display. *)
Definition experiment_to_json (e : experiment) : json :=
  JDict [
    (str "title", JStr (title e));
    (str "experiment_id", JStr (experiment_id e));
    (str "date", JStr (date e));
    (str "experimenter", JStr (experimenter e));
    (str "project", JStr (project e));
    (str "chemicals", JList (map JStr (chemicals e)));
    (str "equipment", JList (map JStr (equipment e)));
    (str "procedure", JList (map JStr (procedure e)));
    (str "observations", JStr (observations e));
    (str "results", JStr (results e))
  ].

(** ** Documents *)

(** The calls made on the [FPDF] object, in order; [pdf.output] writes the
    file they describe. *)
Inductive pdf_call :=
| add_page
| set_font (family : pystr) (size : N)
| set_fill_color (r g b : N)
| cell (w h : N) (txt : pystr) (border : N) (ln : bool) (fill : bool)
| multi_cell (w h : N) (txt : pystr) (border : N)
| ln (h : N).

(** The body of the [docx.Document], in order; a table has two columns. *)
Inductive docx_block :=
| docx_heading (text : pystr) (level : N)
| docx_table (style : pystr) (rows : list (pystr * pystr))
| docx_paragraph (text : pystr) (style : option pystr).

(** ** The world *)

(** What a path of the working directory holds. *)
Inductive node :=
| TextFile (content : pystr)   (** bytes the locale's codec decodes to [content] *)
| BinaryFile                   (** bytes the locale's codec rejects *)
| PdfFile (calls : list pdf_call)
| DocxFile (body : list docx_block)
| Directory.

Inductive exn :=
| EOFError
| FileNotFoundError
| IsADirectoryError
| PermissionError
| UnicodeDecodeError
| JSONDecodeError
| LibraryError.   (** whatever [fpdf] or [docx] raises *)

#[export] Instance exn_eq_dec : EqDecision exn.
Proof. solve_decision. Defined.

(** Observable actions, in the order they happen. *)
Inductive event :=
| ev_input (prompt : pystr) (response : option pystr)
| ev_print (text : pystr)
| ev_exists (path : pystr) (found : bool)
| ev_read (path : pystr)
| ev_write (path : pystr) (content : node).

(** The part of the world a run does not change: what the clock shows at
    its first, second, ... reading, the paths that may not be written,
    [float.__repr__], and which documents the two libraries manage to
    serialise. *)
Record platform := {
  clock : nat -> datetime;
  denied : gset pystr;
  float_repr : pystr -> pystr;
  fpdf_accepts : list pdf_call -> bool;
  docx_accepts : list docx_block -> bool
}.

Record world := {
  env : platform;
  stdin : list pystr;   (** the lines still to be read, without their newline *)
  fs : gmap pystr node;
  ticks : nat;          (** how many times the clock was read *)
  trace : list event
}.

Definition log_event (ev : event) (w : world) : world :=
  {| env := env w; stdin := stdin w; fs := fs w; ticks := ticks w;
     trace := trace w ++ [ev] |}.

Definition set_stdin (lines : list pystr) (w : world) : world :=
  {| env := env w; stdin := lines; fs := fs w; ticks := ticks w;
     trace := trace w |}.

Definition set_fs (m : gmap pystr node) (w : world) : world :=
  {| env := env w; stdin := stdin w; fs := m; ticks := ticks w;
     trace := trace w |}.

Definition tick (w : world) : world :=
  {| env := env w; stdin := stdin w; fs := fs w; ticks := S (ticks w);
     trace := trace w |}.

(** ** Programs: state, exceptions and fuel *)

Inductive result (A : Type) :=
| Return (a : A)
| Raise (e : exn)
| OutOfFuel.
Arguments Return {A} a.
Arguments Raise {A} e.
Arguments OutOfFuel {A}.

Definition M (A : Type) : Type := world -> result A * world.

Definition raise {A} (e : exn) : M A := fun w => (Raise e, w).

#[export] Instance M_ret : MRet M := fun A a w => (Return a, w).

#[export] Instance M_bind : MBind M := fun A B k m w =>
  match m w with
  | (Return a, w') => k a w'
  | (Raise e, w') => (Raise e, w')
  | (OutOfFuel, w') => (OutOfFuel, w')
  end.

(** [try: m  except e: handler] *)
Definition try_except {A} (m : M A) (e : exn) (handler : M A) : M A :=
  fun w =>
    match m w with
    | (Raise e', w') => if bool_decide (e' = e) then handler w' else (Raise e', w')
    | other => other
    end.

(** *** Primitives *)

(** [input(prompt)]: writes the prompt, reads a line; [EOFError] at the end
    of the input. *)
Definition input (prompt : pystr) : M pystr :=
  fun w =>
    match stdin w with
    | [] => (Raise EOFError, log_event (ev_input prompt None) w)
    | line :: rest =>
      (Return line, log_event (ev_input prompt (Some line)) (set_stdin rest w))
    end.

(** [print(text)] *)
Definition print (text : pystr) : M unit :=
  fun w => (Return tt, log_event (ev_print text) w).

(** [datetime.datetime.now()]: every call is a new reading of the clock. *)
Definition datetime_now : M datetime :=
  fun w => (Return (clock (env w) (ticks w)), tick w).

(** [os.path.exists(path)] *)
Definition os_path_exists (path : pystr) : M bool :=
  fun w =>
    let found := bool_decide (is_Some (fs w !! path)) in
    (Return found, log_event (ev_exists path found) w).

(** [open(path, "r")] followed by [read()]. *)
Definition read_text (path : pystr) : M pystr :=
  fun w =>
    match fs w !! path with
    | None => (Raise FileNotFoundError, w)
    | Some Directory => (Raise IsADirectoryError, w)
    | Some (TextFile content) => (Return content, log_event (ev_read path) w)
    | Some _ => (Raise UnicodeDecodeError, log_event (ev_read path) w)
    end.

(** Creating or replacing the file at [path]. *)
Definition write_node (path : pystr) (content : node) : M unit :=
  fun w =>
    if bool_decide (path ∈ denied (env w)) then (Raise PermissionError, w)
    else
      match fs w !! path with
      | Some Directory => (Raise IsADirectoryError, w)
      | _ =>
        (Return tt,
         log_event (ev_write path content) (set_fs (<[path := content]> (fs w)) w))
      end.

(** [json.load(file)] on [open(path, "r")] *)
Definition json_load (path : pystr) : M json :=
  text ← read_text path;
  match json_loads text with
  | Some data => mret data
  | None => raise JSONDecodeError
  end.

(** [json.dump(obj, file, indent=4)] on [open(path, "w")] *)
Definition json_dump (obj : json) (path : pystr) : M unit :=
  fun w => write_node path (TextFile (json_dumps (float_repr (env w)) obj)) w.

(** [pdf.output(name)] *)
Definition pdf_output (calls : list pdf_call) (name : pystr) : M unit :=
  fun w =>
    if fpdf_accepts (env w) calls then write_node name (PdfFile calls) w
    else (Raise LibraryError, w).

(** [doc.save(name)] *)
Definition doc_save (body : list docx_block) (name : pystr) : M unit :=
  fun w =>
    if docx_accepts (env w) body then write_node name (DocxFile body) w
    else (Raise LibraryError, w).

(** ** The script *)

(** [template.format(item=item)] for a template whose replacement fields
    are all [{item}]: each is replaced by [item], every other character is
    copied.  [skip] counts the characters of a field still to be passed
    over. *)
Fixpoint format_item (skip : nat) (template item : pystr) : pystr :=
  match template with
  | [] => []
  | c :: t =>
    match skip with
    | S k => format_item k t item
    | O =>
      match strip_prefix (str "{item}") template with
      | Some _ => item ++ format_item 5 t item
      | None => c :: format_item 0 t item
      end
    end
  end.

(** [get_input_list]: the [while True] loop, one unit of fuel an iteration.

    [[
    items = []
    while True:
        item = input(prompt)
        if not item:
            break
        if detail_prompt:
            detail = input(detail_prompt.format(item=item))
            item = f"{item} ({detail})"
        items.append(item)
    return items
    ]] *)
Fixpoint get_input_list_loop (fuel : nat) (prompt : pystr)
    (detail_prompt : option pystr) (items : list pystr) : M (list pystr) :=
  match fuel with
  | O => fun w => (OutOfFuel, w)
  | S fuel =>
    item ← input prompt;
    if negb (nonempty item) then mret items
    else
      item ←
        match detail_prompt with
        | Some (c :: template) =>
          detail ← input (format_item 0 (c :: template) item);
          mret (item ++ str " (" ++ detail ++ str ")")
        | _ => mret item
        end;
      get_input_list_loop fuel prompt detail_prompt (items ++ [item])
  end.

(** Every iteration but the last reads a line, so one more unit of fuel
    than there are lines is enough ([get_input_list_terminates]). *)
Definition get_input_list (prompt : pystr) (detail_prompt : option pystr) :
    M (list pystr) :=
  fun w =>
    get_input_list_loop (S (length (stdin w))) prompt detail_prompt [] w.

Definition get_experiment_details : M (experiment * pystr) :=
  now ← datetime_now;
  let timestamp := strftime_YmdHMS now in
  title ← input (str "Experiment Title: ");
  experimenter ← input (str "Experimenter Name: ");
  project ← input (str "Project Name: ");
  chemicals ← get_input_list (str "Enter chemical (or press Enter to finish): ")
                             (Some (str "Amount of {item} used: "));
  equipment ← get_input_list (str "Enter equipment (or press Enter to finish): ")
                             None;
  procedure ← get_input_list
                (str "Enter procedure step (or press Enter to finish): ") None;
  observations ← input (str "Observations: ");
  results ← input (str "Results: ");
  mret ({| title := title;
           experiment_id := str "EXP-" ++ timestamp;
           date := datetime_str now;
           experimenter := experimenter;
           project := project;
           chemicals := chemicals;
           equipment := equipment;
           procedure := procedure;
           observations := observations;
           results := results |}, timestamp).

(** The default of the [filepath] parameters. *)
Definition experiment_log : pystr := str "experiment_log.json".

Definition load_experiments (filepath : pystr) : M (list json) :=
  found ← os_path_exists filepath;
  if (found : bool) then
    try_except
      (data ← json_load filepath;
       match data with
       | JList experiments => mret experiments
       | _ => mret []
       end)
      JSONDecodeError
      (mret [])
  else mret [].

Definition save_experiments (experiments : list json) (filepath : pystr) :
    M unit :=
  json_dump (JList experiments) filepath.

(** [enumerate(items, start)] *)
Fixpoint enumerate {A} (items : list A) (start : nat) : list (nat * A) :=
  match items with
  | [] => []
  | item :: items' => (start, item) :: enumerate items' (S start)
  end.

(** The rows of the basic information table, shared by both reports. *)
Definition fields (e : experiment) : list (pystr * pystr) :=
  [ (str "Title", title e);
    (str "Experiment ID", experiment_id e);
    (str "Date", date e);
    (str "Experimenter", experimenter e);
    (str "Project", project e) ].

(** [f"{i}. {item}" if numbered else f"- {item}"] *)
Definition row_text (numbered : bool) (i : nat) (item : pystr) : pystr :=
  if numbered then str_of_nat i ++ str ". " ++ item else str "- " ++ item.

Module Pdf.

Definition col_width_field : N := 50.
Definition col_width_value : N := 130.
Definition row_height : N := 10.

Definition add_list_table (title : pystr) (items : list pystr)
    (numbered : bool) : list pdf_call :=
  if nonempty items then
    [ set_fill_color 200 200 200;
      cell 0 row_height title 1 true true;
      set_fill_color 255 255 255 ] ++
    map (fun p => cell 0 row_height (row_text numbered (fst p) (snd p))
                       1 true false)
        (enumerate items 1) ++
    [ ln 5 ]
  else [].

Definition add_text_section (title text : pystr) : list pdf_call :=
  if nonempty text then
    [ set_fill_color 200 200 200;
      cell 0 row_height title 1 true true;
      set_fill_color 255 255 255;
      multi_cell 0 row_height text 1;
      ln 5 ]
  else [].

(** The calls [generate_pdf_report] makes before [pdf.output]. *)
Definition calls (e : experiment) : list pdf_call :=
  [ add_page;
    set_font (str "Arial") 12;
    set_fill_color 200 200 200;
    cell col_width_field row_height (str "Field") 1 false true;
    cell col_width_value row_height (str "Value") 1 true true;
    set_fill_color 255 255 255 ] ++
  flat_map (fun fv => [ cell col_width_field row_height (fst fv) 1 false false;
                        cell col_width_value row_height (snd fv) 1 true false ])
           (fields e) ++
  [ ln 10 ] ++
  add_list_table (str "Chemicals Used") (chemicals e) false ++
  add_list_table (str "Equipment Used") (equipment e) false ++
  add_list_table (str "Procedure") (procedure e) true ++
  add_text_section (str "Observations") (observations e) ++
  add_text_section (str "Results") (results e).

End Pdf.

Definition generate_pdf_report (e : experiment) (timestamp : pystr) : M unit :=
  let pdf_filename := str "experiment_report_" ++ timestamp ++ str ".pdf" in
  pdf_output (Pdf.calls e) pdf_filename;;
  print (str "PDF report generated: " ++ pdf_filename).

Module Word.

Definition add_list_section (title : pystr) (items : list pystr)
    (numbered : bool) : list docx_block :=
  if nonempty items then
    docx_heading title 2 ::
    map (fun p =>
           if numbered
           then docx_paragraph (row_text true (fst p) (snd p))
                               (Some (str "List Number"))
           else docx_paragraph (row_text false (fst p) (snd p))
                               (Some (str "List Bullet")))
        (enumerate items 1)
  else [].

Definition add_text_section (title text : pystr) : list docx_block :=
  if nonempty text then [ docx_heading title 2; docx_paragraph text None ]
  else [].

(** The document [generate_word_report] builds before [doc.save]. *)
Definition body (e : experiment) : list docx_block :=
  [ docx_heading (str "Experiment Report") 1;
    docx_table (str "LightShading-Accent1")
               ((str "Field", str "Value") :: fields e);
    docx_paragraph [] None ] ++
  add_list_section (str "Chemicals Used") (chemicals e) false ++
  add_list_section (str "Equipment Used") (equipment e) false ++
  add_list_section (str "Procedure") (procedure e) true ++
  add_text_section (str "Observations") (observations e) ++
  add_text_section (str "Results") (results e).

End Word.

Definition generate_word_report (e : experiment) (timestamp : pystr) : M unit :=
  let doc_filename := str "experiment_report_" ++ timestamp ++ str ".docx" in
  doc_save (Word.body e) doc_filename;;
  print (str "Word report generated: " ++ doc_filename).

Definition log_experiment : M unit :=
  '(experiment, timestamp) ← get_experiment_details;
  experiments ← load_experiments experiment_log;
  let experiments := experiments ++ [experiment_to_json experiment] in
  save_experiments experiments experiment_log;;
  print (10 :: str "Experiment logged successfully! Generating reports...");;
  generate_pdf_report experiment timestamp;;
  generate_word_report experiment timestamp.

Definition main : M unit := log_experiment.

(** ** What a report shows *)

(** The text-bearing parts of a report, in reading order, without their
    styling. *)
Inductive block :=
| title_heading (text : pystr)          (** the document's top-level heading *)
| table_header (field value : pystr)    (** the shaded first row of the table *)
| table_row (field value : pystr)
| section_header (text : pystr)
| list_row (text : pystr)
| text_block (text : pystr).

#[export] Instance block_eq_dec : EqDecision block.
Proof. solve_decision. Defined.

(** Reading the PDF page: a cell that does not end the line and the cell
    after it are the two columns of a table row; a cell that ends the line
    on its own is a full-width row; shaded rows are headers; [multi_cell] is
    a block of free text.  Colours, fonts and vertical space show no
    text. *)
Fixpoint pdf_blocks (calls : list pdf_call) : list block :=
  match calls with
  | [] => []
  | cell _ _ a _ false fill :: rest =>
    match rest with
    | cell _ _ b _ true _ :: rest' =>
      (if fill then table_header a b else table_row a b) :: pdf_blocks rest'
    | _ => pdf_blocks rest
    end
  | cell _ _ txt _ true fill :: rest =>
    (if fill then section_header txt else list_row txt) :: pdf_blocks rest
  | multi_cell _ _ txt _ :: rest => text_block txt :: pdf_blocks rest
  | _ :: rest => pdf_blocks rest
  end.

(** Reading the Word document: the level-1 heading is the document's
    title, deeper headings open sections; the first row of a table is its
    header; a paragraph with a list style is a list row, another one a block
    of free text, unless it is empty (a spacer).  The text of a row is the
    text of its paragraph; the number or bullet that the list style itself
    draws in front of it is styling. *)
Definition docx_block_blocks (b : docx_block) : list block :=
  match b with
  | docx_heading text level =>
    if level <=? 1 then [title_heading text] else [section_header text]
  | docx_table _ [] => []
  | docx_table _ ((f, v) :: rows) =>
    table_header f v :: map (fun r => table_row (fst r) (snd r)) rows
  | docx_paragraph text style =>
    match style, text with
    | Some _, _ => [list_row text]
    | None, [] => []
    | None, _ :: _ => [text_block text]
    end
  end.

Definition docx_blocks (body : list docx_block) : list block :=
  flat_map docx_block_blocks body.


(** The list rows that directly follow the header [title], when the report
    has that section. *)
Fixpoint leading_rows (blocks : list block) : list pystr :=
  match blocks with
  | list_row text :: rest => text :: leading_rows rest
  | _ => []
  end.

Fixpoint section_rows (title : pystr) (blocks : list block) :
    option (list pystr) :=
  match blocks with
  | [] => None
  | b :: rest =>
    if bool_decide (b = section_header title) then Some (leading_rows rest)
    else section_rows title rest
  end.

(** *** The common structure, from section 4.4 of the specification *)

(** A list section: omitted when the sequence is empty, otherwise a header
    and one row per item. *)
Definition spec_list_section (title : pystr) (rows : list pystr) : list block :=
  match rows with
  | [] => []
  | _ :: _ => section_header title :: map list_row rows
  end.

(** A text section: omitted when the text is empty, otherwise a header and
    the text as one block. *)
Definition spec_text_section (title text : pystr) : list block :=
  match text with
  | [] => []
  | _ :: _ => [section_header title; text_block text]
  end.

(** Bullet rows: the prefix [- ]. *)
Definition spec_bulleted (items : list pystr) : list pystr :=
  map (fun item => str "- " ++ item) items.

(** Numbered rows: the prefix [<n>. ], counting from [start]. *)
Fixpoint spec_numbered (start : nat) (items : list pystr) : list pystr :=
  match items with
  | [] => []
  | item :: items' =>
    (str_of_nat start ++ str ". " ++ item) :: spec_numbered (S start) items'
  end.

(** The six parts of the common structure, in their fixed order. *)
Definition spec_structure (e : experiment) : list block :=
  [ table_header (str "Field") (str "Value");
    table_row (str "Title") (title e);
    table_row (str "Experiment ID") (experiment_id e);
    table_row (str "Date") (date e);
    table_row (str "Experimenter") (experimenter e);
    table_row (str "Project") (project e) ] ++
  spec_list_section (str "Chemicals Used") (spec_bulleted (chemicals e)) ++
  spec_list_section (str "Equipment Used") (spec_bulleted (equipment e)) ++
  spec_list_section (str "Procedure") (spec_numbered 1 (procedure e)) ++
  spec_text_section (str "Observations") (observations e) ++
  spec_text_section (str "Results") (results e).

(** ** Text that survives the JSON round trip *)

(** No high surrogate directly followed by a low surrogate. *)
Fixpoint no_surrogate_pair (s : pystr) : bool :=
  match s with
  | a :: t =>
    match t with
    | b :: _ => negb (is_high_surrogate a && is_low_surrogate b)
    | [] => true
    end && no_surrogate_pair t
  | [] => true
  end.

(** A string of code points none of whose high surrogates is directly
    followed by a low surrogate; every string of Unicode scalar values is
    one. *)
Definition text_ok (s : pystr) : Prop :=
  Forall (fun c => c < 0x110000) s /\ no_surrogate_pair s = true.

Definition experiment_ok (e : experiment) : Prop :=
  text_ok (title e) /\ text_ok (experiment_id e) /\ text_ok (date e) /\
  text_ok (experimenter e) /\ text_ok (project e) /\
  Forall text_ok (chemicals e) /\ Forall text_ok (equipment e) /\
  Forall text_ok (procedure e) /\
  text_ok (observations e) /\ text_ok (results e).

(** Values without numbers whose strings are [text_ok] and whose
    dictionaries have each key once. *)
Fixpoint plain (v : json) : Prop :=
  match v with
  | JNull | JBool _ => True
  | JInt _ | JFloat _ => False
  | JStr s => text_ok s
  | JList l =>
    (fix all (l : list json) : Prop :=
       match l with
       | [] => True
       | x :: l' => plain x /\ all l'
       end) l
  | JDict d =>
    NoDup (map fst d) /\
    (fix all (d : list (pystr * json)) : Prop :=
       match d with
       | [] => True
       | kv :: d' => text_ok (fst kv) /\ plain (snd kv) /\ all d'
       end) d
  end.

(** Fuel that scanning the encoding of a value takes. *)
Fixpoint size (v : json) : nat :=
  match v with
  | JList l => S (list_sum (map (fun x => S (size x)) l))
  | JDict d => S (list_sum (map (fun kv => S (size (snd kv))) d))
  | _ => 1
  end.

(** ** Vocabulary of the statements *)

(** *** The decoder *)

(** The text after the escape of a lone high surrogate does not start
    with the escape of a low surrogate. *)
Definition lone_high_ok (t : pystr) : Prop :=
  forall s4, t = 92 :: 117 :: s4 ->
  exists g1 g2 g3 g4 s5 u,
    s4 = g1 :: g2 :: g3 :: g4 :: s5 /\
    decode_uXXXX g1 g2 g3 g4 = Some u /\ is_low_surrogate u = false.

(** A text that starts with a character of a value or of a key. *)
Definition starts_token (t : pystr) : Prop :=
  exists c t', t = c :: t' /\ is_ws c = false /\ c <> 93 /\ c <> 125.

(** The scanner, given fuel for the value, reads [v] back from its
    encoding at any depth and in front of any text. *)
Definition reads_back (fr : pystr -> pystr) (v : json) : Prop :=
  forall level rest fuel,
    (size v <= fuel)%nat ->
    scan_once fuel (iterencode fr level v ++ rest) = Scanned v rest.

(** The text of one [key: value] member. *)
Definition pair_text (fr : pystr -> pystr) (level : nat) (kv : pystr * json) :
    pystr :=
  encode_basestring_ascii (fst kv) ++ str ": " ++ iterencode fr level (snd kv).

(** *** The input loop *)

(** The list element the loop stores for an item and its amount. *)
Definition with_amount (p : pystr * pystr) : pystr :=
  fst p ++ str " (" ++ snd p ++ str ")".

(** The two prompts answered for an item and its amount. *)
Definition pair_events (prompt template : pystr) (p : pystr * pystr) :
    list event :=
  [ ev_input prompt (Some (fst p));
    ev_input (format_item 0 template (fst p)) (Some (snd p)) ].

(** The same for a chemical: the amount is asked for with the name put in
    the place of [{item}]. *)
Definition amount_events (prompt : pystr) (p : pystr * pystr) : list event :=
  [ ev_input prompt (Some (fst p));
    ev_input (str "Amount of " ++ fst p ++ str " used: ") (Some (snd p)) ].

(** The lines typed for an item and its amount. *)
Definition pair_lines (p : pystr * pystr) : list pystr := [fst p; snd p].

Definition is_input (ev : event) : Prop :=
  match ev with ev_input _ _ => True | _ => False end.

(** [w'] is [w] after some prompts were answered: same platform, same files,
    a suffix of the input left, and only input events added. *)
Definition prompted (w w' : world) : Prop :=
  env w' = env w /\ fs w' = fs w /\
  (length (stdin w') <= length (stdin w))%nat /\
  exists evs, trace w' = trace w ++ evs /\ Forall is_input evs.

(** A program that only prompts. *)
Definition prompts {A} (m : M A) : Prop := forall w, prompted w (snd (m w)).

(** A program that does not read the clock. *)
Definition keeps_clock {A} (m : M A) : Prop :=
  forall w, ticks (snd (m w)) = ticks w.

(** *** Sections of a report *)

(** The sections whose field is not empty, in the fixed order. *)
Definition present_sections (e : experiment) : list pystr :=
  (if nonempty (chemicals e) then [str "Chemicals Used"] else []) ++
  (if nonempty (equipment e) then [str "Equipment Used"] else []) ++
  (if nonempty (procedure e) then [str "Procedure"] else []) ++
  (if nonempty (observations e) then [str "Observations"] else []) ++
  (if nonempty (results e) then [str "Results"] else []).


(** The bulleted rows of a section, in both reports. *)
Definition bulleted_in_both (title : pystr) (items : list pystr)
    (e : experiment) : Prop :=
  exists rows,
    section_rows title (pdf_blocks (Pdf.calls e)) = Some rows /\
    section_rows title (docx_blocks (Word.body e)) = Some rows /\
    length rows = length items /\
    forall i item, items !! i = Some item -> rows !! i = Some (str "- " ++ item).

(** *** The log store *)

(** [path] may be created or replaced. *)
Definition writable (w : world) (path : pystr) : Prop :=
  (path ∉ denied (env w)) /\ fs w !! path <> Some Directory.

(** [save(R, p); save(load(p), p2); load(p2)] *)
Definition round_trip (R : list experiment) (p p2 : pystr) : M (list json) :=
  save_experiments (map experiment_to_json R) p;;
  (loaded ← load_experiments p;
   (save_experiments loaded p2;;
    load_experiments p2)).

(** *** Runs of the orchestrator *)

(** A step that did not return stops the run with the same failure. *)
Definition fails_as {A B} (x : result A) (r : result B) : Prop :=
  match x with
  | Return _ => False
  | Raise e => r = Raise e
  | OutOfFuel => r = OutOfFuel
  end.

Definition pdf_name (timestamp : pystr) : pystr :=
  str "experiment_report_" ++ timestamp ++ str ".pdf".

Definition docx_name (timestamp : pystr) : pystr :=
  str "experiment_report_" ++ timestamp ++ str ".docx".

(** The content of the log after [experiment] was appended to [loaded]. *)
Definition saved_log (w : world) (loaded : list json) (e : experiment) : node :=
  TextFile (json_dumps (float_repr (env w))
                       (JList (loaded ++ [experiment_to_json e]))).

(** The world after the log was saved and the success message printed. *)
Definition after_save (w : world) (loaded : list json) (e : experiment) : world :=
  log_event
    (ev_print (10 :: str "Experiment logged successfully! Generating reports..."))
    (log_event (ev_write experiment_log (saved_log w loaded e))
       (set_fs (<[experiment_log := saved_log w loaded e]> (fs w)) w)).

(** The world after a report was written and announced. *)
Definition after_report (w : world) (name message : pystr) (content : node) :
    world :=
  log_event (ev_print (message ++ name))
    (log_event (ev_write name content)
       (set_fs (<[name := content]> (fs w)) w)).

Definition after_pdf (w : world) (e : experiment) (timestamp : pystr) : world :=
  after_report w (pdf_name timestamp) (str "PDF report generated: ")
               (PdfFile (Pdf.calls e)).

Definition after_word (w : world) (e : experiment) (timestamp : pystr) : world :=
  after_report w (docx_name timestamp) (str "Word report generated: ")
               (DocxFile (Word.body e)).

(** How a run of [log_experiment] from [w] can end: at the first step that
    does not return, in the world that step left, or after the last step. *)
Inductive outcome (w : world) : result unit -> world -> Prop :=
| stopped_collecting x w1 r :
    get_experiment_details w = (x, w1) -> fails_as x r ->
    outcome w r w1
| stopped_loading e timestamp w1 x w2 r :
    get_experiment_details w = (Return (e, timestamp), w1) ->
    load_experiments experiment_log w1 = (x, w2) -> fails_as x r ->
    outcome w r w2
| stopped_saving e timestamp w1 loaded w2 x :
    get_experiment_details w = (Return (e, timestamp), w1) ->
    load_experiments experiment_log w1 = (Return loaded, w2) ->
    ~ writable w2 experiment_log ->
    outcome w (Raise x) w2
| stopped_pdf e timestamp w1 loaded w2 x :
    get_experiment_details w = (Return (e, timestamp), w1) ->
    load_experiments experiment_log w1 = (Return loaded, w2) ->
    writable w2 experiment_log ->
    generate_pdf_report e timestamp (after_save w2 loaded e) =
      (Raise x, after_save w2 loaded e) ->
    outcome w (Raise x) (after_save w2 loaded e)
| stopped_word e timestamp w1 loaded w2 x :
    get_experiment_details w = (Return (e, timestamp), w1) ->
    load_experiments experiment_log w1 = (Return loaded, w2) ->
    writable w2 experiment_log ->
    generate_word_report e timestamp
        (after_pdf (after_save w2 loaded e) e timestamp) =
      (Raise x, after_pdf (after_save w2 loaded e) e timestamp) ->
    outcome w (Raise x) (after_pdf (after_save w2 loaded e) e timestamp)
| finished e timestamp w1 loaded w2 :
    get_experiment_details w = (Return (e, timestamp), w1) ->
    load_experiments experiment_log w1 = (Return loaded, w2) ->
    writable w2 experiment_log ->
    outcome w (Return tt)
      (after_word (after_pdf (after_save w2 loaded e) e timestamp) e timestamp).

Inductive step := Collect | Load | Save | RenderPdf | RenderWord.

#[export] Instance step_eq_dec : EqDecision step.
Proof. solve_decision. Defined.

(** The step an event belongs to; printing belongs to none. *)
Definition step_of (ev : event) : option step :=
  match ev with
  | ev_input _ _ => Some Collect
  | ev_exists _ _ | ev_read _ => Some Load
  | ev_write _ (TextFile _) => Some Save
  | ev_write _ (PdfFile _) => Some RenderPdf
  | ev_write _ (DocxFile _) => Some RenderWord
  | _ => None
  end.

(** A list with each run of equal neighbours reduced to one element. *)
Fixpoint squash (l : list step) : list step :=
  match l with
  | a :: t =>
    match t with
    | b :: _ => if decide (a = b) then squash t else a :: squash t
    | [] => [a]
    end
  | [] => []
  end.

(** The steps of a trace, in the order they were performed. *)
Definition steps (t : list event) : list step := squash (omap step_of t).


(** The files a trace shows written, in order. *)
Definition writes (t : list event) : list (pystr * node) :=
  omap (fun ev => match ev with
                  | ev_write path content => Some (path, content)
                  | _ => None
                  end) t.


(** *** The timestamp *)

(** A string of exactly [width] decimal digits. *)
Definition digits_of_width (width : nat) (s : pystr) : bool :=
  forallb is_digit s && (length s =? width)%nat.

(** *** A sample platform and sample records *)

Definition demo_platform : platform := {|
  clock := fun reading =>
    {| year := 2024; month := 3; day := 7;
       hour := 9; minute := 5; second := N.of_nat reading mod 60;
       microsecond := 120 |};
  denied := ∅;
  float_repr := fun lit => lit;
  fpdf_accepts := fun _ => true;
  docx_accepts := fun _ => true
|}.

Definition demo_world (lines : list pystr) (files : gmap pystr node) : world :=
  {| env := demo_platform; stdin := lines; fs := files; ticks := 0;
     trace := [] |}.

(** A record with nothing but a title. *)
Definition titled (t : pystr) : experiment := {|
  title := t; experiment_id := []; date := []; experimenter := [];
  project := []; chemicals := []; equipment := []; procedure := [];
  observations := []; results := []
|}.

(** A log that holds one record. *)
Definition demo_log : gmap pystr node :=
  {[ experiment_log :=
       TextFile (json_dumps (fun lit => lit)
                   (JList [experiment_to_json (titled (str "Earlier"))])) ]}.

(** The answers of the end-to-end scenario of the specification. *)
Definition demo_lines : list pystr :=
  map str [ "Synthesis A"; "Jane"; "P1";
            "NaCl"; "5g"; "H2O"; "100ml"; "";
            "Beaker"; "";
            "Mix"; "Heat"; "";
            "clear solution"; "yield 90%" ]%string.

(** The record that scenario collects. *)
Definition demo_experiment : experiment := {|
  title := str "Synthesis A";
  experiment_id := str "EXP-20240307090500";
  date := str "2024-03-07 09:05:00.000120";
  experimenter := str "Jane";
  project := str "P1";
  chemicals := [str "NaCl (5g)"; str "H2O (100ml)"];
  equipment := [str "Beaker"];
  procedure := [str "Mix"; str "Heat"];
  observations := str "clear solution";
  results := str "yield 90%"
|}.

(** ** Vocabulary of the further properties *)

(** *** The console *)

(** The prompts answered for items entered without a detail. *)
Definition item_events (prompt : pystr) (items : list pystr) : list event :=
  map (fun item => ev_input prompt (Some item)) items.

(** The lines a trace shows read from the console, in order. *)
Definition answers (t : list event) : list pystr :=
  omap (fun ev => match ev with
                  | ev_input _ (Some line) => Some line
                  | _ => None
                  end) t.

(** A step from [w] to [w'] with result [r] that only talks to the console:
    it reads lines from the front of the input, each shown in the trace as
    the answer to a prompt, in the order read, and leaves the platform and
    the files alone.  It does not run out of fuel, and if it raises, the
    exception is [EOFError] and the input is used up. *)
Definition console_run {A} (w : world) (r : result A) (w' : world) : Prop :=
  env w' = env w /\ fs w' = fs w /\
  (exists evs,
     trace w' = trace w ++ evs /\ Forall is_input evs /\
     stdin w = answers evs ++ stdin w') /\
  r <> OutOfFuel /\
  forall e, r = Raise e -> e = EOFError /\ stdin w' = [].

(** A program that only talks to the console, from whatever world it is
    run. *)
Definition console_only {A} (m : M A) : Prop :=
  forall w, console_run w (fst (m w)) (snd (m w)).

(** *** A session at the console *)

(** What the user types in one session, field by field. *)
Record session := {
  s_title : pystr;
  s_experimenter : pystr;
  s_project : pystr;
  s_chemicals : list (pystr * pystr);   (** names with their amounts *)
  s_equipment : list pystr;
  s_procedure : list pystr;
  s_observations : pystr;
  s_results : pystr
}.

(** No name, piece of equipment or step is the empty line. *)
Definition session_ok (s : session) : Prop :=
  Forall (fun p => fst p <> []) (s_chemicals s) /\
  Forall (fun item => item <> []) (s_equipment s) /\
  Forall (fun item => item <> []) (s_procedure s).

(** The lines of the session as typed, in front of the lines [rest]. *)
Definition session_lines (s : session) (rest : list pystr) : list pystr :=
  s_title s :: s_experimenter s :: s_project s ::
  flat_map pair_lines (s_chemicals s) ++ [] ::
  s_equipment s ++ [] ::
  s_procedure s ++ [] ::
  s_observations s :: s_results s :: rest.

(** The dictionary the session gives at the clock reading [now]. *)
Definition session_record (now : datetime) (s : session) : experiment := {|
  title := s_title s;
  experiment_id := str "EXP-" ++ strftime_YmdHMS now;
  date := datetime_str now;
  experimenter := s_experimenter s;
  project := s_project s;
  chemicals := map with_amount (s_chemicals s);
  equipment := s_equipment s;
  procedure := s_procedure s;
  observations := s_observations s;
  results := s_results s
|}.

(** The prompts of the session with their answers, in order. *)
Definition session_events (s : session) : list event :=
  [ ev_input (str "Experiment Title: ") (Some (s_title s));
    ev_input (str "Experimenter Name: ") (Some (s_experimenter s));
    ev_input (str "Project Name: ") (Some (s_project s)) ] ++
  flat_map (amount_events (str "Enter chemical (or press Enter to finish): "))
           (s_chemicals s) ++
  [ ev_input (str "Enter chemical (or press Enter to finish): ") (Some []) ] ++
  item_events (str "Enter equipment (or press Enter to finish): ")
              (s_equipment s) ++
  [ ev_input (str "Enter equipment (or press Enter to finish): ") (Some []) ] ++
  item_events (str "Enter procedure step (or press Enter to finish): ")
              (s_procedure s) ++
  [ ev_input (str "Enter procedure step (or press Enter to finish): ") (Some []);
    ev_input (str "Observations: ") (Some (s_observations s));
    ev_input (str "Results: ") (Some (s_results s)) ].

(** The world after the session was collected from [w]. *)
Definition after_session (w : world) (s : session) (rest : list pystr) : world :=
  {| env := env w; stdin := rest; fs := fs w; ticks := S (ticks w);
     trace := trace w ++ session_events s |}.

(** *** Text *)

(** A string of ASCII characters. *)
Definition ascii (s : pystr) : Prop := Forall (fun c => c < 128) s.

(** The decimal digits of a string, in order. *)
Definition digits_of (s : pystr) : pystr :=
  List.filter is_digit s.

(** *** What a run prints *)

(** The texts a trace shows printed, in order. *)
Definition prints (t : list event) : list pystr :=
  omap (fun ev => match ev with ev_print text => Some text | _ => None end) t.

(** The three messages of a run with the timestamp [timestamp]. *)
Definition messages (timestamp : pystr) : list pystr :=
  [ 10 :: str "Experiment logged successfully! Generating reports...";
    str "PDF report generated: " ++ pdf_name timestamp;
    str "Word report generated: " ++ docx_name timestamp ].

(** Two runs, one after the other. *)
Definition two_runs : M unit := log_experiment;; log_experiment.

(** *** Colours and styles of the reports *)

(** The two fill colours of the script, as red, green and blue. *)
Definition gray : N * N * N := (200, 200, 200).
Definition white : N * N * N := (255, 255, 255).

(** The fill colour in force at each cell drawn with [fill=True], when the
    calls are made on a document whose fill colour is [color]. *)
Fixpoint fill_colors (color : N * N * N) (calls : list pdf_call) :
    list (N * N * N) :=
  match calls with
  | [] => []
  | set_fill_color r g b :: rest => fill_colors (r, g, b) rest
  | cell _ _ _ _ _ true :: rest => color :: fill_colors color rest
  | _ :: rest => fill_colors color rest
  end.

(** The fill colour the calls leave in force. *)
Fixpoint final_color (color : N * N * N) (calls : list pdf_call) : N * N * N :=
  match calls with
  | [] => color
  | set_fill_color r g b :: rest => final_color (r, g, b) rest
  | _ :: rest => final_color color rest
  end.

(** The styles of the styled paragraphs of a Word document, in order. *)
Definition list_styles (body : list docx_block) : list pystr :=
  flat_map (fun b => match b with
                     | docx_paragraph _ (Some style) => [style]
                     | _ => []
                     end) body.

(** *** More sample worlds *)

(** The session of the end-to-end scenario. *)
Definition demo_session : session := {|
  s_title := str "Synthesis A";
  s_experimenter := str "Jane";
  s_project := str "P1";
  s_chemicals := [(str "NaCl", str "5g"); (str "H2O", str "100ml")];
  s_equipment := [str "Beaker"];
  s_procedure := [str "Mix"; str "Heat"];
  s_observations := str "clear solution";
  s_results := str "yield 90%"
|}.

(** A platform whose [float.__repr__] is a fixed text. *)
Definition demo_float_platform : platform := {|
  clock := clock demo_platform;
  denied := ∅;
  float_repr := fun _ => str "1.5";
  fpdf_accepts := fun _ => true;
  docx_accepts := fun _ => true
|}.

(** A world for saving with the platform [demo_float_platform]. *)
Definition demo_float_world : world :=
  {| env := demo_float_platform; stdin := []; fs := ∅; ticks := 0; trace := [] |}.

(** A world in which the user gives up after two answers. *)
Definition demo_short_world : world :=
  demo_world (map str ["Synthesis A"; "Jane"]%string) demo_log.

(** Two readings of the clock within one second. *)
Definition demo_reading (us : N) : datetime :=
  {| year := 2024; month := 3; day := 7;
     hour := 9; minute := 5; second := 0; microsecond := us |}.

(** A world whose files are a note and a log that is no JSON. *)
Definition demo_broken_world : world :=
  demo_world demo_lines
    {[ experiment_log := TextFile (str "not json");
       str "notes.txt" := TextFile (str "keep me") ]}.

(** ** Tactics *)

(** Case analysis on the comparisons of code points. *)
Ltac N_cases :=
  repeat match goal with
  | |- context [N.eqb ?a ?b] => destruct (N.eqb_spec a b)
  | |- context [N.leb ?a ?b] => destruct (N.leb_spec a b)
  | |- context [N.ltb ?a ?b] => destruct (N.ltb_spec a b)
  | H : context [N.eqb ?a ?b] |- _ => destruct (N.eqb_spec a b)
  | H : context [N.leb ?a ?b] |- _ => destruct (N.leb_spec a b)
  | H : context [N.ltb ?a ?b] |- _ => destruct (N.ltb_spec a b)
  end; simpl in *; try lia; try congruence.

(** [lia] after the quotients and remainders are made opaque. *)
Ltac lia_div :=
  repeat match goal with
  | |- context [N.div ?a ?b] => generalize dependent (N.div a b); intros
  | |- context [N.modulo ?a ?b] => generalize dependent (N.modulo a b); intros
  | H : context [N.div ?a ?b] |- _ => generalize dependent (N.div a b); intros
  | H : context [N.modulo ?a ?b] |- _ => generalize dependent (N.modulo a b); intros
  end; lia.

(** Closed facts about literals of the script. *)
Ltac literal_ok :=
  split; [repeat constructor | reflexivity].


(** * Proofs *)

(** ** Arithmetic of escapes *)

Lemma unhex_hex_digit n : n < 16 -> unhex (hex_digit n) = Some n.
Proof.
  intros Hn. unfold unhex, hex_digit. N_cases; f_equal; lia.
Qed.

Lemma decode_u_escape n :
  n < 0x10000 ->
  decode_uXXXX (hex_digit (n / 4096 mod 16)) (hex_digit (n / 256 mod 16))
               (hex_digit (n / 16 mod 16)) (hex_digit (n mod 16)) = Some n.
Proof.
  intros Hn. unfold decode_uXXXX.
  rewrite !unhex_hex_digit by (apply N.mod_lt; lia).
  f_equal.
  replace (n / 4096) with (n / 16 / 16 / 16) by (rewrite !N.Div0.div_div; reflexivity).
  replace (n / 256) with (n / 16 / 16) by (rewrite !N.Div0.div_div; reflexivity).
  assert (n / 16 / 16 / 16 / 16 = 0)
    by (rewrite !N.Div0.div_div; apply N.div_small; lia).
  pose proof (N.div_mod n 16 ltac:(lia)).
  pose proof (N.div_mod (n / 16) 16 ltac:(lia)).
  pose proof (N.div_mod (n / 16 / 16) 16 ltac:(lia)).
  pose proof (N.div_mod (n / 16 / 16 / 16) 16 ltac:(lia)).
  lia.
Qed.

Lemma div_1024_lt n : n < 0x100000 -> n / 1024 < 1024.
Proof. intros Hn. apply N.Div0.div_lt_upper_bound. lia. Qed.

Lemma land_shiftl_small a b : b < 1024 -> N.land (N.shiftl a 10) b = 0.
Proof.
  intros Hb. apply N.bits_inj. intros i.
  rewrite N.land_spec, N.bits_0.
  destruct (N.ltb_spec i 10) as [Hi|Hi].
  - rewrite N.shiftl_spec_low by exact Hi. reflexivity.
  - replace (N.testbit b i) with false; [apply andb_false_r|].
    symmetry. rewrite <- (N.mod_small b (2 ^ 10)) by exact Hb.
    apply N.mod_pow2_bits_high. exact Hi.
Qed.

Lemma lor_shiftl_add a b : b < 1024 -> N.lor (N.shiftl a 10) b = a * 1024 + b.
Proof.
  intros Hb.
  rewrite <- N.lxor_lor, <- N.add_nocarry_lxor by (apply land_shiftl_small, Hb).
  rewrite N.shiftl_mul_pow2. reflexivity.
Qed.

Lemma high_escape_value n :
  n < 0x100000 ->
  N.lor 0xd800 (N.land (N.shiftr n 10) 0x3ff) = 0xd800 + n / 1024.
Proof.
  intros Hn. change 0x3ff with (N.ones 10).
  rewrite N.land_ones, N.shiftr_div_pow2.
  change (2 ^ 10) with 1024.
  rewrite N.mod_small by (apply div_1024_lt, Hn).
  change 0xd800 with (N.shiftl 54 10).
  rewrite lor_shiftl_add by (apply div_1024_lt, Hn).
  rewrite N.shiftl_mul_pow2. reflexivity.
Qed.

Lemma low_escape_value n :
  N.lor 0xdc00 (N.land n 0x3ff) = 0xdc00 + n mod 1024.
Proof.
  change 0x3ff with (N.ones 10). rewrite N.land_ones.
  change (2 ^ 10) with 1024.
  change 0xdc00 with (N.shiftl 55 10).
  rewrite lor_shiftl_add by (apply N.mod_lt; lia).
  rewrite N.shiftl_mul_pow2. reflexivity.
Qed.

Lemma join_surrogates_split c :
  0x10000 <= c < 0x110000 ->
  join_surrogates (0xd800 + (c - 0x10000) / 1024)
                  (0xdc00 + (c - 0x10000) mod 1024) = c.
Proof.
  intros Hc. unfold join_surrogates.
  rewrite (N.add_comm 0xd800), (N.add_comm 0xdc00), !N.add_sub.
  rewrite lor_shiftl_add by (apply N.mod_lt; lia).
  pose proof (N.div_mod (c - 0x10000) 1024 ltac:(lia)). lia.
Qed.

(** ** Strings *)

#[local] Arguments decode_uXXXX : simpl never.
#[local] Arguments is_high_surrogate : simpl never.
#[local] Arguments is_low_surrogate : simpl never.
#[local] Arguments backslash : simpl never.
#[local] Arguments join_surrogates : simpl never.
#[local] Arguments newline_indent : simpl never.

Lemma scanstring_literal c s :
  32 <= c -> c <> 34 -> c <> 92 ->
  scanstring (c :: s) = cons_char c (scanstring s).
Proof. intros. simpl. N_cases. Qed.

Lemma scanstring_backslash esc ch s :
  esc <> 117 -> backslash esc = Some ch ->
  scanstring (92 :: esc :: s) = cons_char ch (scanstring s).
Proof. intros Hne Hb. simpl. rewrite Hb. N_cases. Qed.

Lemma scanstring_u h1 h2 h3 h4 uni s :
  decode_uXXXX h1 h2 h3 h4 = Some uni -> is_high_surrogate uni = false ->
  scanstring (92 :: 117 :: h1 :: h2 :: h3 :: h4 :: s) = cons_char uni (scanstring s).
Proof. intros Hd Hh. simpl. rewrite Hd, Hh. reflexivity. Qed.

Lemma scanstring_pair h1 h2 h3 h4 g1 g2 g3 g4 hi lo s :
  decode_uXXXX h1 h2 h3 h4 = Some hi -> is_high_surrogate hi = true ->
  decode_uXXXX g1 g2 g3 g4 = Some lo -> is_low_surrogate lo = true ->
  scanstring (92 :: 117 :: h1 :: h2 :: h3 :: h4 ::
              92 :: 117 :: g1 :: g2 :: g3 :: g4 :: s) =
  cons_char (join_surrogates hi lo) (scanstring s).
Proof. intros Hh Hhi Hg Hlo. simpl. rewrite Hh, Hhi, Hg, Hlo. reflexivity. Qed.

Lemma scanstring_high h1 h2 h3 h4 uni t :
  decode_uXXXX h1 h2 h3 h4 = Some uni -> is_high_surrogate uni = true ->
  lone_high_ok t ->
  scanstring (92 :: 117 :: h1 :: h2 :: h3 :: h4 :: t) = cons_char uni (scanstring t).
Proof.
  intros Hd Hh Hok. simpl. rewrite Hd, Hh.
  destruct t as [|b [|u s4]]; try reflexivity.
  destruct (N.eqb_spec b 92) as [->|]; [|reflexivity].
  destruct (N.eqb_spec u 117) as [->|]; [|reflexivity].
  destruct (Hok s4 eq_refl) as (g1 & g2 & g3 & g4 & s5 & u & -> & Hg & Hl).
  simpl. rewrite Hg, Hl. reflexivity.
Qed.

Lemma is_high_surrogate_spec c :
  is_high_surrogate c = true <-> 0xd800 <= c <= 0xdbff.
Proof.
  unfold is_high_surrogate. rewrite andb_true_iff, !N.leb_le. tauto.
Qed.

Lemma is_low_surrogate_spec c :
  is_low_surrogate c = true <-> 0xdc00 <= c <= 0xdfff.
Proof.
  unfold is_low_surrogate. rewrite andb_true_iff, !N.leb_le. tauto.
Qed.

Lemma is_low_surrogate_false c :
  c < 0xdc00 \/ 0xdfff < c -> is_low_surrogate c = false.
Proof.
  intros H. destruct (is_low_surrogate c) eqn:E; [|reflexivity].
  apply is_low_surrogate_spec in E. lia.
Qed.

Lemma quote_lone_high_ok rest : lone_high_ok (34 :: rest).
Proof. intros s4 H. discriminate H. Qed.

Lemma escape_char_lone_high_ok c t :
  c < 0x110000 -> is_low_surrogate c = false -> lone_high_ok (escape_char c ++ t).
Proof.
  intros Hc Hlow s4. unfold escape_char.
  repeat match goal with
  | |- context [N.eqb ?a ?b] => destruct (N.eqb_spec a b); [intros H; discriminate H|]
  end.
  destruct (_ && _) eqn:Hprint.
  { intros H. injection H as H _. apply andb_true_iff in Hprint as [_ Hp].
    apply N.leb_le in Hp. lia. }
  destruct (N.ltb_spec c 0x10000) as [Hbmp|Hastral].
  - intros H. injection H as <-. do 4 eexists. exists t, c.
    split; [reflexivity|]. split; [apply decode_u_escape, Hbmp | exact Hlow].
  - cbv zeta. intros H. injection H as <-.
    do 4 eexists. eexists. exists (0xd800 + (c - 0x10000) / 1024).
    split; [reflexivity|].
    rewrite high_escape_value by lia. split.
    + apply decode_u_escape.
      pose proof (div_1024_lt (c - 0x10000) ltac:(lia)). lia_div.
    + apply is_low_surrogate_false. left.
      pose proof (div_1024_lt (c - 0x10000) ltac:(lia)). lia_div.
Qed.

Lemma scanstring_escape_char c t :
  c < 0x110000 -> (is_high_surrogate c = true -> lone_high_ok t) ->
  scanstring (escape_char c ++ t) = cons_char c (scanstring t).
Proof.
  intros Hc Hok. unfold escape_char.
  repeat match goal with
  | |- context [N.eqb ?a ?b] =>
    destruct (N.eqb_spec a b) as [->|];
    [apply scanstring_backslash; [discriminate | reflexivity]|]
  end.
  destruct (_ && _) eqn:Hprint.
  { apply andb_true_iff in Hprint as [Hl Hu].
    apply N.leb_le in Hl, Hu. apply scanstring_literal; assumption. }
  destruct (N.ltb_spec c 0x10000) as [Hbmp|Hastral].
  - destruct (is_high_surrogate c) eqn:Hh.
    + apply scanstring_high; auto using decode_u_escape.
    + apply scanstring_u; auto using decode_u_escape.
  - cbv zeta. rewrite high_escape_value, low_escape_value by lia.
    pose proof (div_1024_lt (c - 0x10000) ltac:(lia)) as Hd.
    pose proof (N.mod_lt (c - 0x10000) 1024 ltac:(lia)) as Hm.
    rewrite <- (join_surrogates_split c) at 3 by lia.
    rewrite <- app_assoc.
    apply scanstring_pair.
    + apply decode_u_escape. lia_div.
    + apply is_high_surrogate_spec. lia_div.
    + apply decode_u_escape. lia_div.
    + apply is_low_surrogate_spec. lia_div.
Qed.

Lemma text_ok_cons c s : text_ok (c :: s) -> c < 0x110000 /\ text_ok s.
Proof.
  intros [Hall Hpair]. inversion Hall; subst.
  simpl in Hpair. apply andb_true_iff in Hpair as [_ Hpair].
  repeat split; assumption.
Qed.

Lemma text_ok_head c c' s :
  text_ok (c :: c' :: s) -> is_high_surrogate c = true -> is_low_surrogate c' = false.
Proof.
  intros [_ Hpair] Hh. simpl in Hpair. rewrite Hh in Hpair.
  destruct (is_low_surrogate c'); [discriminate Hpair | reflexivity].
Qed.

(** The decoder reads back what the encoder wrote for a string. *)
Lemma scanstring_escape s rest :
  text_ok s ->
  scanstring (flat_map escape_char s ++ 34 :: rest) = Some (s, rest).
Proof.
  induction s as [|c s IH]; intros Hok; [reflexivity|].
  destruct (text_ok_cons _ _ Hok) as [Hc Hs].
  simpl flat_map. rewrite <- app_assoc.
  rewrite scanstring_escape_char.
  - rewrite IH by exact Hs. reflexivity.
  - exact Hc.
  - intros Hh. destruct s as [|c' s'].
    + apply quote_lone_high_ok.
    + simpl flat_map. rewrite <- app_assoc.
      apply escape_char_lone_high_ok.
      * apply text_ok_cons in Hs as [Hc' _]. exact Hc'.
      * eapply text_ok_head; eassumption.
Qed.

(** ** Values *)

(** Induction on a value with the hypothesis for every element of a list
    and every value of a dictionary. *)
Lemma json_ind' (P : json -> Prop) :
  P JNull -> (forall b, P (JBool b)) -> (forall z, P (JInt z)) ->
  (forall lit, P (JFloat lit)) -> (forall s, P (JStr s)) ->
  (forall l, Forall P l -> P (JList l)) ->
  (forall d, Forall (fun kv => P (snd kv)) d -> P (JDict d)) ->
  forall v, P v.
Proof.
  intros Hnull Hbool Hint Hfloat Hstr Hlist Hdict.
  fix IH 1. intros [ | b | z | lit | s | l | d].
  - exact Hnull.
  - apply Hbool.
  - apply Hint.
  - apply Hfloat.
  - apply Hstr.
  - apply Hlist. induction l as [|x l IHl]; constructor; [apply IH | exact IHl].
  - apply Hdict. induction d as [|[k x] d IHd]; constructor; [apply IH | exact IHd].
Qed.

Lemma plain_list l : plain (JList l) <-> Forall plain l.
Proof.
  induction l as [|x l IH]; simpl.
  - split; [constructor | trivial].
  - simpl in IH. rewrite IH, Forall_cons. reflexivity.
Qed.

Lemma plain_dict d :
  plain (JDict d) <->
  NoDup (map fst d) /\ Forall (fun kv => text_ok (fst kv) /\ plain (snd kv)) d.
Proof.
  simpl. apply and_iff_compat_l.
  induction d as [|kv d IH]; simpl.
  - split; [constructor | trivial].
  - rewrite IH, Forall_cons. tauto.
Qed.

Lemma dict_set_fresh k v d :
  k ∉ map fst d -> dict_set k v d = d ++ [(k, v)].
Proof.
  induction d as [|[k' v'] d IH]; simpl; intros Hk; [reflexivity|].
  apply not_elem_of_cons in Hk as [Hne Hk].
  unfold pystr_eqb. rewrite bool_decide_eq_false_2 by exact Hne.
  rewrite IH by exact Hk. reflexivity.
Qed.

Lemma dict_of_pairs_nodup d : NoDup (map fst d) -> dict_of_pairs d = d.
Proof.
  unfold dict_of_pairs.
  enough (forall acc, NoDup (map fst (acc ++ d)) ->
            fold_left (fun d kv => dict_set (fst kv) (snd kv) d) d acc = acc ++ d)
    as H by (intros Hd; apply (H []), Hd).
  induction d as [|[k v] d IH]; intros acc Hnd; simpl.
  - rewrite app_nil_r. reflexivity.
  - rewrite dict_set_fresh.
    + rewrite IH; rewrite <- app_assoc; [reflexivity | exact Hnd].
    + rewrite map_app in Hnd. apply NoDup_app in Hnd as (_ & Hdisj & _).
      intros Hin. apply (Hdisj k Hin). simpl. left.
Qed.

(** *** White space and the shape of encodings *)

Lemma skip_ws_spaces n t : skip_ws (repeat 32 n ++ t) = skip_ws t.
Proof. induction n as [|n IH]; [reflexivity | exact IH]. Qed.

Lemma skip_ws_newline_indent level t :
  skip_ws (newline_indent level ++ t) = skip_ws t.
Proof. unfold newline_indent. apply (skip_ws_spaces (4 * level)). Qed.

Lemma skip_ws_token t : starts_token t -> skip_ws t = t.
Proof. intros (c & t' & -> & Hws & _). simpl. rewrite Hws. reflexivity. Qed.

Lemma starts_token_app t u : starts_token t -> starts_token (t ++ u).
Proof. intros (c & t' & -> & H). exists c, (t' ++ u). split; [reflexivity | exact H]. Qed.

Lemma starts_token_iterencode fr level v :
  plain v -> starts_token (iterencode fr level v).
Proof.
  destruct v as [ | [|] | z | lit | s | [|x l] | [|kv d]]; simpl; intros Hp;
    try contradiction;
    (eexists _, _; split; [reflexivity|]; repeat split; discriminate).
Qed.

Lemma starts_token_join sep (f : json -> pystr) x l :
  starts_token (f x) -> starts_token (join sep (map f (x :: l))).
Proof.
  intros H. destruct l; simpl; [exact H | apply starts_token_app, H].
Qed.

(** *** One step of the scanner *)

Lemma scan_once_string fuel s1 :
  scan_once (S fuel) (34 :: s1) =
  match scanstring s1 with
  | Some (v, r) => Scanned (JStr v) r
  | None => Invalid
  end.
Proof. reflexivity. Qed.

Lemma scan_once_array fuel s1 t :
  skip_ws s1 = t -> starts_token t ->
  scan_once (S fuel) (91 :: s1) =
  match array_items fuel t with
  | Scanned values r' => Scanned (JList values) r'
  | Invalid => Invalid
  | Starved => Starved
  end.
Proof.
  intros Hskip (c & t' & -> & Hws & Hc & _).
  change (scan_once (S fuel) (91 :: s1)) with
    (match skip_ws s1 with
     | q :: r =>
       if q =? 93 then Scanned (JList []) r
       else match array_items fuel (q :: r) with
            | Scanned values r' => Scanned (JList values) r'
            | Invalid => Invalid
            | Starved => Starved
            end
     | [] => Invalid
     end).
  rewrite Hskip.
  destruct (N.eqb_spec c 93); [contradiction | reflexivity].
Qed.

Lemma scan_once_object fuel s1 t :
  skip_ws s1 = 34 :: t ->
  scan_once (S fuel) (123 :: s1) =
  match object_items fuel t with
  | Scanned pairs r' => Scanned (JDict (dict_of_pairs pairs)) r'
  | Invalid => Invalid
  | Starved => Starved
  end.
Proof.
  intros Hskip.
  change (scan_once (S fuel) (123 :: s1)) with
    (match skip_ws s1 with
     | q :: r =>
       if q =? 125 then Scanned (JDict []) r
       else if q =? 34 then
         match object_items fuel r with
         | Scanned pairs r' => Scanned (JDict (dict_of_pairs pairs)) r'
         | Invalid => Invalid
         | Starved => Starved
         end
       else Invalid
     | [] => Invalid
     end).
  rewrite Hskip. reflexivity.
Qed.

Lemma array_items_step fuel s :
  array_items (S fuel) s =
  match scan_once fuel s with
  | Scanned value r =>
    match skip_ws r with
    | c :: r1 =>
      if c =? 93 then Scanned [value] r1
      else if c =? 44 then
        match array_items fuel (skip_ws r1) with
        | Scanned values r2 => Scanned (value :: values) r2
        | Invalid => Invalid
        | Starved => Starved
        end
      else Invalid
    | [] => Invalid
    end
  | Invalid => Invalid
  | Starved => Starved
  end.
Proof. reflexivity. Qed.

Lemma object_items_step fuel s :
  object_items (S fuel) s =
  match scanstring s with
  | None => Invalid
  | Some (key, r) =>
    match skip_ws r with
    | c :: r1 =>
      if c =? 58 then
        match scan_once fuel (skip_ws r1) with
        | Scanned value r2 =>
          match skip_ws r2 with
          | c2 :: r3 =>
            if c2 =? 125 then Scanned [(key, value)] r3
            else if c2 =? 44 then
              match skip_ws r3 with
              | q :: r4 =>
                if q =? 34 then
                  match object_items fuel r4 with
                  | Scanned pairs r5 => Scanned ((key, value) :: pairs) r5
                  | Invalid => Invalid
                  | Starved => Starved
                  end
                else Invalid
              | [] => Invalid
              end
            else Invalid
          | [] => Invalid
          end
        | Invalid => Invalid
        | Starved => Starved
        end
      else Invalid
    | [] => Invalid
    end
  end.
Proof. reflexivity. Qed.

(** *** Reading back an encoding *)

Lemma array_items_join fr level level' l rest fuel :
  l <> [] -> Forall plain l -> Forall (reads_back fr) l ->
  (list_sum (map (fun x => S (size x)) l) <= fuel)%nat ->
  array_items fuel
    (join (44 :: newline_indent level) (map (iterencode fr level) l) ++
     newline_indent level' ++ 93 :: rest) = Scanned l rest.
Proof.
  revert fuel. induction l as [|v l IH]; intros fuel Hne Hp Hrb Hfuel;
    [congruence|].
  apply Forall_cons in Hp as [Hpv Hp]. apply Forall_cons in Hrb as [Hv Hrb].
  simpl in Hfuel. destruct fuel as [|fuel]; [lia|].
  rewrite array_items_step.
  destruct l as [|v2 l].
  - change (join ?s (map ?f [v])) with (f v).
    rewrite Hv by lia.
    rewrite skip_ws_newline_indent. reflexivity.
  - change (join ?sep (map ?f (v :: v2 :: l)))
      with (f v ++ sep ++ join sep (map f (v2 :: l))).
    rewrite <- !app_assoc. rewrite Hv by lia.
    rewrite <- app_comm_cons.
    change (skip_ws (44 :: ?t)) with (44 :: t). cbv iota.
    change (44 =? 93) with false. change (44 =? 44) with true. cbv iota.
    rewrite skip_ws_newline_indent, skip_ws_token.
    + rewrite IH; [reflexivity | discriminate | assumption | assumption | ].
      simpl. simpl in Hfuel. lia.
    + apply starts_token_app, starts_token_join, starts_token_iterencode.
      apply Forall_cons in Hp as [Hp2 _]. exact Hp2.
Qed.

Lemma pair_text_unfold fr level k v u :
  pair_text fr level (k, v) ++ u =
  34 :: flat_map escape_char k ++ 34 :: 58 :: 32 :: iterencode fr level v ++ u.
Proof.
  unfold pair_text, encode_basestring_ascii. simpl fst. simpl snd.
  change (str ": ") with [58; 32].
  rewrite <- !app_assoc. reflexivity.
Qed.

Lemma members_head fr level sep kv d u :
  join sep (map (pair_text fr level) (kv :: d)) ++ u =
  34 :: tl (join sep (map (pair_text fr level) (kv :: d)) ++ u).
Proof.
  destruct kv as [k v]. destruct d as [|kv2 d].
  - change (join ?s (map ?f [(k, v)])) with (f (k, v)).
    rewrite pair_text_unfold. reflexivity.
  - change (join ?s (map ?f ((k, v) :: kv2 :: d)))
      with (f (k, v) ++ s ++ join s (map f (kv2 :: d))).
    rewrite <- !app_assoc, pair_text_unfold. reflexivity.
Qed.

Lemma object_items_join fr level level' d rest fuel :
  d <> [] ->
  Forall (fun kv => text_ok (fst kv) /\ plain (snd kv)) d ->
  Forall (fun kv => reads_back fr (snd kv)) d ->
  (list_sum (map (fun kv => S (size (snd kv))) d) <= fuel)%nat ->
  object_items fuel
    (tl (join (44 :: newline_indent level) (map (pair_text fr level) d) ++
         newline_indent level' ++ 125 :: rest)) = Scanned d rest.
Proof.
  revert fuel. induction d as [|[k v] d IH]; intros fuel Hne Hp Hrb Hfuel;
    [congruence|].
  apply Forall_cons in Hp as [[Hk Hpv] Hp]. apply Forall_cons in Hrb as [Hv Hrb].
  simpl in Hk, Hpv, Hv, Hfuel. destruct fuel as [|fuel]; [lia|].
  rewrite object_items_step.
  assert (Htok : forall u, skip_ws (32 :: iterencode fr level v ++ u) =
                           iterencode fr level v ++ u).
  { intros u. change (skip_ws (32 :: ?t)) with (skip_ws t).
    apply skip_ws_token, starts_token_app, starts_token_iterencode, Hpv. }
  destruct d as [|kv2 d].
  - change (join ?s (map ?f [(k, v)])) with (f (k, v)).
    rewrite pair_text_unfold. change (tl (34 :: ?t)) with t.
    rewrite scanstring_escape by exact Hk.
    change (skip_ws (58 :: ?t)) with (58 :: t). cbv iota.
    change (58 =? 58) with true. cbv iota.
    rewrite Htok, Hv by lia.
    rewrite skip_ws_newline_indent. reflexivity.
  - change (join ?s (map ?f ((k, v) :: kv2 :: d)))
      with (f (k, v) ++ s ++ join s (map f (kv2 :: d))).
    rewrite <- !app_assoc, pair_text_unfold. change (tl (34 :: ?t)) with t.
    rewrite scanstring_escape by exact Hk.
    change (skip_ws (58 :: ?t)) with (58 :: t). cbv iota.
    change (58 =? 58) with true. cbv iota.
    rewrite Htok, Hv by lia.
    rewrite <- app_comm_cons.
    change (skip_ws (44 :: ?t)) with (44 :: t). cbv iota.
    change (44 =? 125) with false. change (44 =? 44) with true. cbv iota.
    rewrite skip_ws_newline_indent, members_head.
    change (skip_ws (34 :: ?t)) with (34 :: t). cbv iota.
    change (34 =? 34) with true. cbv iota.
    rewrite IH; [reflexivity | discriminate | assumption | assumption | ].
    simpl. simpl in Hfuel. lia.
Qed.

(** Every plain value is read back from its encoding. *)
Lemma scan_once_iterencode fr v : plain v -> reads_back fr v.
Proof.
  induction v as [ | b | z | lit | s | l IH | d IH] using json_ind';
    intros Hp level rest fuel Hfuel.
  - destruct fuel; [simpl in Hfuel; lia | reflexivity].
  - destruct fuel; [simpl in Hfuel; lia | destruct b; reflexivity].
  - contradiction.
  - contradiction.
  - destruct fuel; [simpl in Hfuel; lia|].
    simpl iterencode. unfold encode_basestring_ascii.
    rewrite <- !app_assoc. simpl app.
    rewrite scan_once_string, scanstring_escape by exact Hp. reflexivity.
  - destruct fuel; [simpl in Hfuel; lia|].
    apply plain_list in Hp.
    destruct l as [|x l]; [reflexivity|].
    assert (Hrb : Forall (reads_back fr) (x :: l)).
    { rewrite Forall_forall in IH, Hp |- *. intros y Hy. apply IH; auto. }
    change (iterencode fr level (JList (x :: l))) with
      (91 :: newline_indent (S level) ++
       join (44 :: newline_indent (S level))
            (map (iterencode fr (S level)) (x :: l)) ++
       newline_indent level ++ [93]).
    rewrite <- app_comm_cons, <- !app_assoc.
    change ([93] ++ rest) with (93 :: rest).
    match goal with |- scan_once _ (91 :: _ ++ ?t) = _ =>
      assert (Htok : starts_token t)
    end.
    { apply starts_token_app, starts_token_join, starts_token_iterencode.
      apply Forall_cons in Hp as [Hx _]. exact Hx. }
    erewrite scan_once_array;
      [ | rewrite skip_ws_newline_indent; apply skip_ws_token, Htok | exact Htok ].
    rewrite array_items_join; [reflexivity | discriminate | assumption.. | ].
    simpl in Hfuel |- *. lia.
  - destruct fuel; [simpl in Hfuel; lia|].
    apply plain_dict in Hp as [Hnd Hp].
    destruct d as [|kv d]; [reflexivity|].
    assert (Hrb : Forall (fun kv => reads_back fr (snd kv)) (kv :: d)).
    { rewrite Forall_forall in IH, Hp |- *. intros y Hy. apply IH; [exact Hy|].
      apply Hp, Hy. }
    change (iterencode fr level (JDict (kv :: d))) with
      (123 :: newline_indent (S level) ++
       join (44 :: newline_indent (S level))
            (map (pair_text fr (S level)) (kv :: d)) ++
       newline_indent level ++ [125]).
    rewrite <- app_comm_cons, <- !app_assoc.
    change ([125] ++ rest) with (125 :: rest).
    erewrite scan_once_object;
      [ | rewrite skip_ws_newline_indent, members_head; reflexivity ].
    rewrite object_items_join; [ | discriminate | assumption.. | ].
    + rewrite dict_of_pairs_nodup by exact Hnd. reflexivity.
    + simpl in Hfuel |- *. lia.
Qed.

(** ** The scanner always has fuel enough *)

Lemma cons_char_Some c r v rest :
  cons_char c r = Some (v, rest) -> exists v', r = Some (v', rest).
Proof.
  destruct r as [[v' rest']|]; simpl; intros H; [|discriminate H].
  injection H as _ <-. eauto.
Qed.

Lemma scanstring_shorter s v r :
  scanstring s = Some (v, r) -> (length r < length s)%nat.
Proof.
  remember (length s) as n eqn:Hn. revert s v r Hn.
  induction n as [n IH] using lt_wf_ind. intros s v r -> Hs.
  assert (Hrec : forall c s' v r,
            (length s' < length s)%nat ->
            cons_char c (scanstring s') = Some (v, r) ->
            (length r < length s)%nat).
  { intros c s' v' r' Hlen Hc. apply cons_char_Some in Hc as [v'' Hc].
    specialize (IH _ Hlen _ _ _ eq_refl Hc). lia. }
  destruct s as [|c s1]; [discriminate Hs|]. simpl in Hs.
  destruct (c =? 34). { injection Hs as _ <-. simpl. lia. }
  destruct (c <? 32); [discriminate Hs|].
  destruct (c =? 92); [|eapply Hrec; [|exact Hs]; simpl; lia].
  destruct s1 as [|esc s2]; [discriminate Hs|].
  destruct (esc =? 117).
  - destruct s2 as [|h1 [|h2 [|h3 [|h4 s3]]]]; try discriminate Hs.
    destruct (decode_uXXXX h1 h2 h3 h4) as [uni|]; [|discriminate Hs].
    destruct (is_high_surrogate uni);
      [|eapply Hrec; [|exact Hs]; simpl; lia].
    destruct s3 as [|b [|u s4]]; try (eapply Hrec; [|exact Hs]; simpl; lia).
    destruct ((b =? 92) && (u =? 117));
      [|eapply Hrec; [|exact Hs]; simpl; lia].
    destruct s4 as [|g1 [|g2 [|g3 [|g4 s5]]]]; try discriminate Hs.
    destruct (decode_uXXXX g1 g2 g3 g4) as [uni2|]; [|discriminate Hs].
    destruct (is_low_surrogate uni2); (eapply Hrec; [|exact Hs]; simpl; lia).
  - destruct (backslash esc); [|discriminate Hs].
    eapply Hrec; [|exact Hs]; simpl; lia.
Qed.

Lemma skip_ws_length s : (length (skip_ws s) <= length s)%nat.
Proof.
  induction s as [|c s IH]; simpl; [lia|].
  destruct (is_ws c); simpl; lia.
Qed.

Lemma strip_prefix_length p s r :
  strip_prefix p s = Some r -> length s = (length p + length r)%nat.
Proof.
  revert s. induction p as [|a p IH]; intros [|b s] H; simpl in *;
    try discriminate H; try (injection H as <-; reflexivity).
  destruct (a =? b); [|discriminate H]. rewrite (IH _ H). reflexivity.
Qed.

Lemma span_digits_length s :
  length s = (length (fst (span_digits s)) + length (snd (span_digits s)))%nat.
Proof.
  induction s as [|c s IH]; simpl; [reflexivity|].
  destruct (is_digit c); [|reflexivity].
  destruct (span_digits s) as [ds r]. simpl in *. lia.
Qed.

Lemma match_digits_shorter s ds r :
  match_digits s = Some (ds, r) -> (length r < length s)%nat.
Proof.
  destruct s as [|c r0]; simpl; intros H; [discriminate H|].
  destruct (c =? 48). { injection H as _ <-. lia. }
  destruct (is_digit c); [|discriminate H].
  pose proof (span_digits_length r0) as Hsp.
  destruct (span_digits r0) as [ds0 r']. injection H as _ <-.
  simpl in Hsp. lia.
Qed.

Lemma match_integer_shorter s neg ds r :
  match_integer s = Some (neg, ds, r) -> (length r < length s)%nat.
Proof.
  unfold match_integer. intros H.
  assert (Hs : exists s1, (length s1 <= length s)%nat /\
                          match_digits s1 = Some (ds, r)).
  { destruct s as [|c r0].
    - destruct (match_digits []) as [[ds' r']|] eqn:E; [discriminate E|discriminate H].
    - destruct (c =? 45).
      + exists r0. split; [simpl; lia|].
        destruct (match_digits r0) as [[ds' r']|]; [|discriminate H].
        injection H as _ <- <-. reflexivity.
      + exists (c :: r0). split; [lia|].
        destruct (match_digits (c :: r0)) as [[ds' r']|]; [|discriminate H].
        injection H as _ <- <-. reflexivity. }
  destruct Hs as (s1 & Hlen & Hd). apply match_digits_shorter in Hd. lia.
Qed.

Lemma match_frac_length s : (length (snd (match_frac s)) <= length s)%nat.
Proof.
  destruct s as [|c r]; simpl; [lia|].
  destruct (c =? 46); [|simpl; lia].
  pose proof (span_digits_length r) as Hsp.
  destruct (span_digits r) as [[|d ds] r']; simpl in *; lia.
Qed.

Lemma match_exp_length s : (length (snd (match_exp s)) <= length s)%nat.
Proof.
  destruct s as [|c r]; simpl; [lia|].
  destruct ((c =? 101) || (c =? 69)); [|simpl; lia].
  assert (H : forall sign r1, (length r1 <= length r)%nat ->
            (length (snd (match span_digits r1 with
                          | ([], _) => ([], c :: r)
                          | (ds, r') => (c :: sign ++ ds, r')
                          end)) <= S (length r))%nat).
  { intros sign r1 Hlen. pose proof (span_digits_length r1) as Hsp.
    destruct (span_digits r1) as [[|d ds] r']; simpl in *; lia. }
  destruct r as [|g r0]; [apply H; lia|].
  destruct ((g =? 45) || (g =? 43)); apply H; simpl; lia.
Qed.

Lemma match_number_shorter s v r :
  match_number s = Some (v, r) -> (length r < length s)%nat.
Proof.
  unfold match_number.
  destruct (match_integer s) as [[[neg ds] r0]|] eqn:Hi; [|intros H; discriminate H].
  apply match_integer_shorter in Hi.
  pose proof (match_frac_length r0) as Hf.
  destruct (match_frac r0) as [frac r1].
  pose proof (match_exp_length r1) as He.
  destruct (match_exp r1) as [exp r2]. simpl in Hf, He.
  destruct frac, exp; intros H; injection H as _ <-; lia.
Qed.

Lemma scan_atom_shorter s v r :
  scan_atom s = Scanned v r -> (length r < length s)%nat.
Proof.
  unfold scan_atom.
  repeat match goal with
  | |- context [strip_prefix ?p s] =>
    let E := fresh "E" in
    destruct (strip_prefix p s) eqn:E;
    [ apply strip_prefix_length in E; simpl in E;
      intros H; injection H as _ <-; lia | clear E ]
  | |- context [match_number s] =>
    let E := fresh "E" in
    destruct (match_number s) as [[v' r']|] eqn:E;
    [ apply match_number_shorter in E; intros H; injection H as _ <-; lia
    | clear E ]
  end.
  intros H. discriminate H.
Qed.

Lemma scan_once_step fuel s :
  scan_once (S fuel) s =
  match s with
  | [] => Invalid
  | c :: s1 =>
    if c =? 34 then
      match scanstring s1 with
      | Some (v, r) => Scanned (JStr v) r
      | None => Invalid
      end
    else if c =? 123 then
      match skip_ws s1 with
      | q :: r =>
        if q =? 125 then Scanned (JDict []) r
        else if q =? 34 then
          match object_items fuel r with
          | Scanned pairs r' => Scanned (JDict (dict_of_pairs pairs)) r'
          | Invalid => Invalid
          | Starved => Starved
          end
        else Invalid
      | [] => Invalid
      end
    else if c =? 91 then
      match skip_ws s1 with
      | q :: r =>
        if q =? 93 then Scanned (JList []) r
        else
          match array_items fuel (q :: r) with
          | Scanned values r' => Scanned (JList values) r'
          | Invalid => Invalid
          | Starved => Starved
          end
      | [] => Invalid
      end
    else scan_atom s
  end.
Proof. reflexivity. Qed.

(** What the scanner leaves is shorter than what it was given. *)
Lemma scanner_shorter fuel :
  (forall s v r, scan_once fuel s = Scanned v r -> (length r < length s)%nat) /\
  (forall s vs r, array_items fuel s = Scanned vs r -> (length r < length s)%nat) /\
  (forall s ps r, object_items fuel s = Scanned ps r -> (length r < length s)%nat).
Proof.
  induction fuel as [|fuel (IHs & IHa & IHo)];
    [repeat split; intros ? ? ? H; discriminate H|].
  repeat split.
  - intros s v r. rewrite scan_once_step.
    destruct s as [|c s1]; [intros H; discriminate H|].
    pose proof (skip_ws_length s1) as Hskip.
    destruct (c =? 34).
    { destruct (scanstring s1) as [[v' r']|] eqn:E; intros H; [|discriminate H].
      injection H as _ <-. apply scanstring_shorter in E. simpl. lia. }
    destruct (c =? 123).
    { destruct (skip_ws s1) as [|q r0]; [intros H; discriminate H|].
      simpl in Hskip.
      destruct (q =? 125). { intros H. injection H as _ <-. simpl. lia. }
      destruct (q =? 34); [|intros H; discriminate H].
      destruct (object_items fuel r0) as [ps r'| |] eqn:E; intros H;
        try discriminate H.
      injection H as _ <-. apply IHo in E. simpl. lia. }
    destruct (c =? 91).
    { destruct (skip_ws s1) as [|q r0]; [intros H; discriminate H|].
      destruct (q =? 93). { intros H. injection H as _ <-. simpl in *. lia. }
      destruct (array_items fuel (q :: r0)) as [vs r'| |] eqn:E; intros H;
        try discriminate H.
      injection H as _ <-. apply IHa in E. simpl in *. lia. }
    apply scan_atom_shorter.
  - intros s vs r. rewrite array_items_step.
    destruct (scan_once fuel s) as [v r0| |] eqn:E; try (intros H; discriminate H).
    apply IHs in E. pose proof (skip_ws_length r0) as Hskip.
    destruct (skip_ws r0) as [|c r1]; [intros H; discriminate H|].
    simpl in Hskip.
    destruct (c =? 93). { intros H. injection H as _ <-. lia. }
    destruct (c =? 44); [|intros H; discriminate H].
    pose proof (skip_ws_length r1) as Hskip1.
    destruct (array_items fuel (skip_ws r1)) as [vs' r2| |] eqn:E2; intros H;
      try discriminate H.
    injection H as _ <-. apply IHa in E2. lia.
  - intros s ps r. rewrite object_items_step.
    destruct (scanstring s) as [[key r0]|] eqn:E; [|intros H; discriminate H].
    apply scanstring_shorter in E. pose proof (skip_ws_length r0) as Hskip.
    destruct (skip_ws r0) as [|c r1]; [intros H; discriminate H|].
    simpl in Hskip.
    destruct (c =? 58); [|intros H; discriminate H].
    pose proof (skip_ws_length r1) as Hskip1.
    destruct (scan_once fuel (skip_ws r1)) as [v r2| |] eqn:E2;
      try (intros H; discriminate H).
    apply IHs in E2. pose proof (skip_ws_length r2) as Hskip2.
    destruct (skip_ws r2) as [|c2 r3]; [intros H; discriminate H|].
    simpl in Hskip2.
    destruct (c2 =? 125). { intros H. injection H as _ <-. lia. }
    destruct (c2 =? 44); [|intros H; discriminate H].
    pose proof (skip_ws_length r3) as Hskip3.
    destruct (skip_ws r3) as [|q r4]; [intros H; discriminate H|].
    simpl in Hskip3.
    destruct (q =? 34); [|intros H; discriminate H].
    destruct (object_items fuel r4) as [ps' r5| |] eqn:E3; intros H;
      try discriminate H.
    injection H as _ <-. apply IHo in E3. lia.
Qed.

(** With more than twice as much fuel as there are characters, the scanner
    is never starved. *)
Lemma scanner_fed fuel :
  (forall s, (2 * length s < fuel)%nat -> scan_once fuel s <> Starved) /\
  (forall s, (2 * length s + 1 < fuel)%nat -> array_items fuel s <> Starved) /\
  (forall s, (2 * length s < fuel)%nat -> object_items fuel s <> Starved).
Proof.
  induction fuel as [|fuel (IHs & IHa & IHo)]; [repeat split; intros; lia|].
  destruct (scanner_shorter fuel) as (Ss & Sa & So).
  repeat split.
  - intros s Hf. rewrite scan_once_step.
    destruct s as [|c s1]; [discriminate|].
    pose proof (skip_ws_length s1) as Hskip. simpl in Hf.
    destruct (c =? 34). { destruct (scanstring s1) as [[? ?]|]; discriminate. }
    destruct (c =? 123).
    { destruct (skip_ws s1) as [|q r0]; [discriminate|]. simpl in Hskip.
      destruct (q =? 125); [discriminate|].
      destruct (q =? 34); [|discriminate].
      specialize (IHo r0 ltac:(lia)).
      destruct (object_items fuel r0); [discriminate | discriminate | contradiction]. }
    destruct (c =? 91).
    { destruct (skip_ws s1) as [|q r0]; [discriminate|].
      destruct (q =? 93); [discriminate|].
      specialize (IHa (q :: r0) ltac:(lia)).
      destruct (array_items fuel (q :: r0)); [discriminate | discriminate | contradiction]. }
    unfold scan_atom.
    repeat match goal with
    | |- context [strip_prefix ?p ?t] => destruct (strip_prefix p t); [discriminate|]
    | |- context [match_number ?t] => destruct (match_number t) as [[? ?]|]; [discriminate|]
    end.
    discriminate.
  - intros s Hf. rewrite array_items_step.
    specialize (IHs s ltac:(lia)).
    destruct (scan_once fuel s) as [v r0| |] eqn:E;
      [ | discriminate | contradiction].
    apply Ss in E. pose proof (skip_ws_length r0) as Hskip.
    destruct (skip_ws r0) as [|c r1]; [discriminate|]. simpl in Hskip.
    destruct (c =? 93); [discriminate|].
    destruct (c =? 44); [|discriminate].
    pose proof (skip_ws_length r1) as Hskip1.
    specialize (IHa (skip_ws r1) ltac:(lia)).
    destruct (array_items fuel (skip_ws r1)); [discriminate | discriminate | contradiction].
  - intros s Hf. rewrite object_items_step.
    destruct (scanstring s) as [[key r0]|] eqn:E; [|discriminate].
    apply scanstring_shorter in E. pose proof (skip_ws_length r0) as Hskip.
    destruct (skip_ws r0) as [|c r1]; [discriminate|]. simpl in Hskip.
    destruct (c =? 58); [|discriminate].
    pose proof (skip_ws_length r1) as Hskip1.
    specialize (IHs (skip_ws r1) ltac:(lia)).
    destruct (scan_once fuel (skip_ws r1)) as [v r2| |] eqn:E2;
      [ | discriminate | contradiction].
    apply Ss in E2. pose proof (skip_ws_length r2) as Hskip2.
    destruct (skip_ws r2) as [|c2 r3]; [discriminate|]. simpl in Hskip2.
    destruct (c2 =? 125); [discriminate|].
    destruct (c2 =? 44); [|discriminate].
    pose proof (skip_ws_length r3) as Hskip3.
    destruct (skip_ws r3) as [|q r4]; [discriminate|]. simpl in Hskip3.
    destruct (q =? 34); [|discriminate].
    specialize (IHo r4 ltac:(lia)).
    destruct (object_items fuel r4); [discriminate | discriminate | contradiction].
Qed.

(** Fuel beyond what the scanner needs does not change its answer. *)
Lemma scanner_stable fuel :
  (forall s, scan_once fuel s <> Starved ->
             scan_once (S fuel) s = scan_once fuel s) /\
  (forall s, array_items fuel s <> Starved ->
             array_items (S fuel) s = array_items fuel s) /\
  (forall s, object_items fuel s <> Starved ->
             object_items (S fuel) s = object_items fuel s).
Proof.
  induction fuel as [|fuel (IHs & IHa & IHo)];
    [repeat split; intros s H; contradiction H; reflexivity|].
  repeat split.
  - intros s. rewrite (scan_once_step (S fuel)), (scan_once_step fuel).
    destruct s as [|c s1]; [reflexivity|].
    destruct (c =? 34); [reflexivity|].
    destruct (c =? 123).
    { destruct (skip_ws s1) as [|q r0]; [reflexivity|].
      destruct (q =? 125); [reflexivity|].
      destruct (q =? 34); [|reflexivity].
      intros H. rewrite IHo; [reflexivity|].
      intros E. rewrite E in H. contradiction H; reflexivity. }
    destruct (c =? 91); [|reflexivity].
    destruct (skip_ws s1) as [|q r0]; [reflexivity|].
    destruct (q =? 93); [reflexivity|].
    intros H. rewrite IHa; [reflexivity|].
    intros E. rewrite E in H. contradiction H; reflexivity.
  - intros s. rewrite (array_items_step (S fuel)), (array_items_step fuel).
    intros H. rewrite IHs by (intros E; rewrite E in H; contradiction H; reflexivity).
    destruct (scan_once fuel s) as [v r0| |]; try reflexivity.
    destruct (skip_ws r0) as [|c r1]; [reflexivity|].
    destruct (c =? 93); [reflexivity|].
    destruct (c =? 44); [|reflexivity].
    rewrite IHa; [reflexivity|].
    intros E. rewrite E in H. contradiction H; reflexivity.
  - intros s. rewrite (object_items_step (S fuel)), (object_items_step fuel).
    destruct (scanstring s) as [[key r0]|]; [|reflexivity].
    destruct (skip_ws r0) as [|c r1]; [reflexivity|].
    destruct (c =? 58); [|reflexivity].
    intros H. rewrite IHs by (intros E; rewrite E in H; contradiction H; reflexivity).
    destruct (scan_once fuel (skip_ws r1)) as [v r2| |]; try reflexivity.
    destruct (skip_ws r2) as [|c2 r3]; [reflexivity|].
    destruct (c2 =? 125); [reflexivity|].
    destruct (c2 =? 44); [|reflexivity].
    destruct (skip_ws r3) as [|q r4]; [reflexivity|].
    destruct (q =? 34); [|reflexivity].
    rewrite IHo; [reflexivity|].
    intros E. rewrite E in H. contradiction H; reflexivity.
Qed.

Lemma scan_once_more fuel extra s :
  scan_once fuel s <> Starved -> scan_once (extra + fuel) s = scan_once fuel s.
Proof.
  intros H. induction extra as [|extra IH]; [reflexivity|].
  simpl Nat.add. destruct (scanner_stable (extra + fuel)) as (Hs & _ & _).
  rewrite Hs; rewrite IH; [reflexivity | exact H].
Qed.

(** [json.loads] never starves: a text is either decoded or rejected. *)
Lemma json_loads_total s : json_decode (S (2 * length s)) s <> Starved.
Proof.
  unfold json_decode.
  destruct (scanner_fed (S (2 * length s))) as (Hs & _ & _).
  pose proof (skip_ws_length s) as Hskip.
  specialize (Hs (skip_ws s) ltac:(lia)).
  destruct (scan_once _ (skip_ws s)) as [v r| |];
    [ destruct (skip_ws r); discriminate | discriminate | contradiction ].
Qed.

(** Decoding the encoding of a plain value gives the value back. *)
Lemma json_loads_dumps fr v : plain v -> json_loads (json_dumps fr v) = Some v.
Proof.
  intros Hp. unfold json_loads, json_decode, json_dumps.
  set (text := iterencode fr 0 v).
  assert (Hskip : skip_ws text = text)
    by apply skip_ws_token, starts_token_iterencode, Hp.
  rewrite Hskip.
  assert (Hsmall : scan_once (size v) text = Scanned v []).
  { pose proof (scan_once_iterencode fr v Hp 0%nat [] (size v) ltac:(lia)) as H.
    rewrite app_nil_r in H. exact H. }
  destruct (scanner_fed (S (2 * length text))) as (Hfed & _ & _).
  specialize (Hfed text ltac:(lia)).
  pose proof (scan_once_more (size v) (S (2 * length text)) text) as H1.
  pose proof (scan_once_more (S (2 * length text)) (size v) text Hfed) as H2.
  rewrite Hsmall in H1. specialize (H1 ltac:(discriminate)).
  rewrite Nat.add_comm, H1 in H2. rewrite <- H2. reflexivity.
Qed.

(** ** Programs *)

Lemma bind_run {A B} (m : M A) (k : A -> M B) w :
  (m ≫= k) w =
  match m w with
  | (Return a, w') => k a w'
  | (Raise e, w') => (Raise e, w')
  | (OutOfFuel, w') => (OutOfFuel, w')
  end.
Proof. reflexivity. Qed.

Lemma ret_run {A} (a : A) w : (mret a : M A) w = (Return a, w).
Proof. reflexivity. Qed.

Lemma input_line prompt line rest w :
  stdin w = line :: rest ->
  input prompt w =
  (Return line, log_event (ev_input prompt (Some line)) (set_stdin rest w)).
Proof. intros H. unfold input. rewrite H. reflexivity. Qed.

Lemma input_eof prompt w :
  stdin w = [] ->
  input prompt w = (Raise EOFError, log_event (ev_input prompt None) w).
Proof. intros H. unfold input. rewrite H. reflexivity. Qed.

Lemma get_input_list_loop_step fuel prompt detail_prompt items :
  get_input_list_loop (S fuel) prompt detail_prompt items =
  (item ← input prompt;
   if negb (nonempty item) then mret items
   else
     item ←
       match detail_prompt with
       | Some (c :: template) =>
         detail ← input (format_item 0 (c :: template) item);
         mret (item ++ str " (" ++ detail ++ str ")")
       | _ => mret item
       end;
     get_input_list_loop fuel prompt detail_prompt (items ++ [item])).
Proof. reflexivity. Qed.

Lemma get_input_list_loop_pairs prompt c template
    (pairs : list (pystr * pystr)) :
  Forall (fun p => fst p <> []) pairs ->
  forall fuel items rest w,
    (length pairs < fuel)%nat ->
    stdin w = flat_map pair_lines pairs ++ [] :: rest ->
    get_input_list_loop fuel prompt (Some (c :: template)) items w =
    (Return (items ++ map with_amount pairs),
     {| env := env w; stdin := rest; fs := fs w; ticks := ticks w;
        trace := trace w ++ flat_map (pair_events prompt (c :: template)) pairs ++
                 [ev_input prompt (Some [])] |}).
Proof.
  induction 1 as [|[name amount] pairs Hname _ IH];
    intros fuel items rest w Hfuel Hin;
    (destruct fuel as [|fuel]; [simpl in Hfuel; lia|]);
    cbn [flat_map pair_lines fst snd app] in Hin;
    rewrite get_input_list_loop_step, bind_run, (input_line _ _ _ _ Hin).
  - simpl. rewrite app_nil_r. reflexivity.
  - simpl in Hname.
    destruct name as [|n0 name]; [contradiction Hname; reflexivity|].
    cbn [negb nonempty].
    rewrite bind_run, bind_run.
    rewrite (input_line _ amount (flat_map pair_lines pairs ++ [] :: rest))
      by reflexivity.
    cbv beta iota. rewrite ret_run. cbv beta iota.
    rewrite (IH fuel _ rest) by (simpl in *; try lia; reflexivity).
    simpl. rewrite <- !app_assoc. reflexivity.
Qed.

(** *** What collecting input changes *)

Lemma prompted_refl w : prompted w w.
Proof.
  repeat split; try reflexivity. exists []. rewrite app_nil_r. split; [reflexivity|constructor].
Qed.

Lemma prompted_trans w1 w2 w3 : prompted w1 w2 -> prompted w2 w3 -> prompted w1 w3.
Proof.
  intros (He1 & Hf1 & Hl1 & evs1 & Ht1 & Hi1) (He2 & Hf2 & Hl2 & evs2 & Ht2 & Hi2).
  repeat split; try congruence; try lia.
  exists (evs1 ++ evs2). rewrite Ht2, Ht1, app_assoc.
  split; [reflexivity | apply Forall_app; split; assumption].
Qed.

Lemma prompts_ret {A} (a : A) : prompts (mret a).
Proof. intros w. apply prompted_refl. Qed.

Lemma prompts_bind {A B} (m : M A) (k : A -> M B) :
  prompts m -> (forall a, prompts (k a)) -> prompts (m ≫= k).
Proof.
  intros Hm Hk w. rewrite bind_run. specialize (Hm w).
  destruct (m w) as [[a|e|] w1]; simpl in *; try exact Hm.
  eapply prompted_trans; [exact Hm | apply Hk].
Qed.

Lemma prompts_input prompt : prompts (input prompt).
Proof.
  intros w. unfold input. destruct (stdin w) as [|line rest] eqn:Hin; simpl;
    (repeat split; [simpl; rewrite ?Hin; simpl; lia | eexists; split;
       [reflexivity | repeat constructor]]).
Qed.

Lemma prompts_datetime_now : prompts datetime_now.
Proof.
  intros w. repeat split; [reflexivity|]. exists []. split;
    [symmetry; apply app_nil_r | constructor].
Qed.

Lemma prompts_get_input_list_loop fuel prompt detail_prompt items :
  prompts (get_input_list_loop fuel prompt detail_prompt items).
Proof.
  revert items. induction fuel as [|fuel IH]; intros items.
  - intros w. apply prompted_refl.
  - rewrite get_input_list_loop_step.
    apply prompts_bind; [apply prompts_input|]. intros item.
    destruct (negb (nonempty item)); [apply prompts_ret|].
    apply prompts_bind; [|intros; apply IH].
    destruct detail_prompt as [[|c template]|]; try apply prompts_ret.
    apply prompts_bind; [apply prompts_input | intros; apply prompts_ret].
Qed.

Lemma prompts_get_input_list prompt detail_prompt :
  prompts (get_input_list prompt detail_prompt).
Proof. intros w. apply prompts_get_input_list_loop. Qed.

Lemma prompts_get_experiment_details : prompts get_experiment_details.
Proof.
  unfold get_experiment_details.
  apply prompts_bind; [apply prompts_datetime_now|]. intros now.
  repeat (apply prompts_bind;
          [first [apply prompts_input | apply prompts_get_input_list]|]; intros ?).
  apply prompts_ret.
Qed.

(** *** Readings of the clock *)

Lemma keeps_clock_ret {A} (a : A) : keeps_clock (mret a).
Proof. intros w. reflexivity. Qed.

Lemma keeps_clock_bind {A B} (m : M A) (k : A -> M B) :
  keeps_clock m -> (forall a, keeps_clock (k a)) -> keeps_clock (m ≫= k).
Proof.
  intros Hm Hk w. rewrite bind_run. specialize (Hm w).
  destruct (m w) as [[a|e|] w1]; cbn [snd] in *; try exact Hm.
  rewrite Hk. exact Hm.
Qed.

Lemma keeps_clock_input prompt : keeps_clock (input prompt).
Proof. intros w. unfold input. destruct (stdin w); reflexivity. Qed.

Lemma keeps_clock_get_input_list_loop fuel prompt detail_prompt items :
  keeps_clock (get_input_list_loop fuel prompt detail_prompt items).
Proof.
  revert items. induction fuel as [|fuel IH]; intros items.
  - intros w. reflexivity.
  - rewrite get_input_list_loop_step.
    apply keeps_clock_bind; [apply keeps_clock_input|]. intros item.
    destruct (negb (nonempty item)); [apply keeps_clock_ret|].
    apply keeps_clock_bind; [|intros; apply IH].
    destruct detail_prompt as [[|c template]|]; try apply keeps_clock_ret.
    apply keeps_clock_bind; [apply keeps_clock_input | intros; apply keeps_clock_ret].
Qed.

Lemma keeps_clock_get_input_list prompt detail_prompt :
  keeps_clock (get_input_list prompt detail_prompt).
Proof. intros w. apply keeps_clock_get_input_list_loop. Qed.

(** Collecting reads the clock once, before the first prompt, however it
    ends. *)
Lemma get_experiment_details_reads_once w :
  ticks (snd (get_experiment_details w)) = S (ticks w).
Proof.
  unfold get_experiment_details.
  change ((datetime_now ≫= ?k) w) with (k (clock (env w) (ticks w)) (tick w)).
  cbv beta zeta. change (S (ticks w)) with (ticks (tick w)).
  generalize (tick w) as w0. generalize (clock (env w) (ticks w)) as now.
  intros now.
  change (keeps_clock
    (title ← input (str "Experiment Title: ");
     experimenter ← input (str "Experimenter Name: ");
     project ← input (str "Project Name: ");
     chemicals ← get_input_list (str "Enter chemical (or press Enter to finish): ")
                                (Some (str "Amount of {item} used: "));
     equipment ← get_input_list (str "Enter equipment (or press Enter to finish): ")
                                None;
     procedure ← get_input_list
                   (str "Enter procedure step (or press Enter to finish): ") None;
     observations ← input (str "Observations: ");
     results ← input (str "Results: ");
     mret ({| title := title;
              experiment_id := str "EXP-" ++ strftime_YmdHMS now;
              date := datetime_str now;
              experimenter := experimenter;
              project := project;
              chemicals := chemicals;
              equipment := equipment;
              procedure := procedure;
              observations := observations;
              results := results |}, strftime_YmdHMS now))).
  repeat (apply keeps_clock_bind;
          [first [apply keeps_clock_input | apply keeps_clock_get_input_list]|];
          intros ?).
  apply keeps_clock_ret.
Qed.

(** *** The loop terminates *)

Lemma input_shortens prompt w line w' :
  input prompt w = (Return line, w') -> S (length (stdin w')) = length (stdin w).
Proof.
  unfold input. destruct (stdin w) as [|l rest] eqn:Hin; intros H;
    [discriminate H|]. injection H as _ <-. simpl. reflexivity.
Qed.

Lemma get_input_list_loop_fed fuel prompt detail_prompt items w :
  (length (stdin w) < fuel)%nat ->
  fst (get_input_list_loop fuel prompt detail_prompt items w) <> OutOfFuel.
Proof.
  revert items w. induction fuel as [|fuel IH]; intros items w Hfuel; [lia|].
  rewrite get_input_list_loop_step, bind_run.
  destruct (input prompt w) as [[item|e|] w1] eqn:Hin; try discriminate.
  - apply input_shortens in Hin.
    destruct (negb (nonempty item)); [discriminate|].
    rewrite bind_run.
    destruct detail_prompt as [[|c template]|].
    + rewrite ret_run. apply IH. lia.
    + rewrite bind_run.
      destruct (input _ w1) as [[detail|e|] w2] eqn:Hin2; try discriminate.
      * apply input_shortens in Hin2. rewrite ret_run. apply IH. lia.
      * unfold input in Hin2. destruct (stdin w1); discriminate Hin2.
    + rewrite ret_run. apply IH. lia.
  - unfold input in Hin. destruct (stdin w); discriminate Hin.
Qed.

(** [get_input_list] returns or raises [EOFError]; it never runs out of
    fuel. *)
Lemma get_input_list_terminates prompt detail_prompt w :
  fst (get_input_list prompt detail_prompt w) <> OutOfFuel.
Proof. apply get_input_list_loop_fed. lia. Qed.

Lemma bind_Return {A B} (m : M A) (k : A -> M B) w b w' :
  (m ≫= k) w = (Return b, w') ->
  exists a w1, m w = (Return a, w1) /\ k a w1 = (Return b, w').
Proof.
  rewrite bind_run. destruct (m w) as [[a|e|] w1]; intros H;
    [eauto | discriminate H | discriminate H].
Qed.

(** The identifier and the date of a collected record come from the one
    clock reading that also gives the timestamp. *)
Lemma get_experiment_details_timestamp w e timestamp w' :
  get_experiment_details w = (Return (e, timestamp), w') ->
  timestamp = strftime_YmdHMS (clock (env w) (ticks w)) /\
  experiment_id e = str "EXP-" ++ timestamp /\
  date e = datetime_str (clock (env w) (ticks w)).
Proof.
  unfold get_experiment_details. intros H.
  apply bind_Return in H as (now & w0 & Hnow & H).
  injection Hnow as <- <-.
  repeat (apply bind_Return in H as (? & ? & _ & H)).
  injection H as <- <- _. repeat split; reflexivity.
Qed.

Lemma pair_lines_length (pairs : list (pystr * pystr)) :
  length (flat_map pair_lines pairs) = (2 * length pairs)%nat.
Proof. induction pairs as [|p pairs IH]; simpl; [reflexivity | rewrite IH; lia]. Qed.

(** The amount prompt of the script, formatted. *)
Lemma format_item_amount item :
  format_item 0 (str "Amount of {item} used: ") item =
  str "Amount of " ++ item ++ str " used: ".
Proof. reflexivity. Qed.

Lemma pair_events_amount prompt (pairs : list (pystr * pystr)) :
  flat_map (pair_events prompt (str "Amount of {item} used: ")) pairs =
  flat_map (amount_events prompt) pairs.
Proof. reflexivity. Qed.

(** ** Claims on the input loop *)

(** Claim C3.  When the answers are a sequence of chemical names, none
    empty, each followed by its amount, and then an empty line, the loop
    returns a list with as many elements as names were entered; the element
    at each position is the text [<name> (<amount>)] of the name and amount
    entered at that position, so the elements are in entry order.  The
    answers after the empty line are left unread. *)
Theorem chemicals_in_entry_order prompt
    (pairs : list (pystr * pystr)) rest w :
  Forall (fun p => fst p <> []) pairs ->
  stdin w = flat_map pair_lines pairs ++ [] :: rest ->
  exists items w',
    get_input_list prompt (Some (str "Amount of {item} used: ")) w =
      (Return items, w') /\
    stdin w' = rest /\
    length items = length pairs /\
    forall i name amount,
      pairs !! i = Some (name, amount) ->
      items !! i = Some (name ++ str " (" ++ amount ++ str ")").
Proof.
  intros Hnames Hin. eexists _, _. split; [|split; [|split]].
  - unfold get_input_list.
    apply (get_input_list_loop_pairs prompt 65 (str "mount of {item} used: ")
             pairs Hnames _ [] rest w); [|exact Hin].
    rewrite Hin, length_app, pair_lines_length. simpl. lia.
  - reflexivity.
  - simpl. apply length_map.
  - intros i name amount Hi.
    change ((with_amount <$> pairs) !! i = Some (with_amount (name, amount))).
    rewrite list_lookup_fmap, Hi. reflexivity.
Qed.

(** ** The two reports *)

Lemma enumerate_rows numbered (items : list pystr) start :
  map (fun p => row_text numbered (fst p) (snd p)) (enumerate items start) =
  if numbered then spec_numbered start items else spec_bulleted items.
Proof.
  revert start. induction items as [|item items IH]; intros start; simpl.
  - destruct numbered; reflexivity.
  - rewrite IH. destruct numbered; reflexivity.
Qed.

Lemma pdf_blocks_rows rows rest :
  pdf_blocks (map (fun text => cell 0 Pdf.row_height text 1 true false) rows ++ rest) =
  map list_row rows ++ pdf_blocks rest.
Proof. induction rows as [|r rows IH]; simpl; [reflexivity | rewrite IH; reflexivity]. Qed.

Lemma pdf_blocks_list_table title items numbered rest :
  pdf_blocks (Pdf.add_list_table title items numbered ++ rest) =
  spec_list_section title
    (if numbered then spec_numbered 1 items else spec_bulleted items) ++
  pdf_blocks rest.
Proof.
  unfold Pdf.add_list_table.
  rewrite <- (enumerate_rows numbered items 1).
  destruct items as [|item items]; [reflexivity|].
  cbn [nonempty].
  rewrite <- (map_map (fun p => row_text numbered (fst p) (snd p))
                      (fun text => cell 0 Pdf.row_height text 1 true false)).
  set (rows := map _ (enumerate (item :: items) 1)).
  assert (Hrows : rows <> []) by (subst rows; discriminate).
  rewrite <- !app_assoc. cbn [app pdf_blocks]. rewrite pdf_blocks_rows.
  destruct rows; [contradiction Hrows; reflexivity | reflexivity].
Qed.

Lemma pdf_blocks_text_section title text rest :
  pdf_blocks (Pdf.add_text_section title text ++ rest) =
  spec_text_section title text ++ pdf_blocks rest.
Proof. destruct text; reflexivity. Qed.

(** The PDF shows the common structure. *)
Lemma pdf_blocks_calls e : pdf_blocks (Pdf.calls e) = spec_structure e.
Proof.
  unfold Pdf.calls, spec_structure.
  cbn [app flat_map fields fst snd pdf_blocks].
  rewrite !pdf_blocks_list_table, pdf_blocks_text_section.
  rewrite <- (app_nil_r (Pdf.add_text_section _ (results e))).
  rewrite pdf_blocks_text_section. cbn [pdf_blocks]. rewrite app_nil_r.
  reflexivity.
Qed.

Lemma docx_blocks_app a b : docx_blocks (a ++ b) = docx_blocks a ++ docx_blocks b.
Proof. apply flat_map_app. Qed.

Lemma docx_blocks_list_section title items numbered :
  docx_blocks (Word.add_list_section title items numbered) =
  spec_list_section title
    (if numbered then spec_numbered 1 items else spec_bulleted items).
Proof.
  unfold Word.add_list_section.
  rewrite <- (enumerate_rows numbered items 1).
  destruct items as [|item items]; [reflexivity|].
  cbn [nonempty]. set (en := enumerate (item :: items) 1).
  assert (Hen : en <> []) by (subst en; discriminate).
  assert (Hrows : forall l : list (nat * pystr),
            docx_blocks
              (map (fun p =>
                      if numbered
                      then docx_paragraph (row_text true (fst p) (snd p))
                                          (Some (str "List Number"))
                      else docx_paragraph (row_text false (fst p) (snd p))
                                          (Some (str "List Bullet"))) l) =
            map list_row (map (fun p => row_text numbered (fst p) (snd p)) l)).
  { induction l as [|p l IH]; [reflexivity|].
    cbn [map]. change (docx_blocks (?b :: ?bs)) with (docx_block_blocks b ++ docx_blocks bs).
    rewrite IH. destruct numbered; reflexivity. }
  change (docx_blocks (?b :: ?bs)) with (docx_block_blocks b ++ docx_blocks bs).
  rewrite Hrows. clearbody en. destruct en; [contradiction Hen; reflexivity | reflexivity].
Qed.

Lemma docx_blocks_text_section title text :
  docx_blocks (Word.add_text_section title text) = spec_text_section title text.
Proof. destruct text; reflexivity. Qed.

(** The Word document shows its title, then the common structure. *)
Lemma docx_blocks_body e :
  docx_blocks (Word.body e) =
  title_heading (str "Experiment Report") :: spec_structure e.
Proof.
  unfold Word.body, spec_structure.
  rewrite !docx_blocks_app, !docx_blocks_list_section, !docx_blocks_text_section.
  reflexivity.
Qed.

(** *** Sections of the common structure *)










(** *** Rows of a section *)

Lemma leading_rows_app rows rest :
  leading_rows (map list_row rows ++ rest) = rows ++ leading_rows rest.
Proof. induction rows as [|r rows IH]; simpl; [reflexivity | rewrite IH; reflexivity]. Qed.

Lemma leading_rows_list_section title rows rest :
  leading_rows (spec_list_section title rows ++ rest) =
  if nonempty rows then [] else leading_rows rest.
Proof. destruct rows; reflexivity. Qed.

Lemma leading_rows_text_section title text rest :
  leading_rows (spec_text_section title text ++ rest) =
  if nonempty text then [] else leading_rows rest.
Proof. destruct text; reflexivity. Qed.

(** After the rows of a list section of the common structure comes a
    header or the end of the report. *)
Lemma leading_rows_sections t1 r1 t2 r2 t3 x3 t4 x4 :
  leading_rows (spec_list_section t1 r1 ++ spec_list_section t2 r2 ++
                spec_text_section t3 x3 ++ spec_text_section t4 x4) = [].
Proof.
  rewrite !leading_rows_list_section, !leading_rows_text_section.
  rewrite <- (app_nil_r (spec_text_section t4 x4)), leading_rows_text_section.
  repeat match goal with |- context [if ?b then _ else _] => destruct b end;
    reflexivity.
Qed.

Lemma section_rows_skip title pre rest :
  Forall (fun b => b <> section_header title) pre ->
  section_rows title (pre ++ rest) = section_rows title rest.
Proof.
  induction 1 as [|b pre Hb _ IH]; [reflexivity|].
  simpl. rewrite bool_decide_eq_false_2 by exact Hb. exact IH.
Qed.

Lemma section_rows_here title rows rest :
  rows <> [] ->
  section_rows title (spec_list_section title rows ++ rest) =
  Some (rows ++ leading_rows rest).
Proof.
  destruct rows as [|r rows]; [congruence|]. intros _.
  unfold spec_list_section. cbn [app section_rows].
  rewrite bool_decide_eq_true_2 by reflexivity.
  rewrite leading_rows_app. reflexivity.
Qed.

Lemma list_section_other title title' rows :
  title <> title' ->
  Forall (fun b => b <> section_header title) (spec_list_section title' rows).
Proof.
  intros Hne. destruct rows as [|r rows]; [constructor|].
  unfold spec_list_section. constructor; [congruence|].
  generalize (r :: rows). intros l.
  induction l as [|x l IH]; constructor; [discriminate | exact IH].
Qed.

Lemma spec_numbered_lookup start items i :
  spec_numbered start items !! i =
  (fun item => str_of_nat (start + i) ++ str ". " ++ item) <$> items !! i.
Proof.
  revert start i. induction items as [|item items IH]; intros start [|i];
    try reflexivity.
  - simpl. rewrite Nat.add_0_r. reflexivity.
  - simpl. rewrite IH. rewrite Nat.add_succ_r. reflexivity.
Qed.

Lemma spec_bulleted_lookup items i :
  spec_bulleted items !! i = (fun item => str "- " ++ item) <$> items !! i.
Proof. unfold spec_bulleted. apply (list_lookup_fmap (fun item => str "- " ++ item)). Qed.

Lemma identity_rows_other e heading :
  Forall (fun b => b <> section_header heading)
    [ table_header (str "Field") (str "Value");
      table_row (str "Title") (title e);
      table_row (str "Experiment ID") (experiment_id e);
      table_row (str "Date") (date e);
      table_row (str "Experimenter") (experimenter e);
      table_row (str "Project") (project e) ].
Proof. repeat constructor; discriminate. Qed.

Lemma section_rows_procedure e :
  procedure e <> [] ->
  section_rows (str "Procedure") (spec_structure e) =
  Some (spec_numbered 1 (procedure e)).
Proof.
  intros Hp. unfold spec_structure.
  rewrite section_rows_skip by apply identity_rows_other.
  rewrite !section_rows_skip by (apply list_section_other; discriminate).
  rewrite section_rows_here.
  - rewrite <- (app_nil_l (spec_text_section _ (observations e) ++ _)).
    change [] with (spec_list_section [] []) at 1.
    rewrite <- (app_nil_l (spec_list_section [] [] ++ _)).
    change (@nil block) with (spec_list_section [] []) at 1.
    rewrite leading_rows_sections, app_nil_r. reflexivity.
  - destruct (procedure e); [contradiction Hp; reflexivity | discriminate].
Qed.

Lemma section_rows_chemicals e :
  chemicals e <> [] ->
  section_rows (str "Chemicals Used") (spec_structure e) =
  Some (spec_bulleted (chemicals e)).
Proof.
  intros Hc. unfold spec_structure.
  rewrite section_rows_skip by apply identity_rows_other.
  rewrite section_rows_here.
  - rewrite leading_rows_sections, app_nil_r. reflexivity.
  - destruct (chemicals e); [contradiction Hc; reflexivity | discriminate].
Qed.

Lemma section_rows_equipment e :
  equipment e <> [] ->
  section_rows (str "Equipment Used") (spec_structure e) =
  Some (spec_bulleted (equipment e)).
Proof.
  intros Hq. unfold spec_structure.
  rewrite section_rows_skip by apply identity_rows_other.
  rewrite section_rows_skip by (apply list_section_other; discriminate).
  rewrite section_rows_here.
  - rewrite <- (app_nil_l (spec_list_section _ (spec_numbered 1 _) ++ _)).
    change (@nil block) with (spec_list_section [] []) at 1.
    rewrite leading_rows_sections, app_nil_r. reflexivity.
  - destruct (equipment e); [contradiction Hq; reflexivity | discriminate].
Qed.

Lemma section_rows_docx title e :
  section_rows title (docx_blocks (Word.body e)) =
  section_rows title (spec_structure e).
Proof. rewrite docx_blocks_body. reflexivity. Qed.

Lemma spec_numbered_length start items :
  length (spec_numbered start items) = length items.
Proof.
  revert start. induction items as [|item items IH]; intros start; simpl;
    [reflexivity | rewrite IH; reflexivity].
Qed.

(** Claim C5.  For every record whose procedure is not empty, the rows under
    the Procedure header are the same in the PDF and in the Word document,
    one per step; the row at position [i] (counting from 0) is the step at
    position [i] of the procedure behind the prefix [<i+1>. ]: the steps keep
    their order and are numbered from 1.  The rows under Chemicals Used and
    under Equipment Used, when those lists are not empty, are the items in
    their order behind the prefix [- ]. *)
Theorem procedure_rows_numbered e :
  procedure e <> [] ->
  (exists rows,
     section_rows (str "Procedure") (pdf_blocks (Pdf.calls e)) = Some rows /\
     section_rows (str "Procedure") (docx_blocks (Word.body e)) = Some rows /\
     length rows = length (procedure e) /\
     forall i step,
       procedure e !! i = Some step ->
       rows !! i = Some (str_of_nat (S i) ++ str ". " ++ step)) /\
  (chemicals e <> [] -> bulleted_in_both (str "Chemicals Used") (chemicals e) e) /\
  (equipment e <> [] -> bulleted_in_both (str "Equipment Used") (equipment e) e).
Proof.
  intros Hp. split; [|split].
  - exists (spec_numbered 1 (procedure e)).
    rewrite section_rows_docx, pdf_blocks_calls, section_rows_procedure by exact Hp.
    repeat split; [apply spec_numbered_length|].
    intros i step Hi. rewrite spec_numbered_lookup, Hi. reflexivity.
  - intros Hc. exists (spec_bulleted (chemicals e)).
    rewrite section_rows_docx, pdf_blocks_calls, section_rows_chemicals by exact Hc.
    repeat split; [apply length_map|].
    intros i item Hi. rewrite spec_bulleted_lookup, Hi. reflexivity.
  - intros Hq. exists (spec_bulleted (equipment e)).
    rewrite section_rows_docx, pdf_blocks_calls, section_rows_equipment by exact Hq.
    repeat split; [apply length_map|].
    intros i item Hi. rewrite spec_bulleted_lookup, Hi. reflexivity.
Qed.

(** Claim C6, as the code has it.  For every record, what the PDF shows is
    the common structure: the Field/Value table, then the sections whose
    field is not empty, in the fixed order, with bulleted rows, numbered rows
    and blocks of free text.  What the Word document shows is its title,
    the heading [Experiment Report], followed by exactly what the PDF
    shows.  So the sections, their order, the omission rule and the row
    texts are the same, and besides styling the two documents differ in that
    title alone. *)
Theorem reports_share_structure e :
  pdf_blocks (Pdf.calls e) = spec_structure e /\
  docx_blocks (Word.body e) =
    title_heading (str "Experiment Report") :: pdf_blocks (Pdf.calls e).
Proof.
  split; [apply pdf_blocks_calls|].
  rewrite docx_blocks_body, pdf_blocks_calls. reflexivity.
Qed.

(** ** The log store *)

Lemma write_node_ok path content w :
  writable w path ->
  write_node path content w =
  (Return tt,
   log_event (ev_write path content) (set_fs (<[path := content]> (fs w)) w)).
Proof.
  intros [Hd Hdir]. unfold write_node.
  rewrite bool_decide_eq_false_2 by exact Hd.
  destruct (fs w !! path) as [[]|]; try reflexivity. contradiction Hdir; reflexivity.
Qed.

Lemma save_experiments_ok experiments path w :
  writable w path ->
  save_experiments experiments path w =
  (Return tt,
   let content := TextFile (json_dumps (float_repr (env w)) (JList experiments)) in
   log_event (ev_write path content) (set_fs (<[path := content]> (fs w)) w)).
Proof. intros H. unfold save_experiments, json_dump. apply write_node_ok, H. Qed.

(** A failed save changes nothing. *)
Lemma save_experiments_failed experiments path w r w' :
  save_experiments experiments path w = (r, w') -> r <> Return tt -> w' = w.
Proof.
  unfold save_experiments, json_dump, write_node.
  destruct (bool_decide _); [intros H; injection H as _ <-; reflexivity|].
  destruct (fs w !! path) as [[]|]; intros H; injection H as <- <-;
    intros Hr; try reflexivity; contradiction Hr; reflexivity.
Qed.

Lemma load_experiments_missing path w :
  fs w !! path = None ->
  load_experiments path w = (Return [], log_event (ev_exists path false) w).
Proof.
  intros H. unfold load_experiments. rewrite bind_run. unfold os_path_exists.
  rewrite H. rewrite bool_decide_eq_false_2 by (intros [x Hx]; discriminate Hx).
  reflexivity.
Qed.

Lemma load_experiments_text path text w :
  fs w !! path = Some (TextFile text) ->
  load_experiments path w =
  (Return match json_loads text with
          | Some (JList experiments) => experiments
          | _ => []
          end,
   log_event (ev_read path) (log_event (ev_exists path true) w)).
Proof.
  intros H. unfold load_experiments. rewrite bind_run. unfold os_path_exists.
  rewrite H. rewrite bool_decide_eq_true_2 by eauto.
  unfold try_except, json_load. rewrite bind_run, bind_run. unfold read_text.
  cbn [fs log_event]. rewrite H.
  destruct (json_loads text) as [[]|]; reflexivity.
Qed.

Lemma load_experiments_undecodable path w :
  fs w !! path = Some BinaryFile ->
  load_experiments path w =
  (Raise UnicodeDecodeError,
   log_event (ev_read path) (log_event (ev_exists path true) w)).
Proof.
  intros H. unfold load_experiments. rewrite bind_run. unfold os_path_exists.
  rewrite H. rewrite bool_decide_eq_true_2 by eauto.
  unfold try_except, json_load. rewrite bind_run, bind_run. unfold read_text.
  cbn [fs log_event]. rewrite H. reflexivity.
Qed.

(** Loading never runs out of fuel, and changes nothing but the trace. *)
Lemma load_experiments_frame path w :
  fst (load_experiments path w) <> OutOfFuel /\
  env (snd (load_experiments path w)) = env w /\
  fs (snd (load_experiments path w)) = fs w /\
  stdin (snd (load_experiments path w)) = stdin w.
Proof.
  unfold load_experiments. rewrite bind_run. unfold os_path_exists.
  destruct (bool_decide _); [|repeat split; discriminate].
  unfold try_except, json_load. rewrite bind_run, bind_run. unfold read_text.
  cbn [fs log_event].
  destruct (fs w !! path) as [[text| | | |]|];
    try (repeat split; discriminate).
  destruct (json_loads text) as [[]|]; repeat split; discriminate.
Qed.

Lemma load_experiments_clock path : keeps_clock (load_experiments path).
Proof.
  intros w. unfold load_experiments. rewrite bind_run. unfold os_path_exists.
  destruct (bool_decide _); [|reflexivity].
  unfold try_except, json_load. rewrite bind_run, bind_run. unfold read_text.
  cbn [fs log_event].
  destruct (fs w !! path) as [[text| | | |]|]; try reflexivity.
  destruct (json_loads text) as [[]|]; reflexivity.
Qed.

(** *** Records are plain values *)

Lemma plain_strings l : Forall text_ok l -> plain (JList (map JStr l)).
Proof.
  intros H. apply plain_list. induction H; constructor; assumption.
Qed.

Lemma plain_experiment e : experiment_ok e -> plain (experiment_to_json e).
Proof.
  intros (Ht & Hi & Hd & Hx & Hp & Hc & Hq & Hs & Ho & Hr).
  unfold experiment_to_json. apply plain_dict. split.
  - cbn [map fst]. apply NoDup_ListNoDup. vm_compute.
    repeat (constructor; [intros Hin; simpl in Hin; intuition discriminate|]).
    constructor.
  - repeat first
      [ apply List.Forall_nil
      | apply List.Forall_cons;
        [ split; cbn [fst snd];
          [ literal_ok
          | first [assumption | apply plain_strings; assumption] ] | ] ].
Qed.

Lemma plain_experiments R :
  Forall experiment_ok R -> plain (JList (map experiment_to_json R)).
Proof.
  intros H. apply plain_list. induction H; constructor;
    [apply plain_experiment; assumption | assumption].
Qed.

Lemma experiment_to_json_inj e1 e2 :
  experiment_to_json e1 = experiment_to_json e2 -> e1 = e2.
Proof.
  destruct e1 as [t1 i1 d1 x1 p1 c1 q1 s1 o1 r1],
           e2 as [t2 i2 d2 x2 p2 c2 q2 s2 o2 r2].
  unfold experiment_to_json. simpl.
  intros H. injection H as -> -> -> -> -> Hc Hq Hp -> ->.
  assert (Hinj : forall a b : list pystr, map JStr a = map JStr b -> a = b).
  { induction a as [|x a IH]; intros [|y b] Hab; try discriminate Hab;
      [reflexivity|]. injection Hab as -> Hab. f_equal. apply IH, Hab. }
  apply Hinj in Hc, Hq, Hp. subst. reflexivity.
Qed.

(** What was saved is what is loaded. *)
Lemma load_after_save (l : list json) path w w' :
  plain (JList l) -> writable w path ->
  save_experiments l path w = (Return tt, w') ->
  fst (load_experiments path w') = Return l /\
  env (snd (load_experiments path w')) = env w /\
  fs (snd (load_experiments path w')) =
    <[path := TextFile (json_dumps (float_repr (env w)) (JList l))]> (fs w).
Proof.
  intros Hp Hw. rewrite save_experiments_ok by exact Hw.
  intros H. injection H as <-. cbv zeta.
  erewrite load_experiments_text by (cbn [fs log_event set_fs]; apply lookup_insert_eq).
  rewrite json_loads_dumps by exact Hp.
  repeat split.
Qed.

(** Claim C1, as the code has it.  Let [R] be a sequence of records none of
    whose strings has a high surrogate directly followed by a low surrogate
    (every string of Unicode scalar values is such a string), and let [p]
    and [p2] be paths that may be written.  Saving [R] to [p], loading [p],
    saving what was loaded to [p2] and loading [p2] returns the dictionaries
    of [R], in the order of [R], each with the ten keys in their order and
    the values of the record. *)
Theorem log_round_trip (R : list experiment) p p2 w :
  Forall experiment_ok R -> writable w p -> writable w p2 ->
  fst (round_trip R p p2 w) = Return (map experiment_to_json R).
Proof.
  intros HR Hp Hp2. pose proof (plain_experiments R HR) as Hplain.
  unfold round_trip. rewrite bind_run.
  rewrite save_experiments_ok by exact Hp. cbv zeta.
  set (w1 := log_event _ _).
  assert (Hsave : save_experiments (map experiment_to_json R) p w = (Return tt, w1))
    by (apply save_experiments_ok, Hp).
  destruct (load_after_save _ p w w1 Hplain Hp Hsave) as (Hl & He & Hf).
  rewrite bind_run.
  destruct (load_experiments p w1) as [r w2]. simpl in Hl, He, Hf. subst r.
  assert (Hw2 : writable w2 p2).
  { destruct Hp2 as [Hd Hdir]. split; [rewrite He; exact Hd|]. rewrite Hf.
    destruct (decide (p = p2)) as [->|Hne].
    - rewrite lookup_insert_eq. discriminate.
    - rewrite lookup_insert_ne by exact Hne. exact Hdir. }
  rewrite bind_run.
  rewrite save_experiments_ok by exact Hw2. cbv zeta.
  set (w3 := log_event _ _).
  assert (Hsave2 : save_experiments (map experiment_to_json R) p2 w2 = (Return tt, w3))
    by (apply save_experiments_ok, Hw2).
  apply (load_after_save _ p2 w2 w3 Hplain Hw2 Hsave2).
Qed.

(** ** The orchestrator *)

Lemma writable_dec w path : {writable w path} + {~ writable w path}.
Proof.
  unfold writable.
  destruct (decide (path ∈ denied (env w))); [right; tauto|].
  destruct (fs w !! path) as [[]|];
    first [left; split; [assumption | discriminate] | right; tauto].
Qed.

Lemma save_experiments_refused experiments path w :
  ~ writable w path ->
  exists x, save_experiments experiments path w = (Raise x, w).
Proof.
  intros Hw. unfold save_experiments, json_dump, write_node.
  destruct (decide (path ∈ denied (env w))) as [Hd|Hd].
  - rewrite bool_decide_eq_true_2 by exact Hd. eauto.
  - rewrite bool_decide_eq_false_2 by exact Hd.
    destruct (fs w !! path) as [[]|] eqn:E; eauto;
      contradiction Hw; split; congruence.
Qed.

(** A file is written, or nothing happens. *)
Lemma write_node_run name content w :
  write_node name content w =
    (Return tt,
     log_event (ev_write name content) (set_fs (<[name := content]> (fs w)) w)) \/
  exists x, write_node name content w = (Raise x, w).
Proof.
  destruct (writable_dec w name) as [Hw|Hw].
  - left. apply write_node_ok, Hw.
  - right. unfold write_node.
    destruct (decide (name ∈ denied (env w))) as [Hd|Hd].
    + rewrite bool_decide_eq_true_2 by exact Hd. eauto.
    + rewrite bool_decide_eq_false_2 by exact Hd.
      destruct (fs w !! name) as [[]|] eqn:E; eauto;
        contradiction Hw; split; congruence.
Qed.

(** A report is written and announced, or nothing happens. *)
Lemma generate_pdf_report_run e timestamp w :
  generate_pdf_report e timestamp w = (Return tt, after_pdf w e timestamp) \/
  exists x, generate_pdf_report e timestamp w = (Raise x, w).
Proof.
  unfold generate_pdf_report. cbv zeta. rewrite bind_run. unfold pdf_output.
  destruct (fpdf_accepts (env w) (Pdf.calls e)); [|right; eauto].
  destruct (write_node_run (str "experiment_report_" ++ timestamp ++ str ".pdf")
              (PdfFile (Pdf.calls e)) w) as [H|[x H]]; rewrite H.
  - left. reflexivity.
  - right. eauto.
Qed.

Lemma generate_word_report_run e timestamp w :
  generate_word_report e timestamp w = (Return tt, after_word w e timestamp) \/
  exists x, generate_word_report e timestamp w = (Raise x, w).
Proof.
  unfold generate_word_report. cbv zeta. rewrite bind_run. unfold doc_save.
  destruct (docx_accepts (env w) (Word.body e)); [|right; eauto].
  destruct (write_node_run (str "experiment_report_" ++ timestamp ++ str ".docx")
              (DocxFile (Word.body e)) w) as [H|[x H]]; rewrite H.
  - left. reflexivity.
  - right. eauto.
Qed.

Lemma print_run text w : print text w = (Return tt, log_event (ev_print text) w).
Proof. reflexivity. Qed.

(** Every run ends in one of the six ways. *)
Lemma log_experiment_outcome w :
  outcome w (fst (log_experiment w)) (snd (log_experiment w)).
Proof.
  destruct (log_experiment w) as [r w'] eqn:Hrun. cbn [fst snd].
  revert Hrun. unfold log_experiment. rewrite bind_run.
  destruct (get_experiment_details w) as [[[e timestamp]|x|] w1] eqn:Hc;
    [ | intros H; injection H as <- <-;
        eapply stopped_collecting; [exact Hc | reflexivity]
      | intros H; injection H as <- <-;
        eapply stopped_collecting; [exact Hc | reflexivity] ].
  rewrite bind_run.
  destruct (load_experiments experiment_log w1) as [[loaded|x|] w2] eqn:Hl;
    [ | intros H; injection H as <- <-;
        eapply stopped_loading; [exact Hc | exact Hl | reflexivity]
      | intros H; injection H as <- <-;
        eapply stopped_loading; [exact Hc | exact Hl | reflexivity] ].
  cbv zeta. rewrite bind_run.
  destruct (writable_dec w2 experiment_log) as [Hw|Hw].
  - rewrite save_experiments_ok by exact Hw. cbv zeta.
    rewrite bind_run, print_run. fold (saved_log w2 loaded e).
    fold (after_save w2 loaded e).
    rewrite bind_run.
    destruct (generate_pdf_report_run e timestamp (after_save w2 loaded e))
      as [Hp|[x Hp]]; rewrite Hp.
    + destruct (generate_word_report_run e timestamp
                  (after_pdf (after_save w2 loaded e) e timestamp))
        as [Hd|[x Hd]]; rewrite Hd; intros H; injection H as <- <-.
      * eapply finished; eassumption.
      * eapply stopped_word; eassumption.
    + intros H; injection H as <- <-. eapply stopped_pdf; eassumption.
  - destruct (save_experiments_refused (loaded ++ [experiment_to_json e])
                experiment_log w2 Hw) as [x Hs].
    rewrite Hs. intros H; injection H as <- <-.
    eapply stopped_saving; eassumption.
Qed.

(** *** The steps a trace shows *)

Lemma squash_repeat x n l : squash (repeat x (S n) ++ l) = squash (x :: l).
Proof.
  induction n as [|n IH]; [reflexivity|].
  change (repeat x (S (S n)) ++ l) with (x :: (repeat x (S n) ++ l)).
  cbn [squash]. change (repeat x (S n) ++ l) with (x :: (repeat x n ++ l)) at 1.
  cbv iota. rewrite decide_True by reflexivity. exact IH.
Qed.

Lemma omap_inputs evs :
  Forall is_input evs -> omap step_of evs = repeat Collect (length evs).
Proof.
  induction 1 as [|ev evs Hev _ IH]; [reflexivity|].
  destruct ev as [prompt response| | | |]; try contradiction.
  change (omap step_of (ev_input prompt response :: evs))
    with (Collect :: omap step_of evs).
  rewrite IH. reflexivity.
Qed.

Lemma steps_collect evs rest :
  Forall is_input evs -> evs <> [] ->
  steps (evs ++ rest) = squash (Collect :: omap step_of rest).
Proof.
  intros Hin Hne. unfold steps. rewrite omap_app, omap_inputs by exact Hin.
  destruct evs as [|ev evs]; [contradiction Hne; reflexivity|].
  apply squash_repeat.
Qed.

Lemma bind_grows {A B} (m : M A) (k : A -> M B) w :
  (length (trace w) < length (trace (snd (m w))))%nat ->
  (forall a, prompts (k a)) ->
  (length (trace w) < length (trace (snd ((m ≫= k) w))))%nat.
Proof.
  intros Hm Hk. rewrite bind_run.
  destruct (m w) as [[a|x|] w1]; cbn [snd] in *; try exact Hm.
  destruct (Hk a w1) as (_ & _ & _ & evs & Hevs & _).
  rewrite Hevs, length_app. lia.
Qed.

Lemma input_grows prompt w :
  (length (trace w) < length (trace (snd (input prompt w))))%nat.
Proof.
  unfold input. destruct (stdin w); cbn [snd log_event set_stdin trace];
    rewrite length_app; simpl; lia.
Qed.

(** Collecting always prompts at least once. *)
Lemma get_experiment_details_trace w :
  exists evs,
    trace (snd (get_experiment_details w)) = trace w ++ evs /\
    Forall is_input evs /\ evs <> [].
Proof.
  destruct (prompts_get_experiment_details w) as (_ & _ & _ & evs & Hevs & Hall).
  exists evs. split; [exact Hevs|]. split; [exact Hall|].
  assert (Hlen : (length (trace w) <
                  length (trace (snd (get_experiment_details w))))%nat).
  { unfold get_experiment_details.
    change ((datetime_now ≫= ?k) w) with (k (clock (env w) (ticks w)) (tick w)).
    cbv beta zeta. change (trace w) with (trace (tick w)).
    apply bind_grows; [apply input_grows|]. intros ?.
    repeat (apply prompts_bind;
            [first [apply prompts_input | apply prompts_get_input_list]|];
            intros ?).
    apply prompts_ret. }
  rewrite Hevs, length_app in Hlen. intros ->. simpl in Hlen. lia.
Qed.

Lemma load_experiments_directory path w :
  fs w !! path = Some Directory ->
  load_experiments path w =
  (Raise IsADirectoryError, log_event (ev_exists path true) w).
Proof.
  intros H. unfold load_experiments. rewrite bind_run. unfold os_path_exists.
  rewrite H. rewrite bool_decide_eq_true_2 by eauto.
  unfold try_except, json_load. rewrite bind_run, bind_run. unfold read_text.
  cbn [fs log_event]. rewrite H. reflexivity.
Qed.

Lemma load_experiments_not_text path w content :
  fs w !! path = Some content ->
  match content with TextFile _ | Directory => False | _ => True end ->
  load_experiments path w =
  (Raise UnicodeDecodeError,
   log_event (ev_read path) (log_event (ev_exists path true) w)).
Proof.
  intros H Hc. unfold load_experiments. rewrite bind_run. unfold os_path_exists.
  rewrite H. rewrite bool_decide_eq_true_2 by eauto.
  unfold try_except, json_load. rewrite bind_run, bind_run. unfold read_text.
  cbn [fs log_event]. rewrite H. destruct content; try contradiction; reflexivity.
Qed.

Lemma writes_app a b : writes (a ++ b) = writes a ++ writes b.
Proof. apply omap_app. Qed.

Lemma writes_inputs evs : Forall is_input evs -> writes evs = [].
Proof.
  induction 1 as [|ev evs Hev _ IH]; [reflexivity|].
  destruct ev as [prompt response| | | |]; try contradiction. exact IH.
Qed.

Lemma load_experiments_trace path w :
  exists evs n,
    trace (snd (load_experiments path w)) = trace w ++ evs /\
    omap step_of evs = repeat Load (S n) /\ writes evs = [].
Proof.
  destruct (fs w !! path) as [content|] eqn:H.
  - destruct content as [text| | | |].
    + rewrite (load_experiments_text _ _ _ H). eexists [_; _], 1%nat.
      split; [cbn; rewrite <- app_assoc; reflexivity | split; reflexivity].
    + rewrite (load_experiments_not_text _ _ _ H I). eexists [_; _], 1%nat.
      split; [cbn; rewrite <- app_assoc; reflexivity | split; reflexivity].
    + rewrite (load_experiments_not_text _ _ _ H I). eexists [_; _], 1%nat.
      split; [cbn; rewrite <- app_assoc; reflexivity | split; reflexivity].
    + rewrite (load_experiments_not_text _ _ _ H I). eexists [_; _], 1%nat.
      split; [cbn; rewrite <- app_assoc; reflexivity | split; reflexivity].
    + rewrite (load_experiments_directory _ _ H). eexists [_], 0%nat.
      split; [reflexivity | split; reflexivity].
  - rewrite (load_experiments_missing _ _ H). eexists [_], 0%nat.
    split; [reflexivity | split; reflexivity].
Qed.

(** The trace once the record is collected and the log read. *)
Lemma collected_and_loaded w e timestamp w1 x w2 :
  get_experiment_details w = (Return (e, timestamp), w1) ->
  load_experiments experiment_log w1 = (x, w2) ->
  env w2 = env w /\ fs w2 = fs w /\
  exists evs,
    trace w2 = trace w ++ evs /\ writes evs = [] /\
    forall rest,
      steps (evs ++ rest) = Collect :: squash (Load :: omap step_of rest).
Proof.
  intros Hc Hl.
  destruct (prompts_get_experiment_details w) as (He1 & Hf1 & _).
  destruct (get_experiment_details_trace w) as (ins & Hins & Hall & Hne).
  rewrite Hc in He1, Hf1, Hins. cbn [snd] in He1, Hf1, Hins.
  destruct (load_experiments_frame experiment_log w1) as (_ & He2 & Hf2 & _).
  destruct (load_experiments_trace experiment_log w1)
    as (loads & n & Hloads & Hn & Hwr).
  rewrite Hl in He2, Hf2, Hloads. cbn [snd] in He2, Hf2, Hloads.
  split; [congruence|]. split; [congruence|].
  exists (ins ++ loads). split; [rewrite Hloads, Hins, app_assoc; reflexivity|].
  split; [rewrite writes_app, Hwr, writes_inputs by exact Hall; reflexivity|].
  intros rest. rewrite <- app_assoc, steps_collect by assumption.
  rewrite omap_app, Hn.
  change (squash (Collect :: repeat Load (S n) ++ omap step_of rest))
    with (Collect :: squash (repeat Load (S n) ++ omap step_of rest)).
  rewrite squash_repeat. reflexivity.
Qed.

Lemma report_is_not_the_log timestamp extension :
  str "experiment_report_" ++ timestamp ++ extension <> experiment_log.
Proof. intros H. vm_compute in H. discriminate H. Qed.

Lemma pdf_is_not_docx timestamp : pdf_name timestamp <> docx_name timestamp.
Proof.
  unfold pdf_name, docx_name. intros H.
  apply app_inv_head, app_inv_head in H. discriminate H.
Qed.


(** ** The timestamp *)

(** A property checked for every number below a bound. *)
Lemma below_bound (P : N -> bool) (bound : N) :
  forallb P (map N.of_nat (seq 0 (N.to_nat bound))) = true ->
  forall n, n < bound -> P n = true.
Proof.
  intros H n Hn. rewrite forallb_forall in H. apply H.
  apply in_map_iff. exists (N.to_nat n). split; [apply N2Nat.id|].
  apply in_seq. lia.
Qed.

Lemma pad2_digits n : n < 100 -> digits_of_width 2 (pad2 n) = true.
Proof. apply (below_bound (fun n => digits_of_width 2 (pad2 n)) 100). vm_compute. reflexivity. Qed.

Lemma pad4_digits n : n < 10000 -> digits_of_width 4 (pad4 n) = true.
Proof. apply (below_bound (fun n => digits_of_width 4 (pad4 n)) 10000). vm_compute. reflexivity. Qed.

Lemma digits_of_width_app a b s t :
  digits_of_width a s = true -> digits_of_width b t = true ->
  digits_of_width (a + b) (s ++ t) = true.
Proof.
  unfold digits_of_width. rewrite !andb_true_iff, !Nat.eqb_eq.
  intros [Hs Ha] [Ht Hb]. rewrite forallb_app, Hs, Ht, length_app.
  split; [reflexivity | lia].
Qed.

(** The timestamp of a valid clock reading is fourteen digits. *)
Lemma strftime_fourteen_digits d :
  valid_datetime d -> digits_of_width 14 (strftime_YmdHMS d) = true.
Proof.
  intros (Hy & Hm & Hd & Hh & Hmi & Hs & _). unfold strftime_YmdHMS.
  apply (digits_of_width_app 4 10); [apply pad4_digits; lia|].
  apply (digits_of_width_app 2 8); [apply pad2_digits; lia|].
  apply (digits_of_width_app 2 6); [apply pad2_digits; lia|].
  apply (digits_of_width_app 2 4); [apply pad2_digits; lia|].
  apply (digits_of_width_app 2 2); apply pad2_digits; lia.
Qed.

(** ** Claims on a whole run *)

(** A run that returns went through all six steps. *)
Lemma finished_run w w' :
  log_experiment w = (Return tt, w') ->
  exists e timestamp w1 loaded w2,
    get_experiment_details w = (Return (e, timestamp), w1) /\
    load_experiments experiment_log w1 = (Return loaded, w2) /\
    writable w2 experiment_log /\
    w' = after_word (after_pdf (after_save w2 loaded e) e timestamp) e timestamp.
Proof.
  intros Hrun. pose proof (log_experiment_outcome w) as Hout.
  rewrite Hrun in Hout. cbn [fst snd] in Hout.
  inversion Hout as
    [ x w1 r Hc Hx
    | e ts w1 x w2 r Hc Hl Hx
    | | | | e ts w1 loaded w2 Hc Hl Hw ]; subst.
  - destruct x; [contradiction Hx | discriminate Hx | discriminate Hx].
  - destruct x; [contradiction Hx | discriminate Hx | discriminate Hx].
  - eauto 10.
Qed.

(** The list a load returns depends on the files only. *)
Lemma load_experiments_same_files path w1 w :
  fs w1 = fs w ->
  fst (load_experiments path w1) = fst (load_experiments path w).
Proof.
  intros Hfs. destruct (fs w !! path) as [content|] eqn:H.
  - assert (H1 : fs w1 !! path = Some content) by (rewrite Hfs; exact H).
    destruct content as [text| | | |].
    + rewrite (load_experiments_text _ _ _ H), (load_experiments_text _ _ _ H1).
      reflexivity.
    + rewrite (load_experiments_not_text _ _ _ H I),
        (load_experiments_not_text _ _ _ H1 I). reflexivity.
    + rewrite (load_experiments_not_text _ _ _ H I),
        (load_experiments_not_text _ _ _ H1 I). reflexivity.
    + rewrite (load_experiments_not_text _ _ _ H I),
        (load_experiments_not_text _ _ _ H1 I). reflexivity.
    + rewrite (load_experiments_directory _ _ H),
        (load_experiments_directory _ _ H1). reflexivity.
  - assert (H1 : fs w1 !! path = None) by (rewrite Hfs; exact H).
    rewrite (load_experiments_missing _ _ H), (load_experiments_missing _ _ H1).
    reflexivity.
Qed.

(** The writes of a run that returns. *)
Lemma finished_run_writes w e timestamp w1 loaded w2 :
  get_experiment_details w = (Return (e, timestamp), w1) ->
  load_experiments experiment_log w1 = (Return loaded, w2) ->
  exists new,
    trace (after_word (after_pdf (after_save w2 loaded e) e timestamp)
                      e timestamp) = trace w ++ new /\
    writes new =
      [ (experiment_log, saved_log w2 loaded e);
        (pdf_name timestamp, PdfFile (Pdf.calls e));
        (docx_name timestamp, DocxFile (Word.body e)) ].
Proof.
  intros Hc Hl.
  destruct (collected_and_loaded _ _ _ _ _ _ Hc Hl) as (_ & _ & evs & Htr & Hwr & _).
  eexists (evs ++ [_; _; _; _; _; _]). split.
  - cbn [after_word after_pdf after_report after_save log_event trace set_fs].
    rewrite Htr, <- !app_assoc. reflexivity.
  - rewrite writes_app, Hwr. reflexivity.
Qed.




(** Claim C9.  Let a run return, the clock showing a valid date and time.
    The run reads the clock once.  The timestamp is that reading printed as
    year, month, day, hour, minute and second, fourteen decimal digits; the
    record's [experiment_id] is [EXP-] followed by the timestamp; the two
    reports are the files [experiment_report_<timestamp>.pdf] and
    [experiment_report_<timestamp>.docx] with that same timestamp, and
    besides the log they are the only files the run writes. *)
Theorem reports_named_by_timestamp w w' :
  valid_datetime (clock (env w) (ticks w)) ->
  log_experiment w = (Return tt, w') ->
  exists e timestamp w1,
    get_experiment_details w = (Return (e, timestamp), w1) /\
    ticks w' = S (ticks w) /\
    timestamp = strftime_YmdHMS (clock (env w) (ticks w)) /\
    length timestamp = 14%nat /\
    Forall (fun c => is_digit c = true) timestamp /\
    experiment_id e = str "EXP-" ++ timestamp /\
    fs w' !! (str "experiment_report_" ++ timestamp ++ str ".pdf") =
      Some (PdfFile (Pdf.calls e)) /\
    fs w' !! (str "experiment_report_" ++ timestamp ++ str ".docx") =
      Some (DocxFile (Word.body e)) /\
    exists new,
      trace w' = trace w ++ new /\
      map fst (writes new) =
        [ experiment_log;
          str "experiment_report_" ++ timestamp ++ str ".pdf";
          str "experiment_report_" ++ timestamp ++ str ".docx" ].
Proof.
  intros Hvalid Hrun.
  destruct (finished_run w w' Hrun) as (e & ts & w1 & loaded & w2 & Hc & Hl & Hw & ->).
  destruct (get_experiment_details_timestamp _ _ _ _ Hc) as (Hts & Hid & _).
  pose proof (strftime_fourteen_digits _ Hvalid) as Hdigits.
  rewrite <- Hts in Hdigits. unfold digits_of_width in Hdigits.
  apply andb_true_iff in Hdigits as [Hall Hlen].
  exists e, ts, w1. split; [exact Hc|].
  split.
  { cbn [after_word after_pdf after_report after_save log_event ticks set_fs].
    pose proof (load_experiments_clock experiment_log w1) as Hload.
    pose proof (get_experiment_details_reads_once w) as Hread.
    rewrite Hl in Hload. rewrite Hc in Hread. cbn [snd] in Hload, Hread.
    rewrite Hload. exact Hread. }
  split; [exact Hts|].
  split; [apply Nat.eqb_eq, Hlen|].
  split; [apply Forall_forall; intros c Hin; rewrite forallb_forall in Hall;
          apply Hall, list_elem_of_In, Hin|].
  split; [exact Hid|].
  split.
  { cbn [after_word after_pdf after_report after_save log_event fs set_fs].
    rewrite lookup_insert_ne by (symmetry; apply pdf_is_not_docx).
    apply lookup_insert_eq. }
  split.
  { cbn [after_word after_pdf after_report after_save log_event fs set_fs].
    apply lookup_insert_eq. }
  destruct (finished_run_writes _ _ _ _ _ _ Hc Hl) as (new & Htr & Hwr).
  exists new. split; [exact Htr|]. rewrite Hwr. reflexivity.
Qed.

(** The loop returns only after an empty answer to the item prompt. *)
Lemma get_input_list_loop_returns fuel prompt detail_prompt items w l w' :
  get_input_list_loop fuel prompt detail_prompt items w = (Return l, w') ->
  exists evs, trace w' = trace w ++ evs ++ [ev_input prompt (Some [])].
Proof.
  revert items w. induction fuel as [|fuel IH]; intros items w; [discriminate|].
  rewrite get_input_list_loop_step, bind_run. unfold input at 1.
  destruct (stdin w) as [|line rest]; [discriminate|].
  destruct line as [|c0 line]; cbn [negb nonempty].
  - rewrite ret_run. intros H. injection H as _ <-. exists []. reflexivity.
  - rewrite bind_run.
    set (w1 := log_event _ _).
    assert (Hnext : forall a w2,
              (exists evs, trace w2 = trace w1 ++ evs) ->
              get_input_list_loop fuel prompt detail_prompt (items ++ [a]) w2 =
                (Return l, w') ->
              exists evs, trace w' = trace w ++ evs ++ [ev_input prompt (Some [])]).
    { intros a w2 [evs2 Hevs2] H.
      apply IH in H as [evs H]. rewrite H, Hevs2. subst w1.
      cbn [trace log_event set_stdin].
      exists ([ev_input prompt (Some (c0 :: line))] ++ evs2 ++ evs).
      rewrite <- !app_assoc. reflexivity. }
    destruct detail_prompt as [[|c template]|].
    + rewrite ret_run. cbv beta iota. apply Hnext. exists []. symmetry. apply app_nil_r.
    + rewrite bind_run.
      destruct (input (format_item 0 (c :: template) (c0 :: line)) w1)
        as [[detail|e|] w2] eqn:Hin; try discriminate.
      rewrite ret_run. cbv beta iota. apply Hnext.
      destruct (prompts_input (format_item 0 (c :: template) (c0 :: line)) w1)
        as (_ & _ & _ & evs & Hevs & _).
      rewrite Hin in Hevs. eauto.
    + rewrite ret_run. cbv beta iota. apply Hnext. exists []. symmetry. apply app_nil_r.
Qed.

(** Claim C10.  Whenever the chemicals loop returns, the last thing it did
    was to read an empty answer to the item prompt: nothing else ends it.
    And when the answers are names with their amounts, then a name with an
    empty amount, then more names with their amounts, and then an empty
    line, the loop asks for each name once and for the amount of each name
    once, in that order and with no prompt repeated or left out, and returns
    all the elements in entry order, the one for the empty amount being
    [<item> ()]. *)
Theorem empty_amount_is_kept prompt :
  (forall w items w',
     get_input_list prompt (Some (str "Amount of {item} used: ")) w =
       (Return items, w') ->
     exists evs, trace w' = trace w ++ evs ++ [ev_input prompt (Some [])]) /\
  (forall (before after : list (pystr * pystr)) item rest w,
     item <> [] ->
     Forall (fun p => fst p <> []) before ->
     Forall (fun p => fst p <> []) after ->
     stdin w = flat_map pair_lines before ++ item :: [] ::
               flat_map pair_lines after ++ [] :: rest ->
     exists w',
       get_input_list prompt (Some (str "Amount of {item} used: ")) w =
         (Return (map with_amount before ++ (item ++ str " ()") ::
                  map with_amount after), w') /\
       stdin w' = rest /\
       trace w' = trace w ++
                  flat_map (amount_events prompt)
                           (before ++ (item, []) :: after) ++
                  [ev_input prompt (Some [])]).
Proof.
  split.
  { intros w items w'. apply get_input_list_loop_returns. }
  intros before after item rest w Hitem Hbefore Hafter Hin.
  assert (Hnames : Forall (fun p : pystr * pystr => fst p <> [])
                          (before ++ (item, []) :: after)).
  { apply Forall_app. split; [exact Hbefore|]. constructor; [exact Hitem | exact Hafter]. }
  assert (Hlines : stdin w =
            flat_map pair_lines (before ++ (item, []) :: after) ++ [] :: rest).
  { rewrite Hin, flat_map_app. simpl. rewrite <- !app_assoc. reflexivity. }
  eexists. split.
  - unfold get_input_list.
    rewrite (get_input_list_loop_pairs prompt 65 (str "mount of {item} used: ")
               _ Hnames _ [] rest w);
      [ | rewrite Hlines, !length_app, pair_lines_length, length_app; simpl; lia
        | exact Hlines ].
    rewrite map_app. reflexivity.
  - split; [reflexivity|]. cbn [trace]. rewrite <- pair_events_amount. reflexivity.
Qed.

(** ** The claims at sample inputs *)

(** The end-to-end scenario: one record is collected and logged. *)
Example end_to_end :
  fst (get_experiment_details (demo_world demo_lines ∅)) =
    Return (demo_experiment, str "20240307090500") /\
  fst (log_experiment (demo_world demo_lines ∅)) = Return tt /\
  fst (load_experiments experiment_log
         (snd (log_experiment (demo_world demo_lines ∅)))) =
    Return [experiment_to_json demo_experiment].
Proof. vm_compute. repeat split. Qed.

Example numbered_three :
  spec_numbered 1 [str "Mix"; str "Heat"; str "Cool"] =
  [str "1. Mix"; str "2. Heat"; str "3. Cool"].
Proof. reflexivity. Qed.

Example demo_procedure_rows :
  section_rows (str "Procedure") (pdf_blocks (Pdf.calls demo_experiment)) =
    Some [str "1. Mix"; str "2. Heat"] /\
  section_rows (str "Procedure") (docx_blocks (Word.body demo_experiment)) =
    Some [str "1. Mix"; str "2. Heat"].
Proof. split; vm_compute; reflexivity. Qed.

(** A lone surrogate is written as its escape and read back as itself. *)
Example lone_surrogate_is_kept :
  fst (round_trip [titled [0xdc80]] (str "a.json") (str "b.json")
                  (demo_world [] ∅)) =
  Return [experiment_to_json (titled [0xdc80])].
Proof. vm_compute. reflexivity. Qed.

(** A high surrogate and the low surrogate after it are written as two
    escapes, which the decoder reads as one code point. *)
Example surrogate_pair_is_joined :
  fst (round_trip [titled [0xd800; 0xdc00]] (str "a.json") (str "b.json")
                  (demo_world [] ∅)) =
  Return [experiment_to_json (titled [0x10000])].
Proof. vm_compute. reflexivity. Qed.

(** Claim C1 as stated fails for a record whose title is a high surrogate
    followed by a low surrogate: after the round trip the title is the one
    code point U+10000, so the list loaded is not the list saved. *)
Lemma surrogate_pair_not_preserved :
  fst (round_trip [titled [0xd800; 0xdc00]] (str "a.json") (str "b.json")
                  (demo_world [] ∅)) <>
  Return (map experiment_to_json [titled [0xd800; 0xdc00]]).
Proof. rewrite surrogate_pair_is_joined. vm_compute. intros H. discriminate H. Qed.

Lemma demo_experiment_ok : experiment_ok demo_experiment.
Proof.
  unfold experiment_ok, demo_experiment. cbn [title experiment_id date experimenter
    project chemicals equipment procedure observations results].
  repeat split; repeat (apply List.Forall_cons || apply List.Forall_nil);
    repeat split; try reflexivity; repeat constructor.
Qed.

Lemma demo_writable path : writable (demo_world [] ∅) path.
Proof.
  split; [apply not_elem_of_empty|]. cbn [fs demo_world].
  rewrite lookup_empty. discriminate.
Qed.

(** Claim C1 at the record of the end-to-end scenario. *)
Lemma log_round_trip_witness :
  Forall experiment_ok [demo_experiment] /\
  writable (demo_world [] ∅) (str "a.json") /\
  writable (demo_world [] ∅) (str "b.json") /\
  fst (round_trip [demo_experiment] (str "a.json") (str "b.json")
                  (demo_world [] ∅)) =
  Return (map experiment_to_json [demo_experiment]).
Proof.
  assert (H : Forall experiment_ok [demo_experiment])
    by (constructor; [apply demo_experiment_ok | constructor]).
  split; [exact H|]. split; [apply demo_writable|]. split; [apply demo_writable|].
  apply (log_round_trip [demo_experiment] (str "a.json") (str "b.json")
           (demo_world [] ∅) H (demo_writable _) (demo_writable _)).
Defined.

(** Claim C2 fails for a log file that is not text in the encoding of the
    platform: [json.load] raises [UnicodeDecodeError] while reading, the
    handler for [JSONDecodeError] does not apply, and [load_experiments]
    raises instead of returning the empty list. *)
Theorem undecodable_log_raises :
  fst (load_experiments experiment_log
         (demo_world [] {[ experiment_log := BinaryFile ]})) =
  Raise UnicodeDecodeError.
Proof. vm_compute. reflexivity. Qed.

(** The cases of claim C2 in which the content is text. *)
Example load_experiments_cases :
  fst (load_experiments experiment_log (demo_world [] ∅)) = Return [] /\
  fst (load_experiments experiment_log
         (demo_world [] {[ experiment_log := TextFile (str "not json") ]})) =
    Return [] /\
  fst (load_experiments experiment_log
         (demo_world [] {[ experiment_log := TextFile (str "{}") ]})) =
    Return [] /\
  fst (load_experiments experiment_log
         (demo_world [] {[ experiment_log :=
                             TextFile (str "[{}, null, [true]]") ]})) =
    Return [JDict []; JNull; JList [JBool true]].
Proof. vm_compute. repeat split. Qed.

(** Claim C3 at two chemicals with their amounts. *)
Lemma chemicals_in_entry_order_witness :
  Forall (fun p : pystr * pystr => fst p <> [])
         [(str "NaCl", str "5g"); (str "H2O", str "100ml")] /\
  stdin (demo_world (map str ["NaCl"; "5g"; "H2O"; "100ml"; ""; "Beaker"]%string) ∅) =
    flat_map pair_lines [(str "NaCl", str "5g"); (str "H2O", str "100ml")] ++
    [] :: [str "Beaker"] /\
  exists items w',
    get_input_list (str "Enter chemical (or press Enter to finish): ")
      (Some (str "Amount of {item} used: "))
      (demo_world (map str ["NaCl"; "5g"; "H2O"; "100ml"; ""; "Beaker"]%string) ∅) =
      (Return items, w') /\
    stdin w' = [str "Beaker"] /\
    length items =
      length [(str "NaCl", str "5g"); (str "H2O", str "100ml")] /\
    forall i name amount,
      [(str "NaCl", str "5g"); (str "H2O", str "100ml")] !! i = Some (name, amount) ->
      items !! i = Some (name ++ str " (" ++ amount ++ str ")").
Proof.
  assert (Hnames : Forall (fun p : pystr * pystr => fst p <> [])
                     [(str "NaCl", str "5g"); (str "H2O", str "100ml")])
    by (repeat constructor; discriminate).
  split; [exact Hnames|]. split; [reflexivity|].
  apply (chemicals_in_entry_order
           (str "Enter chemical (or press Enter to finish): ")
           [(str "NaCl", str "5g"); (str "H2O", str "100ml")]
           [str "Beaker"]
           (demo_world (map str ["NaCl"; "5g"; "H2O"; "100ml"; ""; "Beaker"]%string) ∅)
           Hnames eq_refl).
Defined.

(** Claim C5 at the record of the end-to-end scenario. *)
Lemma procedure_rows_numbered_witness :
  procedure demo_experiment <> [] /\
  (exists rows,
     section_rows (str "Procedure") (pdf_blocks (Pdf.calls demo_experiment)) =
       Some rows /\
     section_rows (str "Procedure") (docx_blocks (Word.body demo_experiment)) =
       Some rows /\
     length rows = length (procedure demo_experiment) /\
     forall i step,
       procedure demo_experiment !! i = Some step ->
       rows !! i = Some (str_of_nat (S i) ++ str ". " ++ step)) /\
  (chemicals demo_experiment <> [] ->
   bulleted_in_both (str "Chemicals Used") (chemicals demo_experiment)
                    demo_experiment) /\
  (equipment demo_experiment <> [] ->
   bulleted_in_both (str "Equipment Used") (equipment demo_experiment)
                    demo_experiment).
Proof.
  assert (H : procedure demo_experiment <> []) by (simpl; discriminate).
  split; [exact H|]. exact (procedure_rows_numbered demo_experiment H).
Defined.

(** Claim C6 as stated fails already for a record with empty fields: the
    Word document shows the title [Experiment Report] in front of the
    table, the PDF starts with the table. *)
Lemma word_report_has_a_title :
  pdf_blocks (Pdf.calls (titled [])) <> docx_blocks (Word.body (titled [])).
Proof. vm_compute. intros H. discriminate H. Qed.

(** A run in which the PDF library fails: the run raises after the save, the
    Word document is not written, and the log holds the record. *)
Example rendering_failure_keeps_record :
  let w := {| env := {| clock := clock demo_platform;
                        denied := ∅;
                        float_repr := fun lit => lit;
                        fpdf_accepts := fun _ => false;
                        docx_accepts := fun _ => true |};
              stdin := demo_lines; fs := ∅; ticks := 0; trace := [] |} in
  fst (log_experiment w) = Raise LibraryError /\
  steps (trace (snd (log_experiment w))) = [Collect; Load; Save] /\
  fst (load_experiments experiment_log (snd (log_experiment w))) =
    Return [experiment_to_json demo_experiment].
Proof. vm_compute. repeat split. Qed.

Lemma demo_clock_valid :
  valid_datetime (clock (env (demo_world demo_lines demo_log))
                        (ticks (demo_world demo_lines demo_log))).
Proof. repeat split; vm_compute; first [reflexivity | discriminate]. Qed.

Lemma demo_run :
  log_experiment (demo_world demo_lines demo_log) =
  (Return tt, snd (log_experiment (demo_world demo_lines demo_log))).
Proof. vm_compute. reflexivity. Qed.

(** Claim C9 at the end-to-end scenario, run on a log of one record. *)
Lemma reports_named_by_timestamp_witness :
  valid_datetime (clock (env (demo_world demo_lines demo_log))
                        (ticks (demo_world demo_lines demo_log))) /\
  log_experiment (demo_world demo_lines demo_log) =
    (Return tt, snd (log_experiment (demo_world demo_lines demo_log))) /\
  exists e timestamp w1,
    get_experiment_details (demo_world demo_lines demo_log) =
      (Return (e, timestamp), w1) /\
    ticks (snd (log_experiment (demo_world demo_lines demo_log))) =
      S (ticks (demo_world demo_lines demo_log)) /\
    timestamp =
      strftime_YmdHMS (clock (env (demo_world demo_lines demo_log))
                             (ticks (demo_world demo_lines demo_log))) /\
    length timestamp = 14%nat /\
    Forall (fun c => is_digit c = true) timestamp /\
    experiment_id e = str "EXP-" ++ timestamp /\
    fs (snd (log_experiment (demo_world demo_lines demo_log))) !!
      (str "experiment_report_" ++ timestamp ++ str ".pdf") =
      Some (PdfFile (Pdf.calls e)) /\
    fs (snd (log_experiment (demo_world demo_lines demo_log))) !!
      (str "experiment_report_" ++ timestamp ++ str ".docx") =
      Some (DocxFile (Word.body e)) /\
    exists new,
      trace (snd (log_experiment (demo_world demo_lines demo_log))) =
        trace (demo_world demo_lines demo_log) ++ new /\
      map fst (writes new) =
        [ experiment_log;
          str "experiment_report_" ++ timestamp ++ str ".pdf";
          str "experiment_report_" ++ timestamp ++ str ".docx" ].
Proof.
  split; [exact demo_clock_valid|]. split; [exact demo_run|].
  exact (reports_named_by_timestamp (demo_world demo_lines demo_log)
           (snd (log_experiment (demo_world demo_lines demo_log)))
           demo_clock_valid demo_run).
Defined.

(** The files of that run: the log holds the earlier record and the new
    one after it. *)
Example demo_files :
  let w' := snd (log_experiment (demo_world demo_lines demo_log)) in
  fs w' !! str "experiment_report_20240307090500.pdf" =
    Some (PdfFile (Pdf.calls demo_experiment)) /\
  fs w' !! str "experiment_report_20240307090500.docx" =
    Some (DocxFile (Word.body demo_experiment)) /\
  fst (load_experiments experiment_log w') =
    Return [experiment_to_json (titled (str "Earlier"));
            experiment_to_json demo_experiment].
Proof. vm_compute. repeat split. Qed.

(** Claim C10 at a chemical entered with an empty amount between two
    others. *)
Lemma empty_amount_is_kept_witness :
  str "NaCl" <> [] /\
  Forall (fun p : pystr * pystr => fst p <> []) [(str "KCl", str "1g")] /\
  Forall (fun p : pystr * pystr => fst p <> []) [(str "H2O", str "100ml")] /\
  stdin (demo_world
           (map str ["KCl"; "1g"; "NaCl"; ""; "H2O"; "100ml"; ""; "Beaker"]%string)
           ∅) =
    flat_map pair_lines [(str "KCl", str "1g")] ++ str "NaCl" :: [] ::
    flat_map pair_lines [(str "H2O", str "100ml")] ++ [] :: [str "Beaker"] /\
  exists w',
    get_input_list (str "Enter chemical (or press Enter to finish): ")
      (Some (str "Amount of {item} used: "))
      (demo_world
         (map str ["KCl"; "1g"; "NaCl"; ""; "H2O"; "100ml"; ""; "Beaker"]%string)
         ∅) =
      (Return (map with_amount [(str "KCl", str "1g")] ++
               (str "NaCl" ++ str " ()") ::
               map with_amount [(str "H2O", str "100ml")]), w') /\
    stdin w' = [str "Beaker"] /\
    trace w' =
      trace (demo_world
               (map str ["KCl"; "1g"; "NaCl"; ""; "H2O"; "100ml"; ""; "Beaker"]%string)
               ∅) ++
      flat_map (amount_events (str "Enter chemical (or press Enter to finish): "))
               ([(str "KCl", str "1g")] ++ (str "NaCl", []) ::
                [(str "H2O", str "100ml")]) ++
      [ev_input (str "Enter chemical (or press Enter to finish): ") (Some [])].
Proof.
  assert (Hitem : str "NaCl" <> []) by discriminate.
  assert (Hbefore : Forall (fun p : pystr * pystr => fst p <> [])
                      [(str "KCl", str "1g")])
    by (repeat constructor; discriminate).
  assert (Hafter : Forall (fun p : pystr * pystr => fst p <> [])
                     [(str "H2O", str "100ml")])
    by (repeat constructor; discriminate).
  split; [exact Hitem|]. split; [exact Hbefore|]. split; [exact Hafter|].
  split; [reflexivity|].
  exact (proj2 (empty_amount_is_kept
                  (str "Enter chemical (or press Enter to finish): "))
           [(str "KCl", str "1g")] [(str "H2O", str "100ml")]
           (str "NaCl") [str "Beaker"]
           (demo_world
              (map str ["KCl"; "1g"; "NaCl"; ""; "H2O"; "100ml"; ""; "Beaker"]%string)
              ∅)
           Hitem Hbefore Hafter eq_refl).
Defined.

(** The list the loop returns there. *)
Example demo_empty_amount :
  fst (get_input_list (str "Enter chemical (or press Enter to finish): ")
         (Some (str "Amount of {item} used: "))
         (demo_world
            (map str ["KCl"; "1g"; "NaCl"; ""; "H2O"; "100ml"; ""; "Beaker"]%string)
            ∅)) =
  Return [str "KCl (1g)"; str "NaCl ()"; str "H2O (100ml)"].
Proof. vm_compute. reflexivity. Qed.

(** * Further properties of the code *)

(** ** The input loop *)

Lemma answers_app t u : answers (t ++ u) = answers t ++ answers u.
Proof. apply omap_app. Qed.

Lemma console_run_refl {A} (a : A) w : console_run w (Return a) w.
Proof.
  split; [reflexivity|]. split; [reflexivity|]. split.
  - exists []. rewrite app_nil_r. split; [reflexivity|]. split; [constructor | reflexivity].
  - split; discriminate.
Qed.

Lemma console_run_trans {A B} (a : A) (r : result B) w w1 w2 :
  console_run w (Return a) w1 -> console_run w1 r w2 -> console_run w r w2.
Proof.
  intros (He1 & Hf1 & (evs1 & Ht1 & Hi1 & Hs1) & _)
         (He2 & Hf2 & (evs2 & Ht2 & Hi2 & Hs2) & Hr & He).
  split; [congruence|]. split; [congruence|]. split.
  - exists (evs1 ++ evs2). rewrite Ht2, Ht1, app_assoc. split; [reflexivity|].
    split; [apply Forall_app; split; assumption|].
    rewrite answers_app, <- app_assoc, <- Hs2. exact Hs1.
  - split; assumption.
Qed.

Lemma console_run_raise {A B} e w w' :
  console_run w (Raise e : result A) w' -> console_run w (Raise e : result B) w'.
Proof.
  intros (He & Hf & Hevs & _ & Hraise).
  split; [exact He|]. split; [exact Hf|]. split; [exact Hevs|].
  split; [discriminate|]. intros e' H. injection H as <-. apply Hraise. reflexivity.
Qed.

Lemma console_only_bind {A B} (m : M A) (k : A -> M B) w :
  console_run w (fst (m w)) (snd (m w)) ->
  (forall a w1, m w = (Return a, w1) -> console_run w1 (fst (k a w1)) (snd (k a w1))) ->
  console_run w (fst ((m ≫= k) w)) (snd ((m ≫= k) w)).
Proof.
  intros Hm Hk. rewrite bind_run.
  destruct (m w) as [[a|e|] w1]; cbn [fst snd] in *.
  - eapply console_run_trans; [exact Hm | apply Hk; reflexivity].
  - apply (console_run_raise (A:=A)), Hm.
  - destruct Hm as (_ & _ & _ & Hfuel & _). contradiction Hfuel; reflexivity.
Qed.

Lemma console_only_ret {A} (a : A) : console_only (mret a).
Proof. intros w. apply console_run_refl. Qed.

Lemma console_only_input prompt : console_only (input prompt).
Proof.
  intros w. unfold input. destruct (stdin w) as [|line rest] eqn:Hin; cbn [fst snd].
  - split; [reflexivity|]. split; [reflexivity|]. split.
    + exists [ev_input prompt None]. split; [reflexivity|].
      split; [repeat constructor | reflexivity].
    + split; [discriminate|]. intros e H. injection H as <-. split; [reflexivity | exact Hin].
  - split; [reflexivity|]. split; [reflexivity|]. split.
    + exists [ev_input prompt (Some line)]. split; [reflexivity|].
      split; [repeat constructor | rewrite Hin; reflexivity].
    + split; discriminate.
Qed.

Lemma console_run_get_input_list_loop fuel prompt detail_prompt items w :
  (length (stdin w) < fuel)%nat ->
  console_run w (fst (get_input_list_loop fuel prompt detail_prompt items w))
                (snd (get_input_list_loop fuel prompt detail_prompt items w)).
Proof.
  revert items w. induction fuel as [|fuel IH]; intros items w Hfuel; [lia|].
  rewrite get_input_list_loop_step.
  apply console_only_bind; [apply console_only_input|].
  intros item w1 Hin. apply input_shortens in Hin as Hlen.
  destruct (negb (nonempty item)); [apply console_only_ret|].
  apply console_only_bind.
  - destruct detail_prompt as [[|c template]|]; try apply console_only_ret.
    apply console_only_bind; [apply console_only_input|].
    intros; apply console_only_ret.
  - intros a w2 Hd. apply IH.
    destruct detail_prompt as [[|c template]|];
      try (injection Hd as _ <-; lia).
    apply bind_Return in Hd as (detail & w3 & Hd & Hret).
    injection Hret as _ <-. apply input_shortens in Hd. lia.
Qed.

Lemma console_only_get_input_list prompt detail_prompt :
  console_only (get_input_list prompt detail_prompt).
Proof. intros w. apply console_run_get_input_list_loop. lia. Qed.

Lemma get_input_list_loop_items prompt (entered : list pystr) :
  Forall (fun item => item <> []) entered ->
  forall fuel items rest w,
    (length entered < fuel)%nat ->
    stdin w = entered ++ [] :: rest ->
    get_input_list_loop fuel prompt None items w =
    (Return (items ++ entered),
     {| env := env w; stdin := rest; fs := fs w; ticks := ticks w;
        trace := trace w ++ item_events prompt entered ++
                 [ev_input prompt (Some [])] |}).
Proof.
  induction 1 as [|item entered Hitem _ IH];
    intros fuel items rest w Hfuel Hin;
    (destruct fuel as [|fuel]; [simpl in Hfuel; lia|]);
    cbn [app] in Hin;
    rewrite get_input_list_loop_step, bind_run, (input_line _ _ _ _ Hin).
  - simpl. rewrite app_nil_r. reflexivity.
  - destruct item as [|c item]; [contradiction Hitem; reflexivity|].
    cbn [negb nonempty]. rewrite bind_run, ret_run.
    rewrite (IH fuel _ rest) by (simpl in *; try lia; reflexivity).
    simpl. rewrite <- !app_assoc. reflexivity.
Qed.

Lemma get_input_list_items prompt (entered : list pystr) rest w :
  Forall (fun item => item <> []) entered ->
  stdin w = entered ++ [] :: rest ->
  get_input_list prompt None w =
  (Return entered,
   {| env := env w; stdin := rest; fs := fs w; ticks := ticks w;
      trace := trace w ++ item_events prompt entered ++
               [ev_input prompt (Some [])] |}).
Proof.
  intros Hentered Hin. unfold get_input_list.
  apply (get_input_list_loop_items prompt entered Hentered _ [] rest w); [|exact Hin].
  rewrite Hin, length_app. simpl. lia.
Qed.

Lemma get_input_list_amounts prompt (pairs : list (pystr * pystr)) rest w :
  Forall (fun p => fst p <> []) pairs ->
  stdin w = flat_map pair_lines pairs ++ [] :: rest ->
  get_input_list prompt (Some (str "Amount of {item} used: ")) w =
  (Return (map with_amount pairs),
   {| env := env w; stdin := rest; fs := fs w; ticks := ticks w;
      trace := trace w ++ flat_map (amount_events prompt) pairs ++
               [ev_input prompt (Some [])] |}).
Proof.
  intros Hpairs Hin. unfold get_input_list.
  rewrite <- pair_events_amount.
  apply (get_input_list_loop_pairs prompt 65 (str "mount of {item} used: ")
           pairs Hpairs _ [] rest w); [|exact Hin].
  rewrite Hin, length_app, pair_lines_length. simpl. lia.
Qed.

(** [if detail_prompt:] takes the empty string for no prompt at all. *)
Lemma get_input_list_loop_empty_detail fuel prompt items w :
  get_input_list_loop fuel prompt (Some []) items w =
  get_input_list_loop fuel prompt None items w.
Proof.
  revert items w. induction fuel as [|fuel IH]; intros items w; [reflexivity|].
  rewrite !get_input_list_loop_step, !bind_run.
  destruct (input prompt w) as [[item|e|] w1]; try reflexivity.
  destruct (negb (nonempty item)); [reflexivity|].
  rewrite !bind_run, !ret_run. apply IH.
Qed.

(** Property X1.  Without a detail prompt, as for the equipment and the
    procedure, the loop returns the lines entered before the first empty
    line, unchanged and in entry order; it asks once for each of them and
    once more for the empty line, and leaves the lines after it unread. *)
Theorem items_in_entry_order prompt (entered : list pystr) rest w :
  Forall (fun item => item <> []) entered ->
  stdin w = entered ++ [] :: rest ->
  exists w',
    get_input_list prompt None w = (Return entered, w') /\
    stdin w' = rest /\
    trace w' = trace w ++ item_events prompt entered ++
               [ev_input prompt (Some [])].
Proof.
  intros Hentered Hin. eexists. split;
    [apply (get_input_list_items prompt entered rest w Hentered Hin)|].
  split; reflexivity.
Qed.

(** Property X2.  [get_input_list], with no detail prompt or with the
    amount prompt of the script, only talks to the console: it reads lines
    from the front of the input, in order, each the answer to one prompt,
    and changes neither the files nor the platform.  It fails only by
    [EOFError], and only when the input is used up. *)
Theorem get_input_list_console_only prompt :
  console_only (get_input_list prompt None) /\
  console_only (get_input_list prompt (Some (str "Amount of {item} used: "))).
Proof. split; apply console_only_get_input_list. Qed.

(** Property X3.  An empty detail prompt is no detail prompt: the test
    [if detail_prompt:] takes the empty string for [None], and the loop asks
    for no detail. *)
Theorem empty_detail_prompt_is_none prompt w :
  get_input_list prompt (Some []) w = get_input_list prompt None w.
Proof. apply get_input_list_loop_empty_detail. Qed.

(** ** Collecting a record *)

Lemma input_record prompt line rest w :
  stdin w = line :: rest ->
  input prompt w =
  (Return line,
   {| env := env w; stdin := rest; fs := fs w; ticks := ticks w;
      trace := trace w ++ [ev_input prompt (Some line)] |}).
Proof. apply input_line. Qed.

Lemma get_experiment_details_session s rest w :
  session_ok s ->
  stdin w = session_lines s rest ->
  get_experiment_details w =
  (Return (session_record (clock (env w) (ticks w)) s,
           strftime_YmdHMS (clock (env w) (ticks w))),
   after_session w s rest).
Proof.
  intros (Hc & Hq & Hp) Hin. unfold session_lines in Hin.
  unfold get_experiment_details.
  change ((datetime_now ≫= ?k) w) with (k (clock (env w) (ticks w)) (tick w)).
  cbv beta zeta. unfold tick.
  rewrite bind_run. erewrite input_record by (cbn [stdin]; exact Hin).
  cbn [env stdin fs ticks trace].
  rewrite bind_run. erewrite input_record by reflexivity.
  cbn [env stdin fs ticks trace].
  rewrite bind_run. erewrite input_record by reflexivity.
  cbn [env stdin fs ticks trace].
  rewrite bind_run. erewrite (get_input_list_amounts _ _ _ _ Hc) by reflexivity.
  cbn [env stdin fs ticks trace].
  rewrite bind_run. erewrite (get_input_list_items _ _ _ _ Hq) by reflexivity.
  cbn [env stdin fs ticks trace].
  rewrite bind_run. erewrite (get_input_list_items _ _ _ _ Hp) by reflexivity.
  cbn [env stdin fs ticks trace].
  rewrite bind_run. erewrite input_record by reflexivity.
  cbn [env stdin fs ticks trace].
  rewrite bind_run. erewrite input_record by reflexivity.
  cbn [env stdin fs ticks trace].
  rewrite ret_run. unfold session_record, after_session, session_events.
  rewrite <- !app_assoc. cbn [app]. reflexivity.
Qed.

Lemma input_Return prompt w line w1 :
  input prompt w = (Return line, w1) -> stdin w = line :: stdin w1.
Proof.
  unfold input. destruct (stdin w) as [|l rest]; intros H; [discriminate H|].
  injection H as <- <-. reflexivity.
Qed.

Lemma get_input_list_loop_items_inv fuel prompt items w l w' :
  get_input_list_loop fuel prompt None items w = (Return l, w') ->
  exists entered,
    Forall (fun item => item <> []) entered /\
    stdin w = entered ++ [] :: stdin w'.
Proof.
  revert items w. induction fuel as [|fuel IH]; intros items w; [discriminate|].
  rewrite get_input_list_loop_step. intros H.
  apply bind_Return in H as (item & w1 & Hin & H). apply input_Return in Hin.
  destruct item as [|c item]; cbn [negb nonempty] in H.
  - injection H as _ <-. exists []. split; [constructor | exact Hin].
  - rewrite bind_run, ret_run in H. apply IH in H as (entered & Hentered & Hrest).
    exists ((c :: item) :: entered). split; [constructor; [discriminate | exact Hentered]|].
    rewrite Hin, Hrest. reflexivity.
Qed.

Lemma get_input_list_loop_pairs_inv fuel prompt c template items w l w' :
  get_input_list_loop fuel prompt (Some (c :: template)) items w = (Return l, w') ->
  exists pairs : list (pystr * pystr),
    Forall (fun p => fst p <> []) pairs /\
    stdin w = flat_map pair_lines pairs ++ [] :: stdin w'.
Proof.
  revert items w. induction fuel as [|fuel IH]; intros items w; [discriminate|].
  rewrite get_input_list_loop_step. intros H.
  apply bind_Return in H as (item & w1 & Hin & H). apply input_Return in Hin.
  destruct item as [|c0 item]; cbn [negb nonempty] in H.
  - injection H as _ <-. exists []. split; [constructor | exact Hin].
  - apply bind_Return in H as (full & w2 & Hd & H).
    apply bind_Return in Hd as (detail & w3 & Hd & Hret).
    injection Hret as _ <-. apply input_Return in Hd.
    apply IH in H as (pairs & Hpairs & Hrest).
    exists ((c0 :: item, detail) :: pairs).
    split; [constructor; [discriminate | exact Hpairs]|].
    rewrite Hin, Hd, Hrest. reflexivity.
Qed.

Lemma get_experiment_details_inv w e timestamp w' :
  get_experiment_details w = (Return (e, timestamp), w') ->
  exists s, session_ok s /\ stdin w = session_lines s (stdin w').
Proof.
  unfold get_experiment_details.
  change ((datetime_now ≫= ?k) w) with (k (clock (env w) (ticks w)) (tick w)).
  cbv beta zeta. intros H.
  apply bind_Return in H as (t & w1 & H1 & H). apply input_Return in H1.
  apply bind_Return in H as (x & w2 & H2 & H). apply input_Return in H2.
  apply bind_Return in H as (p & w3 & H3 & H). apply input_Return in H3.
  apply bind_Return in H as (cs & w4 & H4 & H).
  apply get_input_list_loop_pairs_inv in H4 as (pairs & Hpairs & H4).
  apply bind_Return in H as (qs & w5 & H5 & H).
  apply get_input_list_loop_items_inv in H5 as (eqs & Heqs & H5).
  apply bind_Return in H as (ps & w6 & H6 & H).
  apply get_input_list_loop_items_inv in H6 as (steps & Hsteps & H6).
  apply bind_Return in H as (o & w7 & H7 & H). apply input_Return in H7.
  apply bind_Return in H as (r & w8 & H8 & H). apply input_Return in H8.
  injection H as _ _ <-.
  exists {| s_title := t; s_experimenter := x; s_project := p;
            s_chemicals := pairs; s_equipment := eqs; s_procedure := steps;
            s_observations := o; s_results := r |}.
  split; [repeat split; assumption|].
  unfold session_lines. cbn [s_title s_experimenter s_project s_chemicals
    s_equipment s_procedure s_observations s_results].
  cbn [stdin tick] in H1. rewrite H1, H2, H3, H4, H5, H6, H7, H8. reflexivity.
Qed.

(** The lines of a session are at least eight. *)
Lemma session_lines_length s rest :
  (8 + length rest <= length (session_lines s rest))%nat.
Proof.
  unfold session_lines.
  repeat first [rewrite length_app | rewrite length_cons]. lia.
Qed.

Lemma console_only_get_experiment_details : console_only get_experiment_details.
Proof.
  intros w. unfold get_experiment_details.
  change ((datetime_now ≫= ?k) w) with (k (clock (env w) (ticks w)) (tick w)).
  cbv beta zeta.
  assert (Htick : forall A (r : result A) w',
            console_run (tick w) r w' -> console_run w r w').
  { intros A r w' H. exact H. }
  apply Htick.
  generalize (tick w) as w0. generalize (clock (env w) (ticks w)) as now.
  intros now w0.
  repeat (apply console_only_bind;
          [first [apply console_only_input | apply console_only_get_input_list]|];
          intros ? ? _).
  apply console_only_ret.
Qed.

(** A collection that does not return raised [EOFError], and no file was
    touched. *)
Lemma get_experiment_details_failed w x w1 :
  get_experiment_details w = (x, w1) -> (forall a, x <> Return a) ->
  x = Raise EOFError /\ fs w1 = fs w /\ stdin w1 = [].
Proof.
  intros Hc Hx. pose proof (console_only_get_experiment_details w) as H.
  rewrite Hc in H. cbn [fst snd] in H.
  destruct H as (_ & Hfs & _ & Hfuel & Hraise).
  destruct x as [a|e|]; [contradiction (Hx a); reflexivity | | contradiction Hfuel; reflexivity].
  destruct (Hraise e eq_refl) as [-> Hin]. repeat split; assumption.
Qed.

Lemma get_experiment_details_returned w e timestamp w1 :
  get_experiment_details w = (Return (e, timestamp), w1) ->
  exists s,
    session_ok s /\ stdin w = session_lines s (stdin w1) /\
    e = session_record (clock (env w) (ticks w)) s /\
    timestamp = strftime_YmdHMS (clock (env w) (ticks w)) /\
    w1 = after_session w s (stdin w1).
Proof.
  intros Hc. destruct (get_experiment_details_inv _ _ _ _ Hc) as (s & Hs & Hin).
  exists s. split; [exact Hs|]. split; [exact Hin|].
  rewrite (get_experiment_details_session s (stdin w1) w Hs Hin) in Hc.
  injection Hc as <- <- <-. repeat split.
Qed.

(** Property X4.  When the input starts with a session (title,
    experimenter, project, the chemicals each with its amount and an empty
    line, the equipment and an empty line, the steps and an empty line,
    observations, results), [get_experiment_details] returns the record of
    that session: the fields as typed, the chemicals as [<name> (<amount>)],
    the identifier and the date from the one clock reading.  The prompts
    appear in the order of the dictionary display, the lines after the
    session are left unread and no file is touched. *)
Theorem session_is_collected s rest w :
  session_ok s ->
  stdin w = session_lines s rest ->
  exists w',
    get_experiment_details w =
      (Return (session_record (clock (env w) (ticks w)) s,
               strftime_YmdHMS (clock (env w) (ticks w))), w') /\
    stdin w' = rest /\
    trace w' = trace w ++ session_events s /\
    fs w' = fs w.
Proof.
  intros Hs Hin. exists (after_session w s rest).
  split; [apply get_experiment_details_session; assumption|].
  repeat split.
Qed.

(** Property X5.  Conversely, whenever [get_experiment_details] returns,
    what it read is a session and the record returned is the record of that
    session; so it has read at least eight lines. *)
Theorem collected_from_a_session w e timestamp w' :
  get_experiment_details w = (Return (e, timestamp), w') ->
  exists s,
    session_ok s /\
    stdin w = session_lines s (stdin w') /\
    e = session_record (clock (env w) (ticks w)) s /\
    (8 + length (stdin w') <= length (stdin w))%nat.
Proof.
  intros Hc.
  destruct (get_experiment_details_returned _ _ _ _ Hc) as (s & Hs & Hin & He & _).
  exists s. split; [exact Hs|]. split; [exact Hin|]. split; [exact He|].
  rewrite Hin. apply session_lines_length.
Qed.

(** Property X6.  [get_experiment_details] only talks to the console: it
    fails only by [EOFError], when the input is used up, and changes no
    file.  It reads the clock exactly once, whether it returns or fails. *)
Theorem collection_fails_only_at_eof :
  console_only get_experiment_details /\
  forall w, ticks (snd (get_experiment_details w)) = S (ticks w).
Proof.
  split; [apply console_only_get_experiment_details
         | apply get_experiment_details_reads_once].
Qed.

(** *** The timestamp and the date *)

Lemma pad2_value n : n < 100 -> digits_value (pad2 n) = n.
Proof.
  intros H. apply N.eqb_eq.
  apply (below_bound (fun n => digits_value (pad2 n) =? n) 100); [|exact H].
  vm_compute. reflexivity.
Qed.

Lemma pad4_value n : n < 10000 -> digits_value (pad4 n) = n.
Proof.
  intros H. apply N.eqb_eq.
  apply (below_bound (fun n => digits_value (pad4 n) =? n) 10000); [|exact H].
  vm_compute. reflexivity.
Qed.

Lemma pad2_length n : n < 100 -> length (pad2 n) = 2%nat.
Proof.
  intros H. pose proof (pad2_digits n H) as Hd. unfold digits_of_width in Hd.
  apply andb_true_iff in Hd as [_ Hd]. apply Nat.eqb_eq, Hd.
Qed.

Lemma pad4_length n : n < 10000 -> length (pad4 n) = 4%nat.
Proof.
  intros H. pose proof (pad4_digits n H) as Hd. unfold digits_of_width in Hd.
  apply andb_true_iff in Hd as [_ Hd]. apply Nat.eqb_eq, Hd.
Qed.

Lemma pad2_app_inj a b s t :
  a < 100 -> b < 100 -> pad2 a ++ s = pad2 b ++ t -> a = b /\ s = t.
Proof.
  intros Ha Hb H. apply app_inj_1 in H as [H ->];
    [|rewrite !pad2_length by assumption; reflexivity].
  split; [|reflexivity].
  rewrite <- (pad2_value a Ha), <- (pad2_value b Hb), H. reflexivity.
Qed.

Lemma pad4_app_inj a b s t :
  a < 10000 -> b < 10000 -> pad4 a ++ s = pad4 b ++ t -> a = b /\ s = t.
Proof.
  intros Ha Hb H. apply app_inj_1 in H as [H ->];
    [|rewrite !pad4_length by assumption; reflexivity].
  split; [|reflexivity].
  rewrite <- (pad4_value a Ha), <- (pad4_value b Hb), H. reflexivity.
Qed.

(** Property X7.  Two readings of the clock have the same timestamp, and so
    give the same identifier and the same report names, exactly when they
    fall in the same second; the microseconds do not count. *)
Theorem one_timestamp_a_second d1 d2 :
  valid_datetime d1 -> valid_datetime d2 ->
  (strftime_YmdHMS d1 = strftime_YmdHMS d2 <->
   year d1 = year d2 /\ month d1 = month d2 /\ day d1 = day d2 /\
   hour d1 = hour d2 /\ minute d1 = minute d2 /\ second d1 = second d2).
Proof.
  intros (Hy1 & Hm1 & Hd1 & Hh1 & Hmi1 & Hs1 & _)
         (Hy2 & Hm2 & Hd2 & Hh2 & Hmi2 & Hs2 & _).
  unfold strftime_YmdHMS. split.
  - intros H.
    apply pad4_app_inj in H as [Hy H]; [|lia|lia].
    apply pad2_app_inj in H as [Hm H]; [|lia|lia].
    apply pad2_app_inj in H as [Hd H]; [|lia|lia].
    apply pad2_app_inj in H as [Hh H]; [|lia|lia].
    apply pad2_app_inj in H as [Hmi H]; [|lia|lia].
    rewrite <- (app_nil_r (pad2 (second d1))), <- (app_nil_r (pad2 (second d2))) in H.
    apply pad2_app_inj in H as [Hs _]; [|lia|lia].
    repeat split; assumption.
  - intros (-> & -> & -> & -> & -> & ->). reflexivity.
Qed.

Lemma digits_of_app a b : digits_of (a ++ b) = digits_of a ++ digits_of b.
Proof. apply List.filter_app. Qed.

Lemma digits_of_digits width s :
  digits_of_width width s = true -> digits_of s = s /\ length s = width.
Proof.
  unfold digits_of_width. rewrite andb_true_iff, Nat.eqb_eq. intros [Hall Hlen].
  split; [|exact Hlen]. clear Hlen. induction s as [|c s IH]; [reflexivity|].
  cbn [forallb] in Hall. apply andb_true_iff in Hall as [Hc Hall].
  unfold digits_of in *. cbn [List.filter]. rewrite Hc, (IH Hall). reflexivity.
Qed.

(** The digits of the first nineteen characters of [str(now)] are the
    timestamp. *)
Lemma datetime_str_digits d :
  valid_datetime d -> digits_of (take 19 (datetime_str d)) = strftime_YmdHMS d.
Proof.
  intros (Hy & Hm & Hd & Hh & Hmi & Hs & _).
  destruct (digits_of_digits 4 _ (pad4_digits (year d) ltac:(lia))) as [Dy Ly].
  destruct (digits_of_digits 2 _ (pad2_digits (month d) ltac:(lia))) as [Dm Lm].
  destruct (digits_of_digits 2 _ (pad2_digits (day d) ltac:(lia))) as [Dd Ld].
  destruct (digits_of_digits 2 _ (pad2_digits (hour d) ltac:(lia))) as [Dh Lh].
  destruct (digits_of_digits 2 _ (pad2_digits (minute d) ltac:(lia))) as [Dmi Lmi].
  destruct (digits_of_digits 2 _ (pad2_digits (second d) ltac:(lia))) as [Ds Ls].
  unfold datetime_str, strftime_YmdHMS.
  set (frac := if microsecond d =? 0 then [] else str "." ++ pad6 (microsecond d)).
  rewrite !app_assoc.
  rewrite take_app_length'
    by (rewrite !length_app, Ly, Lm, Ld, Lh, Lmi, Ls; reflexivity).
  rewrite !digits_of_app, Dy, Dm, Dd, Dh, Dmi, Ds.
  change (digits_of (str "-")) with (@nil N).
  change (digits_of (str " ")) with (@nil N).
  change (digits_of (str ":")) with (@nil N).
  rewrite !app_nil_r, <- !app_assoc. reflexivity.
Qed.

(** Property X8.  The date of a collected record and its identifier show the
    same reading of the clock: the identifier is [EXP-] followed by the
    digits of the first nineteen characters of the date. *)
Theorem date_and_id_agree w e timestamp w' :
  valid_datetime (clock (env w) (ticks w)) ->
  get_experiment_details w = (Return (e, timestamp), w') ->
  experiment_id e = str "EXP-" ++ digits_of (take 19 (date e)).
Proof.
  intros Hvalid Hc.
  destruct (get_experiment_details_timestamp _ _ _ _ Hc) as (Hts & Hid & Hdate).
  rewrite Hdate, (datetime_str_digits _ Hvalid), <- Hts. exact Hid.
Qed.

(** ** Loading and saving *)


(** Property X10.  [load_experiments] never changes a file, reads no input
    and no clock, and prints nothing, whatever it returns or raises: it adds
    to the trace only that it looked for the file and read it. *)
Theorem load_changes_nothing path w :
  let w' := snd (load_experiments path w) in
  fst (load_experiments path w) <> OutOfFuel /\
  env w' = env w /\ fs w' = fs w /\ stdin w' = stdin w /\ ticks w' = ticks w /\
  exists evs,
    trace w' = trace w ++ evs /\ writes evs = [] /\ prints evs = [] /\
    answers evs = [].
Proof.
  cbv zeta.
  destruct (load_experiments_frame path w) as (Hfuel & Henv & Hfs & Hin).
  split; [exact Hfuel|]. split; [exact Henv|]. split; [exact Hfs|].
  split; [exact Hin|]. split; [apply load_experiments_clock|].
  destruct (fs w !! path) as [content|] eqn:H.
  - destruct content as [text| | | |].
    + rewrite (load_experiments_text _ _ _ H). eexists [_; _].
      split; [cbn; rewrite <- app_assoc; reflexivity | repeat split].
    + rewrite (load_experiments_not_text _ _ _ H I). eexists [_; _].
      split; [cbn; rewrite <- app_assoc; reflexivity | repeat split].
    + rewrite (load_experiments_not_text _ _ _ H I). eexists [_; _].
      split; [cbn; rewrite <- app_assoc; reflexivity | repeat split].
    + rewrite (load_experiments_not_text _ _ _ H I). eexists [_; _].
      split; [cbn; rewrite <- app_assoc; reflexivity | repeat split].
    + rewrite (load_experiments_directory _ _ H). eexists [_].
      split; [reflexivity | repeat split].
  - rewrite (load_experiments_missing _ _ H). eexists [_].
    split; [reflexivity | repeat split].
Qed.

Lemma uint_chars_digits d : Forall (fun c => is_digit c = true) (uint_chars d).
Proof. induction d; simpl; constructor; solve [reflexivity | assumption]. Qed.

Lemma zfill_digits width s :
  Forall (fun c => is_digit c = true) s ->
  Forall (fun c => is_digit c = true) (zfill width s).
Proof.
  intros H. unfold zfill. apply Forall_app. split; [|exact H].
  apply Forall_forall. intros c Hc. apply list_elem_of_In in Hc.
  apply repeat_spec in Hc. subst c. reflexivity.
Qed.

Lemma digits_ascii s : Forall (fun c => is_digit c = true) s -> ascii s.
Proof.
  intros H. eapply Forall_impl; [exact H|]. intros c Hc. unfold is_digit in Hc.
  apply andb_true_iff in Hc as [_ Hc]. apply N.leb_le in Hc. lia.
Qed.

Lemma pad_ascii width n : ascii (zfill width (str_of_N n)).
Proof. apply digits_ascii, zfill_digits, uint_chars_digits. Qed.

Lemma ascii_app a b : ascii a -> ascii b -> ascii (a ++ b).
Proof. intros Ha Hb. apply Forall_app. split; assumption. Qed.

Lemma ascii_str_1 c : c < 128 -> ascii [c].
Proof. intros H. constructor; [exact H | constructor]. Qed.

Lemma hex_digit_ascii n : hex_digit (n mod 16) < 128.
Proof.
  pose proof (N.mod_lt n 16 ltac:(lia)) as H. unfold hex_digit.
  destruct (N.ltb_spec (n mod 16) 10); lia_div.
Qed.

Lemma u_escape_ascii n : ascii (u_escape n).
Proof.
  unfold u_escape.
  repeat (constructor; [first [apply hex_digit_ascii | reflexivity]|]).
  constructor.
Qed.

Lemma escape_char_ascii c : ascii (escape_char c).
Proof.
  unfold escape_char.
  repeat match goal with
  | |- context [if ?b then _ else _] => destruct b eqn:?
  end;
  try (repeat constructor; fail);
  try apply u_escape_ascii.
  - constructor; [|constructor].
    match goal with
    | H : (_ && (c <=? 126)) = true |- _ =>
      apply andb_true_iff in H as [_ H]; apply N.leb_le in H; lia
    end.
  - cbv zeta. apply ascii_app; apply u_escape_ascii.
Qed.

Lemma encode_basestring_ascii_ascii s : ascii (encode_basestring_ascii s).
Proof.
  unfold encode_basestring_ascii.
  apply ascii_app; [repeat constructor|].
  apply ascii_app; [|repeat constructor].
  induction s as [|c s IH]; [constructor|].
  cbn [flat_map]. apply ascii_app; [apply escape_char_ascii | exact IH].
Qed.

Lemma newline_indent_ascii level : ascii (newline_indent level).
Proof.
  unfold newline_indent. constructor; [reflexivity|].
  apply Forall_forall. intros c Hc. apply list_elem_of_In, repeat_spec in Hc.
  subst c. reflexivity.
Qed.

Lemma join_ascii sep parts :
  ascii sep -> Forall ascii parts -> ascii (join sep parts).
Proof.
  intros Hsep. induction 1 as [|p parts Hp Hparts IH]; [constructor|].
  destruct parts as [|q parts]; [exact Hp|].
  change (ascii (p ++ sep ++ join sep (q :: parts))).
  apply ascii_app; [exact Hp|]. apply ascii_app; [exact Hsep | exact IH].
Qed.

Lemma str_of_Z_ascii z : ascii (str_of_Z z).
Proof.
  destruct z; unfold str_of_Z;
    try (apply digits_ascii, uint_chars_digits).
  constructor; [reflexivity | apply digits_ascii, uint_chars_digits].
Qed.

Lemma iterencode_ascii fr v :
  (forall lit, ascii (fr lit)) -> forall level, ascii (iterencode fr level v).
Proof.
  intros Hfr. induction v as [ | b | z | lit | s | l IH | d IH ] using json_ind';
    intros level.
  - repeat constructor.
  - destruct b; repeat constructor.
  - apply str_of_Z_ascii.
  - apply Hfr.
  - apply encode_basestring_ascii_ascii.
  - destruct l as [|x l]; [repeat constructor|].
    change (ascii ([91] ++ newline_indent (S level) ++
                   join (44 :: newline_indent (S level))
                        (map (iterencode fr (S level)) (x :: l)) ++
                   newline_indent level ++ [93])).
    apply ascii_app; [repeat constructor|].
    apply ascii_app; [apply newline_indent_ascii|].
    apply ascii_app.
    + apply join_ascii; [constructor; [reflexivity | apply newline_indent_ascii]|].
      apply Forall_map. eapply Forall_impl; [exact IH|]. intros y Hy. apply Hy.
    + apply ascii_app; [apply newline_indent_ascii | repeat constructor].
  - destruct d as [|kv d]; [repeat constructor|].
    change (ascii ([123] ++ newline_indent (S level) ++
                   join (44 :: newline_indent (S level))
                        (map (fun kv => encode_basestring_ascii (fst kv) ++ str ": " ++
                                        iterencode fr (S level) (snd kv)) (kv :: d)) ++
                   newline_indent level ++ [125])).
    apply ascii_app; [repeat constructor|].
    apply ascii_app; [apply newline_indent_ascii|].
    apply ascii_app.
    + apply join_ascii; [constructor; [reflexivity | apply newline_indent_ascii]|].
      apply Forall_map. eapply Forall_impl; [exact IH|]. intros y Hy.
      apply ascii_app; [apply encode_basestring_ascii_ascii|].
      apply ascii_app; [repeat constructor | apply Hy].
    + apply ascii_app; [apply newline_indent_ascii | repeat constructor].
Qed.

(** Property X11.  The file [save_experiments] writes is ASCII text,
    whatever characters the strings saved contain, on a platform whose
    [float.__repr__] is ASCII: [json.dump] escapes every other character. *)
Theorem saved_log_is_ascii experiments path w w' :
  (forall lit, ascii (float_repr (env w) lit)) ->
  save_experiments experiments path w = (Return tt, w') ->
  exists text, fs w' !! path = Some (TextFile text) /\ ascii text.
Proof.
  intros Hfr Hsave. unfold save_experiments, json_dump in Hsave.
  destruct (write_node_run path
              (TextFile (json_dumps (float_repr (env w)) (JList experiments))) w)
    as [H|[x H]]; rewrite H in Hsave; [|discriminate Hsave].
  injection Hsave as <-. eexists. split.
  - cbn [log_event fs set_fs]. apply lookup_insert_eq.
  - apply iterencode_ascii, Hfr.
Qed.

(** ** The reports *)

Lemma fill_colors_app color a b :
  fill_colors color (a ++ b) =
  fill_colors color a ++ fill_colors (final_color color a) b.
Proof.
  revert color. induction a as [|c a IH]; intros color; [reflexivity|].
  destruct c as [ | | r g bl | w h txt border l [|] | | ]; cbn [app fill_colors final_color];
    rewrite IH; reflexivity.
Qed.

Lemma final_color_app color a b :
  final_color color (a ++ b) = final_color (final_color color a) b.
Proof.
  revert color. induction a as [|c a IH]; intros color; [reflexivity|].
  destruct c; cbn [app final_color]; apply IH.
Qed.

Lemma plain_rows_colors color (f : nat * pystr -> pystr) rows :
  fill_colors color
    (map (fun p => cell 0 Pdf.row_height (f p) 1 true false) rows) = [] /\
  final_color color
    (map (fun p => cell 0 Pdf.row_height (f p) 1 true false) rows) = color.
Proof. induction rows as [|r rows [IH1 IH2]]; split; try reflexivity; assumption. Qed.

Lemma add_list_table_colors color title items numbered :
  fill_colors color (Pdf.add_list_table title items numbered) =
    (if nonempty items then [gray] else []) /\
  final_color color (Pdf.add_list_table title items numbered) =
    (if nonempty items then white else color).
Proof.
  unfold Pdf.add_list_table. destruct (nonempty items); [|split; reflexivity].
  split.
  - cbn [app fill_colors].
    rewrite fill_colors_app,
      (proj1 (plain_rows_colors _ (fun p => row_text numbered (fst p) (snd p)) _)).
    reflexivity.
  - cbn [app final_color].
    rewrite final_color_app,
      (proj2 (plain_rows_colors _ (fun p => row_text numbered (fst p) (snd p)) _)).
    reflexivity.
Qed.

Lemma add_text_section_colors color title text :
  fill_colors color (Pdf.add_text_section title text) =
    (if nonempty text then [gray] else []) /\
  final_color color (Pdf.add_text_section title text) =
    (if nonempty text then white else color).
Proof. unfold Pdf.add_text_section. destruct (nonempty text); split; reflexivity. Qed.

Lemma identity_rows_colors color rows :
  fill_colors color
    (flat_map (fun fv : pystr * pystr =>
                 [ cell Pdf.col_width_field Pdf.row_height (fst fv) 1 false false;
                   cell Pdf.col_width_value Pdf.row_height (snd fv) 1 true false ])
              rows) = [] /\
  final_color color
    (flat_map (fun fv : pystr * pystr =>
                 [ cell Pdf.col_width_field Pdf.row_height (fst fv) 1 false false;
                   cell Pdf.col_width_value Pdf.row_height (snd fv) 1 true false ])
              rows) = color.
Proof. induction rows as [|r rows [IH1 IH2]]; split; try reflexivity; assumption. Qed.

Lemma sections_colors e :
  fill_colors white
    (Pdf.add_list_table (str "Chemicals Used") (chemicals e) false ++
     Pdf.add_list_table (str "Equipment Used") (equipment e) false ++
     Pdf.add_list_table (str "Procedure") (procedure e) true ++
     Pdf.add_text_section (str "Observations") (observations e) ++
     Pdf.add_text_section (str "Results") (results e)) =
  repeat gray (length (present_sections e)).
Proof.
  assert (Hwhite : forall b : bool, (if b then white else white) = white)
    by (intros []; reflexivity).
  rewrite fill_colors_app, (proj1 (add_list_table_colors _ _ _ _)),
    (proj2 (add_list_table_colors _ _ _ _)), Hwhite.
  rewrite fill_colors_app, (proj1 (add_list_table_colors _ _ _ _)),
    (proj2 (add_list_table_colors _ _ _ _)), Hwhite.
  rewrite fill_colors_app, (proj1 (add_list_table_colors _ _ _ _)),
    (proj2 (add_list_table_colors _ _ _ _)), Hwhite.
  rewrite fill_colors_app, (proj1 (add_text_section_colors _ _ _)),
    (proj2 (add_text_section_colors _ _ _)), Hwhite.
  rewrite (proj1 (add_text_section_colors _ _ _)).
  unfold present_sections.
  destruct (nonempty (chemicals e)), (nonempty (equipment e)),
    (nonempty (procedure e)), (nonempty (observations e)),
    (nonempty (results e)); reflexivity.
Qed.

(** Property X12.  In the PDF every cell drawn with [fill=True] is drawn
    while the fill colour is the gray (200, 200, 200), whatever the fill
    colour of the document was before: these cells are the two header cells
    of the table and one header for each section that is present. *)
Theorem shaded_cells_are_gray e color :
  fill_colors color (Pdf.calls e) =
  repeat gray (2 + length (present_sections e)).
Proof.
  unfold Pdf.calls. cbn [app fill_colors]. change (255, 255, 255) with white.
  rewrite fill_colors_app, (proj1 (identity_rows_colors _ _)),
    (proj2 (identity_rows_colors _ _)).
  cbn [app fill_colors]. rewrite sections_colors. reflexivity.
Qed.

Lemma list_styles_app a b : list_styles (a ++ b) = list_styles a ++ list_styles b.
Proof. apply flat_map_app. Qed.

Lemma enumerate_length {A} (items : list A) start :
  length (enumerate items start) = length items.
Proof.
  revert start. induction items as [|x items IH]; intros start; [reflexivity|].
  simpl. rewrite IH. reflexivity.
Qed.

Lemma list_styles_section title items numbered :
  list_styles (Word.add_list_section title items numbered) =
  repeat (if numbered then str "List Number" else str "List Bullet") (length items).
Proof.
  unfold Word.add_list_section. destruct items as [|item items]; [reflexivity|].
  cbn [nonempty]. rewrite <- (enumerate_length (item :: items) 1).
  change (list_styles (docx_heading title 2 :: ?l)) with (list_styles l).
  induction (enumerate (item :: items) 1) as [|p l IH]; [reflexivity|].
  cbn [map length repeat]. rewrite <- IH. destruct numbered; reflexivity.
Qed.

Lemma list_styles_text title text :
  list_styles (Word.add_text_section title text) = [].
Proof. unfold Word.add_text_section. destruct (nonempty text); reflexivity. Qed.

(** Property X13.  The styled paragraphs of the Word document are, in order,
    one of style [List Bullet] for each chemical and each piece of
    equipment, then one of style [List Number] for each step of the
    procedure; no other paragraph has a style. *)
Theorem word_list_styles e :
  list_styles (Word.body e) =
  repeat (str "List Bullet") (length (chemicals e) + length (equipment e)) ++
  repeat (str "List Number") (length (procedure e)).
Proof.
  unfold Word.body. rewrite !list_styles_app, !list_styles_section, !list_styles_text.
  rewrite repeat_app, !app_nil_r, <- app_assoc. reflexivity.
Qed.

(** ** Whole runs *)

Lemma text_ok_empty : text_ok [].
Proof. split; [constructor | reflexivity]. Qed.

(** A character below the surrogates may go in front of any text. *)
Lemma text_ok_low_cons c s : c < 0xd800 -> text_ok s -> text_ok (c :: s).
Proof.
  intros Hc [Hall Hpair]. split; [constructor; [lia | exact Hall]|].
  cbn [no_surrogate_pair]. rewrite Hpair, andb_true_r.
  destruct s as [|b s]; [reflexivity|].
  replace (is_high_surrogate c) with false; [reflexivity|].
  symmetry. unfold is_high_surrogate. apply andb_false_iff. left.
  apply N.leb_gt. exact Hc.
Qed.

(** ... and between any two texts. *)
Lemma text_ok_app_low a c b :
  text_ok a -> c < 0xd800 -> text_ok b -> text_ok (a ++ c :: b).
Proof.
  intros Ha Hc Hb. induction a as [|x a IH]; [apply text_ok_low_cons; assumption|].
  pose proof (text_ok_cons _ _ Ha) as [Hx Ha'].
  specialize (IH Ha'). destruct IH as [Hall Hpair].
  split; [constructor; assumption|].
  cbn [app no_surrogate_pair]. rewrite Hpair, andb_true_r.
  destruct a as [|y a]; cbn [app].
  - replace (is_low_surrogate c) with false; [apply negb_true_iff, andb_false_r|].
    symmetry. unfold is_low_surrogate. apply andb_false_iff. left.
    apply N.leb_gt. lia.
  - destruct Ha as [_ Ha]. cbn [no_surrogate_pair] in Ha.
    apply andb_true_iff in Ha as [Ha _]. exact Ha.
Qed.

Lemma ascii_text_ok s : ascii s -> text_ok s.
Proof.
  induction 1 as [|c s Hc _ IH]; [apply text_ok_empty|].
  apply text_ok_low_cons; [lia | exact IH].
Qed.

Lemma text_ok_with_amount p :
  text_ok (fst p) -> text_ok (snd p) -> text_ok (with_amount p).
Proof.
  intros Ha Hb. unfold with_amount.
  change (text_ok (fst p ++ 32 :: 40 :: (snd p ++ [41]))).
  apply text_ok_app_low; [exact Ha | lia |].
  apply text_ok_low_cons; [lia|].
  apply text_ok_app_low; [exact Hb | lia | apply text_ok_empty].
Qed.

Lemma strftime_ascii d : ascii (strftime_YmdHMS d).
Proof.
  unfold strftime_YmdHMS. repeat first [apply pad_ascii | apply ascii_app].
Qed.

Lemma datetime_str_ascii d : ascii (datetime_str d).
Proof.
  unfold datetime_str.
  repeat first
    [ apply pad_ascii
    | apply ascii_app
    | (apply ascii_str_1; reflexivity) ].
  destruct (microsecond d =? 0); [constructor|].
  apply ascii_app; [apply ascii_str_1; reflexivity | apply pad_ascii].
Qed.

Lemma session_record_ok now s rest :
  Forall text_ok (session_lines s rest) -> experiment_ok (session_record now s).
Proof.
  unfold session_lines. intros H.
  apply Forall_cons in H as [Ht H]. apply Forall_cons in H as [Hx H].
  apply Forall_cons in H as [Hp H]. apply Forall_app in H as [Hc H].
  apply Forall_cons in H as [_ H]. apply Forall_app in H as [Hq H].
  apply Forall_cons in H as [_ H]. apply Forall_app in H as [Hs H].
  apply Forall_cons in H as [_ H]. apply Forall_cons in H as [Ho H].
  apply Forall_cons in H as [Hr _].
  unfold experiment_ok, session_record.
  cbn [title experiment_id date experimenter project chemicals equipment
       procedure observations results].
  split; [exact Ht|].
  split; [apply ascii_text_ok, ascii_app;
          [repeat constructor | apply strftime_ascii]|].
  split; [apply ascii_text_ok, datetime_str_ascii|].
  split; [exact Hx|]. split; [exact Hp|].
  split.
  { clear -Hc. induction (s_chemicals s) as [|p ps IH]; [constructor|].
    cbn [flat_map pair_lines app] in Hc.
    apply Forall_cons in Hc as [Ha Hc]. apply Forall_cons in Hc as [Hb Hc].
    constructor; [apply text_ok_with_amount; assumption | apply IH, Hc]. }
  split; [exact Hq|]. split; [exact Hs|]. split; [exact Ho | exact Hr].
Qed.

(** Property X14.  A run given fewer than eight lines of input stops while
    collecting: it raises [EOFError], and no file is written or changed. *)
Theorem short_input_aborts w :
  (length (stdin w) < 8)%nat ->
  fst (log_experiment w) = Raise EOFError /\
  fs (snd (log_experiment w)) = fs w /\
  writes (trace (snd (log_experiment w))) = writes (trace w).
Proof.
  intros Hshort. unfold log_experiment. rewrite bind_run.
  destruct (get_experiment_details w) as [[[e ts]|x|] w1] eqn:Hc.
  - exfalso. apply get_experiment_details_inv in Hc as (s & _ & Hin).
    pose proof (session_lines_length s (stdin w1)) as Hlen.
    rewrite <- Hin in Hlen. lia.
  - destruct (get_experiment_details_failed _ _ _ Hc ltac:(discriminate)) as (Hx & Hfs & _).
    injection Hx as ->. cbn [fst snd]. split; [reflexivity|]. split; [exact Hfs|].
    destruct (prompts_get_experiment_details w) as (_ & _ & _ & evs & Hevs & Hall).
    rewrite Hc in Hevs. cbn [snd] in Hevs.
    rewrite Hevs, writes_app, (writes_inputs _ Hall), app_nil_r. reflexivity.
  - destruct (get_experiment_details_failed _ _ _ Hc ltac:(discriminate)) as (Hx & _).
    discriminate Hx.
Qed.

(** A run that returns, on a log of records and an input of text. *)
Lemma returned_run (R : list experiment) w w' :
  Forall experiment_ok R ->
  Forall text_ok (stdin w) ->
  fst (load_experiments experiment_log w) = Return (map experiment_to_json R) ->
  log_experiment w = (Return tt, w') ->
  exists s,
    session_ok s /\ stdin w = session_lines s (stdin w') /\
    get_experiment_details w =
      (Return (session_record (clock (env w) (ticks w)) s,
               strftime_YmdHMS (clock (env w) (ticks w))),
       after_session w s (stdin w')) /\
    experiment_ok (session_record (clock (env w) (ticks w)) s) /\
    env w' = env w /\ ticks w' = S (ticks w) /\
    fst (load_experiments experiment_log w') =
      Return (map experiment_to_json
                (R ++ [session_record (clock (env w) (ticks w)) s])).
Proof.
  intros HR Hlines Hprior Hrun.
  destruct (finished_run w w' Hrun) as (e & ts & w1 & loaded & w2 & Hc & Hl & Hw & ->).
  destruct (get_experiment_details_returned _ _ _ _ Hc) as (s & Hs & Hin & He & Hts & Hw1).
  destruct (collected_and_loaded _ _ _ _ _ _ Hc Hl) as (Henv & Hfs & _).
  destruct (load_experiments_frame experiment_log w1) as (_ & _ & _ & Hstdin).
  rewrite Hl in Hstdin. cbn [snd] in Hstdin.
  assert (Hrest : stdin (after_word (after_pdf (after_save w2 loaded e) e ts) e ts) =
                  stdin w1) by exact Hstdin.
  rewrite Hrest.
  exists s. split; [exact Hs|]. split; [exact Hin|].
  split; [rewrite Hc, He, Hts, <- Hw1; reflexivity|].
  assert (Hok : experiment_ok e).
  { rewrite He. apply (session_record_ok _ s (stdin w1)). rewrite <- Hin. exact Hlines. }
  split; [rewrite <- He; exact Hok|].
  split; [exact Henv|].
  split.
  { cbn [after_word after_pdf after_report after_save log_event ticks set_fs].
    pose proof (load_experiments_clock experiment_log w1) as Hload.
    pose proof (get_experiment_details_reads_once w) as Hread.
    rewrite Hl in Hload. rewrite Hc in Hread. cbn [snd] in Hload, Hread.
    rewrite Hload. exact Hread. }
  assert (Hfs1 : fs w1 = fs w)
    by (pose proof (prompts_get_experiment_details w) as (_ & H & _);
        rewrite Hc in H; exact H).
  assert (Hloaded : loaded = map experiment_to_json R).
  { pose proof (load_experiments_same_files experiment_log w1 w Hfs1) as H.
    rewrite Hl, Hprior in H. injection H as ->. reflexivity. }
  erewrite load_experiments_text.
  2:{ cbn [after_word after_pdf after_report after_save log_event fs set_fs].
      rewrite !lookup_insert_ne by apply report_is_not_the_log.
      apply lookup_insert_eq. }
  cbn [fst]. rewrite <- He. rewrite json_loads_dumps.
  - rewrite Hloaded, map_app. reflexivity.
  - rewrite Hloaded. change [experiment_to_json e] with (map experiment_to_json [e]).
    rewrite <- map_app. apply plain_experiments, Forall_app. split; [exact HR|].
    constructor; [exact Hok | constructor].
Qed.

(** Property X15.  When the log loads as a list of records and the lines
    typed are text, a run that returns leaves a log that loads as the same
    records followed by the record just collected. *)
Theorem run_is_persistent (R : list experiment) w w' :
  Forall experiment_ok R ->
  Forall text_ok (stdin w) ->
  fst (load_experiments experiment_log w) = Return (map experiment_to_json R) ->
  log_experiment w = (Return tt, w') ->
  exists e timestamp w1,
    get_experiment_details w = (Return (e, timestamp), w1) /\
    fst (load_experiments experiment_log w') =
      Return (map experiment_to_json (R ++ [e])).
Proof.
  intros HR Hlines Hprior Hrun.
  destruct (returned_run R w w' HR Hlines Hprior Hrun)
    as (s & _ & _ & Hc & _ & _ & _ & Hload).
  eexists _, _, _. split; [exact Hc | exact Hload].
Qed.

Lemma session_lines_rest s rest :
  Forall text_ok (session_lines s rest) -> Forall text_ok rest.
Proof.
  unfold session_lines. intros H.
  do 3 apply Forall_cons in H as [_ H]. apply Forall_app in H as [_ H].
  apply Forall_cons in H as [_ H]. apply Forall_app in H as [_ H].
  apply Forall_cons in H as [_ H]. apply Forall_app in H as [_ H].
  do 3 apply Forall_cons in H as [_ H]. exact H.
Qed.

(** Property X16.  Two runs one after the other, fed two sessions typed one
    after the other, add the records of the two sessions to the log, in that
    order, the second with the second reading of the clock. *)
Theorem two_runs_append_two_records (R : list experiment) w w'' :
  Forall experiment_ok R ->
  Forall text_ok (stdin w) ->
  fst (load_experiments experiment_log w) = Return (map experiment_to_json R) ->
  two_runs w = (Return tt, w'') ->
  exists s1 s2,
    session_ok s1 /\ session_ok s2 /\
    stdin w = session_lines s1 (session_lines s2 (stdin w'')) /\
    fst (load_experiments experiment_log w'') =
      Return (map experiment_to_json
                (R ++ [ session_record (clock (env w) (ticks w)) s1;
                        session_record (clock (env w) (S (ticks w))) s2 ])).
Proof.
  intros HR Hlines Hprior Hruns. unfold two_runs in Hruns.
  apply bind_Return in Hruns as ([] & w' & Hrun1 & Hrun2).
  destruct (returned_run R w w' HR Hlines Hprior Hrun1)
    as (s1 & Hs1 & Hin1 & _ & Hok1 & Henv1 & Hticks1 & Hload1).
  assert (Hlines' : Forall text_ok (stdin w')).
  { apply (session_lines_rest s1). rewrite <- Hin1. exact Hlines. }
  assert (HR' : Forall experiment_ok
                  (R ++ [session_record (clock (env w) (ticks w)) s1])).
  { apply Forall_app. split; [exact HR | constructor; [exact Hok1 | constructor]]. }
  destruct (returned_run _ w' w'' HR' Hlines' Hload1 Hrun2)
    as (s2 & Hs2 & Hin2 & _ & _ & _ & _ & Hload2).
  exists s1, s2. split; [exact Hs1|]. split; [exact Hs2|].
  split; [rewrite Hin1, Hin2; reflexivity|].
  rewrite Hload2, Henv1, Hticks1, <- app_assoc. reflexivity.
Qed.

(** Property X17.  When the log is text that is no JSON array, a run that
    returns replaces it by a log that holds the one new record: what the
    file held before is gone. *)
Theorem malformed_log_is_replaced text w w' :
  fs w !! experiment_log = Some (TextFile text) ->
  (forall l, json_loads text <> Some (JList l)) ->
  log_experiment w = (Return tt, w') ->
  exists e timestamp w1,
    get_experiment_details w = (Return (e, timestamp), w1) /\
    fs w' !! experiment_log =
      Some (TextFile (json_dumps (float_repr (env w))
                                 (JList [experiment_to_json e]))).
Proof.
  intros Hfile Hbad Hrun.
  destruct (finished_run w w' Hrun) as (e & ts & w1 & loaded & w2 & Hc & Hl & Hw & ->).
  exists e, ts, w1. split; [exact Hc|].
  destruct (collected_and_loaded _ _ _ _ _ _ Hc Hl) as (Henv & _).
  assert (Hfs1 : fs w1 = fs w)
    by (pose proof (prompts_get_experiment_details w) as (_ & H & _);
        rewrite Hc in H; exact H).
  assert (Hloaded : loaded = []).
  { rewrite (load_experiments_text experiment_log text w1) in Hl
      by (rewrite Hfs1; exact Hfile).
    injection Hl as <- _.
    destruct (json_loads text) as [[ | | | | | l | ]|]; try reflexivity.
    contradiction (Hbad l); reflexivity. }
  subst loaded.
  cbn [after_word after_pdf after_report after_save log_event fs set_fs].
  rewrite !lookup_insert_ne by apply report_is_not_the_log.
  rewrite lookup_insert_eq. unfold saved_log. rewrite Henv. reflexivity.
Qed.

(** Property X18.  A run, however it ends, changes no file other than the
    log and the two reports named by its timestamp. *)
Theorem other_files_untouched w path :
  let timestamp := strftime_YmdHMS (clock (env w) (ticks w)) in
  path <> experiment_log ->
  path <> pdf_name timestamp ->
  path <> docx_name timestamp ->
  fs (snd (log_experiment w)) !! path = fs w !! path.
Proof.
  cbv zeta. intros Hlog Hpdf Hdocx.
  pose proof (log_experiment_outcome w) as Hout.
  destruct (log_experiment w) as [r w']. cbn [fst snd] in *.
  destruct Hout as
    [ x w1 r Hc Hx
    | e ts w1 x w2 r Hc Hl Hx
    | e ts w1 loaded w2 x Hc Hl Hw
    | e ts w1 loaded w2 x Hc Hl Hw Hp
    | e ts w1 loaded w2 x Hc Hl Hw Hd
    | e ts w1 loaded w2 Hc Hl Hw ];
    try (destruct (collected_and_loaded _ _ _ _ _ _ Hc Hl) as (_ & Hfs & _));
    try (destruct (get_experiment_details_timestamp _ _ _ _ Hc) as (Hts & _);
         rewrite <- Hts in Hpdf, Hdocx).
  - destruct (prompts_get_experiment_details w) as (_ & Hfs & _).
    rewrite Hc in Hfs. cbn [snd] in Hfs. rewrite Hfs. reflexivity.
  - rewrite Hfs. reflexivity.
  - rewrite Hfs. reflexivity.
  - cbn [after_save log_event fs set_fs].
    rewrite lookup_insert_ne by (intros H; apply Hlog; symmetry; exact H).
    rewrite Hfs. reflexivity.
  - cbn [after_pdf after_report after_save log_event fs set_fs].
    rewrite lookup_insert_ne by (intros H; apply Hpdf; symmetry; exact H).
    rewrite lookup_insert_ne by (intros H; apply Hlog; symmetry; exact H).
    rewrite Hfs. reflexivity.
  - cbn [after_word after_pdf after_report after_save log_event fs set_fs].
    rewrite lookup_insert_ne by (intros H; apply Hdocx; symmetry; exact H).
    rewrite lookup_insert_ne by (intros H; apply Hpdf; symmetry; exact H).
    rewrite lookup_insert_ne by (intros H; apply Hlog; symmetry; exact H).
    rewrite Hfs. reflexivity.
Qed.

Lemma prints_app t u : prints (t ++ u) = prints t ++ prints u.
Proof. apply omap_app. Qed.

Lemma prints_inputs evs : Forall is_input evs -> prints evs = [].
Proof.
  induction 1 as [|ev evs Hev _ IH]; [reflexivity|].
  destruct ev as [prompt response| | | |]; try contradiction. exact IH.
Qed.

Lemma load_experiments_quiet path w :
  exists evs,
    trace (snd (load_experiments path w)) = trace w ++ evs /\ prints evs = [].
Proof.
  destruct (fs w !! path) as [content|] eqn:H.
  - destruct content as [text| | | |].
    + rewrite (load_experiments_text _ _ _ H). eexists [_; _].
      split; [cbn; rewrite <- app_assoc; reflexivity | reflexivity].
    + rewrite (load_experiments_not_text _ _ _ H I). eexists [_; _].
      split; [cbn; rewrite <- app_assoc; reflexivity | reflexivity].
    + rewrite (load_experiments_not_text _ _ _ H I). eexists [_; _].
      split; [cbn; rewrite <- app_assoc; reflexivity | reflexivity].
    + rewrite (load_experiments_not_text _ _ _ H I). eexists [_; _].
      split; [cbn; rewrite <- app_assoc; reflexivity | reflexivity].
    + rewrite (load_experiments_directory _ _ H). eexists [_].
      split; reflexivity.
  - rewrite (load_experiments_missing _ _ H). eexists [_]. split; reflexivity.
Qed.

Lemma collected_and_loaded_quiet w e timestamp w1 x w2 :
  get_experiment_details w = (Return (e, timestamp), w1) ->
  load_experiments experiment_log w1 = (x, w2) ->
  exists evs, trace w2 = trace w ++ evs /\ prints evs = [].
Proof.
  intros Hc Hl.
  destruct (prompts_get_experiment_details w) as (_ & _ & _ & ins & Hins & Hall).
  rewrite Hc in Hins. cbn [snd] in Hins.
  destruct (load_experiments_quiet experiment_log w1) as (loads & Hloads & Hq).
  rewrite Hl in Hloads. cbn [snd] in Hloads.
  exists (ins ++ loads). split; [rewrite Hloads, Hins, app_assoc; reflexivity|].
  rewrite prints_app, Hq, (prints_inputs _ Hall). reflexivity.
Qed.

(** Property X19.  What a run prints is an initial part of its three
    messages (logged, PDF generated, Word document generated), all three
    exactly when the run returns.  No message comes before its file: when
    anything was printed the log is in place, and when the PDF or the Word
    message was printed that report is in place under the name the message
    gives. *)
Theorem messages_follow_files w :
  let timestamp := strftime_YmdHMS (clock (env w) (ticks w)) in
  let w' := snd (log_experiment w) in
  exists new,
    trace w' = trace w ++ new /\
    prints new `prefix_of` messages timestamp /\
    (fst (log_experiment w) = Return tt <-> prints new = messages timestamp) /\
    (prints new <> [] ->
     exists text, fs w' !! experiment_log = Some (TextFile text)) /\
    ((str "PDF report generated: " ++ pdf_name timestamp) ∈ prints new ->
     exists calls, fs w' !! pdf_name timestamp = Some (PdfFile calls)) /\
    ((str "Word report generated: " ++ docx_name timestamp) ∈ prints new ->
     exists body, fs w' !! docx_name timestamp = Some (DocxFile body)).
Proof.
  cbv zeta. pose proof (log_experiment_outcome w) as Hout.
  destruct (log_experiment w) as [r w']. cbn [fst snd] in *.
  destruct Hout as
    [ x w1 r Hc Hx
    | e ts w1 x w2 r Hc Hl Hx
    | e ts w1 loaded w2 x Hc Hl Hw
    | e ts w1 loaded w2 x Hc Hl Hw Hp
    | e ts w1 loaded w2 x Hc Hl Hw Hd
    | e ts w1 loaded w2 Hc Hl Hw ].
  - destruct (prompts_get_experiment_details w) as (_ & _ & _ & evs & Hevs & Hall).
    rewrite Hc in Hevs. cbn [snd] in Hevs.
    exists evs. split; [exact Hevs|]. rewrite (prints_inputs _ Hall).
    split; [apply prefix_nil|].
    split; [split; [intros ->; destruct x; [contradiction Hx | discriminate Hx | discriminate Hx]
                   | discriminate]|].
    split; [intros H; contradiction H; reflexivity|].
    split; intros H; apply elem_of_nil in H; contradiction H.
  - destruct (collected_and_loaded_quiet _ _ _ _ _ _ Hc Hl) as (evs & Htr & Hq).
    exists evs. split; [exact Htr|]. rewrite Hq.
    split; [apply prefix_nil|].
    split; [split; [intros ->; destruct x; [contradiction Hx | discriminate Hx | discriminate Hx]
                   | discriminate]|].
    split; [intros H; contradiction H; reflexivity|].
    split; intros H; apply elem_of_nil in H; contradiction H.
  - destruct (collected_and_loaded_quiet _ _ _ _ _ _ Hc Hl) as (evs & Htr & Hq).
    exists evs. split; [exact Htr|]. rewrite Hq.
    split; [apply prefix_nil|].
    split; [split; discriminate|].
    split; [intros H; contradiction H; reflexivity|].
    split; intros H; apply elem_of_nil in H; contradiction H.
  - destruct (collected_and_loaded_quiet _ _ _ _ _ _ Hc Hl) as (evs & Htr & Hq).
    destruct (get_experiment_details_timestamp _ _ _ _ Hc) as (Hts & _). rewrite <- Hts.
    eexists (evs ++ [_; _]). split;
      [cbn [after_save log_event trace set_fs]; rewrite Htr, <- !app_assoc; reflexivity|].
    rewrite prints_app, Hq. cbn [app].
    change (prints [_; _]) with
      [10 :: str "Experiment logged successfully! Generating reports..."].
    split; [eexists [_; _]; reflexivity|].
    split; [split; discriminate|].
    split; [intros _; eexists; cbn [after_save log_event fs set_fs]; apply lookup_insert_eq|].
    split; intros H; apply list_elem_of_singleton in H; discriminate H.
  - destruct (collected_and_loaded_quiet _ _ _ _ _ _ Hc Hl) as (evs & Htr & Hq).
    destruct (get_experiment_details_timestamp _ _ _ _ Hc) as (Hts & _). rewrite <- Hts.
    eexists (evs ++ [_; _; _; _]). split;
      [cbn [after_pdf after_report after_save log_event trace set_fs];
       rewrite Htr, <- !app_assoc; reflexivity|].
    rewrite prints_app, Hq. cbn [app].
    change (prints [_; _; _; _]) with
      [10 :: str "Experiment logged successfully! Generating reports...";
       str "PDF report generated: " ++ pdf_name ts].
    split; [eexists [_]; reflexivity|].
    split; [split; discriminate|].
    split.
    { intros _. eexists. cbn [after_pdf after_report after_save log_event fs set_fs].
      rewrite lookup_insert_ne by apply report_is_not_the_log. apply lookup_insert_eq. }
    split.
    { intros _. eexists. cbn [after_pdf after_report after_save log_event fs set_fs].
      apply lookup_insert_eq. }
    intros H. apply elem_of_cons in H as [H|H]; [discriminate H|].
    apply list_elem_of_singleton in H. vm_compute in H. discriminate H.
  - destruct (collected_and_loaded_quiet _ _ _ _ _ _ Hc Hl) as (evs & Htr & Hq).
    destruct (get_experiment_details_timestamp _ _ _ _ Hc) as (Hts & _). rewrite <- Hts.
    eexists (evs ++ [_; _; _; _; _; _]). split;
      [cbn [after_word after_pdf after_report after_save log_event trace set_fs];
       rewrite Htr, <- !app_assoc; reflexivity|].
    rewrite prints_app, Hq. cbn [app].
    change (prints [_; _; _; _; _; _]) with (messages ts).
    split; [reflexivity|].
    split; [split; reflexivity|].
    split.
    { intros _. eexists. cbn [after_word after_pdf after_report after_save log_event fs set_fs].
      rewrite !lookup_insert_ne by apply report_is_not_the_log. apply lookup_insert_eq. }
    split.
    { intros _. eexists. cbn [after_word after_pdf after_report after_save log_event fs set_fs].
      rewrite lookup_insert_ne by (symmetry; apply pdf_is_not_docx).
      apply lookup_insert_eq. }
    intros _. eexists. cbn [after_word after_pdf after_report after_save log_event fs set_fs].
    apply lookup_insert_eq.
Qed.

(** ** The further properties at sample inputs *)

Lemma demo_session_ok : session_ok demo_session.
Proof. repeat split; repeat constructor; discriminate. Qed.

Lemma demo_lines_text : Forall text_ok demo_lines.
Proof. repeat (apply List.Forall_cons; [literal_ok|]). apply List.Forall_nil. Qed.

(** Property X1 at two pieces of equipment. *)
Lemma items_in_entry_order_witness :
  Forall (fun item : pystr => item <> []) [str "Beaker"; str "Flask"] /\
  stdin (demo_world (map str ["Beaker"; "Flask"; ""; "Mix"]%string) ∅) =
    [str "Beaker"; str "Flask"] ++ [] :: [str "Mix"] /\
  exists w',
    get_input_list (str "Enter equipment (or press Enter to finish): ") None
      (demo_world (map str ["Beaker"; "Flask"; ""; "Mix"]%string) ∅) =
      (Return [str "Beaker"; str "Flask"], w') /\
    stdin w' = [str "Mix"] /\
    trace w' =
      trace (demo_world (map str ["Beaker"; "Flask"; ""; "Mix"]%string) ∅) ++
      item_events (str "Enter equipment (or press Enter to finish): ")
                  [str "Beaker"; str "Flask"] ++
      [ev_input (str "Enter equipment (or press Enter to finish): ") (Some [])].
Proof.
  assert (H : Forall (fun item : pystr => item <> []) [str "Beaker"; str "Flask"])
    by (repeat constructor; discriminate).
  split; [exact H|]. split; [reflexivity|].
  exact (items_in_entry_order (str "Enter equipment (or press Enter to finish): ")
           [str "Beaker"; str "Flask"] [str "Mix"]
           (demo_world (map str ["Beaker"; "Flask"; ""; "Mix"]%string) ∅)
           H eq_refl).
Defined.

(** Property X4 at the end-to-end scenario. *)
Lemma session_is_collected_witness :
  session_ok demo_session /\
  stdin (demo_world demo_lines ∅) = session_lines demo_session [] /\
  exists w',
    get_experiment_details (demo_world demo_lines ∅) =
      (Return (session_record
                 (clock (env (demo_world demo_lines ∅))
                        (ticks (demo_world demo_lines ∅))) demo_session,
               strftime_YmdHMS
                 (clock (env (demo_world demo_lines ∅))
                        (ticks (demo_world demo_lines ∅)))), w') /\
    stdin w' = [] /\
    trace w' = trace (demo_world demo_lines ∅) ++ session_events demo_session /\
    fs w' = fs (demo_world demo_lines ∅).
Proof.
  split; [exact demo_session_ok|]. split; [reflexivity|].
  exact (session_is_collected demo_session [] (demo_world demo_lines ∅)
           demo_session_ok eq_refl).
Defined.

Lemma demo_collected :
  get_experiment_details (demo_world demo_lines ∅) =
  (Return (demo_experiment, str "20240307090500"),
   snd (get_experiment_details (demo_world demo_lines ∅))).
Proof. vm_compute. reflexivity. Qed.

(** Property X5 at the end-to-end scenario. *)
Lemma collected_from_a_session_witness :
  get_experiment_details (demo_world demo_lines ∅) =
    (Return (demo_experiment, str "20240307090500"),
     snd (get_experiment_details (demo_world demo_lines ∅))) /\
  exists s,
    session_ok s /\
    stdin (demo_world demo_lines ∅) =
      session_lines s (stdin (snd (get_experiment_details (demo_world demo_lines ∅)))) /\
    demo_experiment =
      session_record (clock (env (demo_world demo_lines ∅))
                            (ticks (demo_world demo_lines ∅))) s /\
    (8 + length (stdin (snd (get_experiment_details (demo_world demo_lines ∅)))) <=
     length (stdin (demo_world demo_lines ∅)))%nat.
Proof.
  split; [exact demo_collected|].
  exact (collected_from_a_session (demo_world demo_lines ∅) demo_experiment
           (str "20240307090500")
           (snd (get_experiment_details (demo_world demo_lines ∅))) demo_collected).
Defined.

Lemma demo_reading_valid us : us < 1000000 -> valid_datetime (demo_reading us).
Proof. intros H. unfold valid_datetime, demo_reading. cbn. lia. Qed.

(** Property X7 at two readings that differ in their microseconds only. *)
Lemma one_timestamp_a_second_witness :
  valid_datetime (demo_reading 120) /\
  valid_datetime (demo_reading 999999) /\
  (strftime_YmdHMS (demo_reading 120) = strftime_YmdHMS (demo_reading 999999) <->
   year (demo_reading 120) = year (demo_reading 999999) /\
   month (demo_reading 120) = month (demo_reading 999999) /\
   day (demo_reading 120) = day (demo_reading 999999) /\
   hour (demo_reading 120) = hour (demo_reading 999999) /\
   minute (demo_reading 120) = minute (demo_reading 999999) /\
   second (demo_reading 120) = second (demo_reading 999999)).
Proof.
  assert (H1 : valid_datetime (demo_reading 120))
    by (apply demo_reading_valid; reflexivity).
  assert (H2 : valid_datetime (demo_reading 999999))
    by (apply demo_reading_valid; reflexivity).
  split; [exact H1|]. split; [exact H2|].
  exact (one_timestamp_a_second (demo_reading 120) (demo_reading 999999) H1 H2).
Defined.

Lemma demo_first_reading_valid :
  valid_datetime (clock (env (demo_world demo_lines ∅))
                        (ticks (demo_world demo_lines ∅))).
Proof. repeat split; vm_compute; first [reflexivity | discriminate]. Qed.

(** Property X8 at the end-to-end scenario. *)
Lemma date_and_id_agree_witness :
  valid_datetime (clock (env (demo_world demo_lines ∅))
                        (ticks (demo_world demo_lines ∅))) /\
  get_experiment_details (demo_world demo_lines ∅) =
    (Return (demo_experiment, str "20240307090500"),
     snd (get_experiment_details (demo_world demo_lines ∅))) /\
  experiment_id demo_experiment =
    str "EXP-" ++ digits_of (take 19 (date demo_experiment)).
Proof.
  split; [exact demo_first_reading_valid|]. split; [exact demo_collected|].
  exact (date_and_id_agree (demo_world demo_lines ∅) demo_experiment
           (str "20240307090500")
           (snd (get_experiment_details (demo_world demo_lines ∅)))
           demo_first_reading_valid demo_collected).
Defined.

Lemma demo_float_repr_ascii lit : ascii (float_repr (env demo_float_world) lit).
Proof. repeat constructor. Qed.

Lemma demo_float_save :
  save_experiments [JStr [233; 0x1f600]; JFloat (str "1.50")] (str "a.json")
                   demo_float_world =
  (Return tt,
   snd (save_experiments [JStr [233; 0x1f600]; JFloat (str "1.50")] (str "a.json")
                         demo_float_world)).
Proof. vm_compute. reflexivity. Qed.

(** Property X11 at a list that holds an accented letter, an emoji and a
    float. *)
Lemma saved_log_is_ascii_witness :
  (forall lit, ascii (float_repr (env demo_float_world) lit)) /\
  save_experiments [JStr [233; 0x1f600]; JFloat (str "1.50")] (str "a.json")
                   demo_float_world =
    (Return tt,
     snd (save_experiments [JStr [233; 0x1f600]; JFloat (str "1.50")]
                           (str "a.json") demo_float_world)) /\
  exists text,
    fs (snd (save_experiments [JStr [233; 0x1f600]; JFloat (str "1.50")]
                              (str "a.json") demo_float_world)) !! str "a.json" =
      Some (TextFile text) /\
    ascii text.
Proof.
  split; [exact demo_float_repr_ascii|]. split; [exact demo_float_save|].
  exact (saved_log_is_ascii _ _ _ _ demo_float_repr_ascii demo_float_save).
Defined.

(** Property X14 at an input of two lines. *)
Lemma short_input_aborts_witness :
  (length (stdin demo_short_world) < 8)%nat /\
  fst (log_experiment demo_short_world) = Raise EOFError /\
  fs (snd (log_experiment demo_short_world)) = fs demo_short_world /\
  writes (trace (snd (log_experiment demo_short_world))) =
    writes (trace demo_short_world).
Proof.
  assert (H : (length (stdin demo_short_world) < 8)%nat) by (vm_compute; lia).
  split; [exact H|]. exact (short_input_aborts demo_short_world H).
Defined.

Lemma demo_earlier_ok : Forall experiment_ok [titled (str "Earlier")].
Proof.
  constructor; [|constructor]. unfold experiment_ok, titled.
  cbn [title experiment_id date experimenter project chemicals equipment
       procedure observations results].
  repeat split; repeat (apply List.Forall_cons || apply List.Forall_nil);
    repeat split; try reflexivity; repeat constructor.
Qed.

Lemma demo_log_loaded lines :
  fst (load_experiments experiment_log (demo_world lines demo_log)) =
  Return (map experiment_to_json [titled (str "Earlier")]).
Proof. vm_compute. reflexivity. Qed.

(** Property X15 at the end-to-end scenario, run on a log of one record. *)
Lemma run_is_persistent_witness :
  Forall experiment_ok [titled (str "Earlier")] /\
  Forall text_ok (stdin (demo_world demo_lines demo_log)) /\
  fst (load_experiments experiment_log (demo_world demo_lines demo_log)) =
    Return (map experiment_to_json [titled (str "Earlier")]) /\
  log_experiment (demo_world demo_lines demo_log) =
    (Return tt, snd (log_experiment (demo_world demo_lines demo_log))) /\
  exists e timestamp w1,
    get_experiment_details (demo_world demo_lines demo_log) =
      (Return (e, timestamp), w1) /\
    fst (load_experiments experiment_log
           (snd (log_experiment (demo_world demo_lines demo_log)))) =
      Return (map experiment_to_json ([titled (str "Earlier")] ++ [e])).
Proof.
  split; [exact demo_earlier_ok|]. split; [exact demo_lines_text|].
  split; [exact (demo_log_loaded demo_lines)|]. split; [exact demo_run|].
  exact (run_is_persistent [titled (str "Earlier")] (demo_world demo_lines demo_log)
           (snd (log_experiment (demo_world demo_lines demo_log)))
           demo_earlier_ok demo_lines_text (demo_log_loaded demo_lines) demo_run).
Defined.

Lemma demo_two_lines_text : Forall text_ok (demo_lines ++ demo_lines).
Proof. apply Forall_app. split; exact demo_lines_text. Qed.

Lemma demo_two_runs :
  two_runs (demo_world (demo_lines ++ demo_lines) demo_log) =
  (Return tt, snd (two_runs (demo_world (demo_lines ++ demo_lines) demo_log))).
Proof. vm_compute. reflexivity. Qed.

(** Property X16 at the end-to-end scenario typed twice. *)
Lemma two_runs_append_two_records_witness :
  Forall experiment_ok [titled (str "Earlier")] /\
  Forall text_ok (stdin (demo_world (demo_lines ++ demo_lines) demo_log)) /\
  fst (load_experiments experiment_log
         (demo_world (demo_lines ++ demo_lines) demo_log)) =
    Return (map experiment_to_json [titled (str "Earlier")]) /\
  two_runs (demo_world (demo_lines ++ demo_lines) demo_log) =
    (Return tt, snd (two_runs (demo_world (demo_lines ++ demo_lines) demo_log))) /\
  exists s1 s2,
    session_ok s1 /\ session_ok s2 /\
    stdin (demo_world (demo_lines ++ demo_lines) demo_log) =
      session_lines s1
        (session_lines s2
           (stdin (snd (two_runs (demo_world (demo_lines ++ demo_lines) demo_log))))) /\
    fst (load_experiments experiment_log
           (snd (two_runs (demo_world (demo_lines ++ demo_lines) demo_log)))) =
      Return (map experiment_to_json
                ([titled (str "Earlier")] ++
                 [ session_record
                     (clock (env (demo_world (demo_lines ++ demo_lines) demo_log))
                            (ticks (demo_world (demo_lines ++ demo_lines) demo_log)))
                     s1;
                   session_record
                     (clock (env (demo_world (demo_lines ++ demo_lines) demo_log))
                            (S (ticks (demo_world (demo_lines ++ demo_lines) demo_log))))
                     s2 ])).
Proof.
  split; [exact demo_earlier_ok|]. split; [exact demo_two_lines_text|].
  split; [exact (demo_log_loaded (demo_lines ++ demo_lines))|].
  split; [exact demo_two_runs|].
  exact (two_runs_append_two_records [titled (str "Earlier")]
           (demo_world (demo_lines ++ demo_lines) demo_log)
           (snd (two_runs (demo_world (demo_lines ++ demo_lines) demo_log)))
           demo_earlier_ok demo_two_lines_text
           (demo_log_loaded (demo_lines ++ demo_lines)) demo_two_runs).
Defined.

Lemma demo_broken_log :
  fs demo_broken_world !! experiment_log = Some (TextFile (str "not json")).
Proof. vm_compute. reflexivity. Qed.

Lemma demo_not_json l : json_loads (str "not json") <> Some (JList l).
Proof. vm_compute. discriminate. Qed.

Lemma demo_broken_run :
  log_experiment demo_broken_world =
  (Return tt, snd (log_experiment demo_broken_world)).
Proof. vm_compute. reflexivity. Qed.

(** Property X17 at a log that holds the text [not json]. *)
Lemma malformed_log_is_replaced_witness :
  fs demo_broken_world !! experiment_log = Some (TextFile (str "not json")) /\
  (forall l, json_loads (str "not json") <> Some (JList l)) /\
  log_experiment demo_broken_world =
    (Return tt, snd (log_experiment demo_broken_world)) /\
  exists e timestamp w1,
    get_experiment_details demo_broken_world = (Return (e, timestamp), w1) /\
    fs (snd (log_experiment demo_broken_world)) !! experiment_log =
      Some (TextFile (json_dumps (float_repr (env demo_broken_world))
                                 (JList [experiment_to_json e]))).
Proof.
  split; [exact demo_broken_log|]. split; [exact demo_not_json|].
  split; [exact demo_broken_run|].
  exact (malformed_log_is_replaced (str "not json") demo_broken_world
           (snd (log_experiment demo_broken_world))
           demo_broken_log demo_not_json demo_broken_run).
Defined.

(** Property X18 at a note that lies beside the log. *)
Lemma other_files_untouched_witness :
  str "notes.txt" <> experiment_log /\
  str "notes.txt" <>
    pdf_name (strftime_YmdHMS (clock (env demo_broken_world)
                                     (ticks demo_broken_world))) /\
  str "notes.txt" <>
    docx_name (strftime_YmdHMS (clock (env demo_broken_world)
                                      (ticks demo_broken_world))) /\
  fs (snd (log_experiment demo_broken_world)) !! str "notes.txt" =
    fs demo_broken_world !! str "notes.txt".
Proof.
  assert (H1 : str "notes.txt" <> experiment_log) by (vm_compute; discriminate).
  assert (H2 : str "notes.txt" <>
               pdf_name (strftime_YmdHMS (clock (env demo_broken_world)
                                                (ticks demo_broken_world))))
    by (vm_compute; discriminate).
  assert (H3 : str "notes.txt" <>
               docx_name (strftime_YmdHMS (clock (env demo_broken_world)
                                                 (ticks demo_broken_world))))
    by (vm_compute; discriminate).
  split; [exact H1|]. split; [exact H2|]. split; [exact H3|].
  exact (other_files_untouched demo_broken_world (str "notes.txt") H1 H2 H3).
Defined.
